(** * Data Alchemist: validation engine, query parser, command parser,
      mutation preview and co-occurrence miner

    A shallow embedding of the pure logic of the extended version of the
    application: the validators, [parseNaturalLanguageQuery], the
    [AIService] stub and the [NaturalLanguageModifier] preview, with the
    properties stated about them.  The validators of [src/app/page.tsx]
    are the same text.  Its [parseNaturalLanguageQuery] is another
    function: it applies [parseInt] to the capture of every pattern before
    it calls the filter, and it is not the one embedded here.

    Conventions of the embedding.
    - JavaScript strings are modelled by [string] (sequences of 8-bit
      characters); the development covers ASCII text, where [toLowerCase],
      [trim], [\s], [\d] and [\w] have the meaning given below.
    - JavaScript numbers are modelled by [number]: [NaN], the two
      infinities, and exact rationals.  Every finite double is such a
      rational; rounding, overflow to an infinity, underflow to zero and
      the negative zero are not modelled.  On the integers from [-2^53]
      to [2^53] the model is the code: they are doubles, [parseInt] reads
      them and [String] prints them without rounding.  A property that
      depends on the value of a number read from a text is stated within
      that range.
    - A cell of a row is a JavaScript primitive ([jsval]); a row is the
      list of its properties in property order, with distinct names.
    - [await] on the simulated delays has no effect on the results and is
      left out. *)

From Stdlib Require Import QArith.
From Stdlib Require Import Ascii String.
From stdpp Require Import gmap strings list pretty sorting.

Close Scope Q_scope.
#[local] Set Warnings "-clear-no-such-hyp".

(** ** Strings *)

Module Str.

Definition is_upper (c : ascii) : bool :=
  let n := nat_of_ascii c in (65 <=? n) && (n <=? 90).

Definition is_lower (c : ascii) : bool :=
  let n := nat_of_ascii c in (97 <=? n) && (n <=? 122).

(** [\d] *)
Definition is_digit (c : ascii) : bool :=
  let n := nat_of_ascii c in (48 <=? n) && (n <=? 57).

(** [\w], that is [[A-Za-z0-9_]] *)
Definition is_word (c : ascii) : bool :=
  is_upper c || is_lower c || is_digit c || Ascii.eqb c "_"%char.

(** [\s], also the characters removed by [trim] *)
Definition is_space (c : ascii) : bool := Ascii.is_space c.

Definition lower_char (c : ascii) : ascii :=
  if is_upper c then ascii_of_nat (nat_of_ascii c + 32) else c.

(** [s.toLowerCase()] *)
Fixpoint toLowerCase (s : string) : string :=
  match s with
  | "" => ""
  | String c s' => String (lower_char c) (toLowerCase s')
  end.

Fixpoint trimStart (s : string) : string :=
  match s with
  | "" => ""
  | String c s' => if is_space c then trimStart s' else s
  end.

Fixpoint trimEnd (s : string) : string :=
  match s with
  | "" => ""
  | String c s' =>
      match trimEnd s' with
      | "" => if is_space c then "" else String c ""
      | t => String c t
      end
  end.

(** [s.trim()] *)
Definition trim (s : string) : string := trimEnd (trimStart s).

(** [s.startsWith(p)] *)
Fixpoint startsWith (p s : string) : bool :=
  match p, s with
  | "", _ => true
  | String a p', String b s' => Ascii.eqb a b && startsWith p' s'
  | String _ _, "" => false
  end.

(** [s.includes(sub)] *)
Fixpoint includes (sub s : string) : bool :=
  startsWith sub s ||
  match s with
  | "" => false
  | String _ s' => includes sub s'
  end.

(** [s.split(sep)] for a one-character separator: an empty string
    yields one empty piece. *)
Fixpoint split (sep : ascii) (s : string) : list string :=
  match s with
  | "" => [""]
  | String c s' =>
      if Ascii.eqb c sep then "" :: split sep s'
      else match split sep s' with
           | h :: t => String c h :: t
           | [] => [String c ""]
           end
  end.

(** [l.join(sep)] *)
Fixpoint join (sep : string) (l : list string) : string :=
  match l with
  | [] => ""
  | [x] => x
  | x :: l' => x +:+ sep +:+ join sep l'
  end.

(** The longest prefix of [s] whose characters satisfy [p], and the rest. *)
Fixpoint span (p : ascii -> bool) (s : string) : string * string :=
  match s with
  | "" => ("", "")
  | String c s' =>
      if p c then let '(a, b) := span p s' in (String c a, b) else ("", s)
  end.

Definition nonEmpty (s : string) : bool :=
  match s with "" => false | _ => true end.

End Str.

(** ** Numbers *)

Inductive number : Type :=
  | NaN
  | PosInf
  | NegInf
  | Fin (q : Q).

Module Num.

Definition ofZ (z : Z) : number := Fin (inject_Z z).
Definition ofNat (n : nat) : number := ofZ (Z.of_nat n).

Definition Qltb (x y : Q) : bool :=
  (Qnum x * Zpos (Qden y) <? Qnum y * Zpos (Qden x))%Z.

(** [a < b]; any comparison with [NaN] is false. *)
Definition ltb (a b : number) : bool :=
  match a, b with
  | NaN, _ | _, NaN => false
  | _, NegInf => false
  | PosInf, _ => false
  | NegInf, _ => true
  | _, PosInf => true
  | Fin x, Fin y => Qltb x y
  end.

(** [a > b] *)
Definition gtb (a b : number) : bool := ltb b a.
(** [a <= b] *)
Definition leb (a b : number) : bool :=
  match a, b with
  | NaN, _ | _, NaN => false
  | _, _ => negb (ltb b a)
  end.
(** [a >= b] *)
Definition geb (a b : number) : bool := leb b a.

(** [a === b] on numbers *)
Definition eqb (a b : number) : bool :=
  match a, b with
  | PosInf, PosInf | NegInf, NegInf => true
  | Fin x, Fin y => Qeq_bool x y
  | _, _ => false
  end.

Definition isNaN (a : number) : bool :=
  match a with NaN => true | _ => false end.

(** [Number.isInteger(a)] *)
Definition isInteger (a : number) : bool :=
  match a with
  | Fin q => (Z.rem (Qnum q) (Zpos (Qden q)) =? 0)%Z
  | _ => false
  end.

(** [Math.min(a, b)] *)
Definition min (a b : number) : number :=
  match a, b with
  | NaN, _ | _, NaN => NaN
  | _, _ => if ltb b a then b else a
  end.

(** [a / b], in exact arithmetic on finite operands. *)
Definition div (a b : number) : number :=
  match a, b with
  | NaN, _ | _, NaN => NaN
  | Fin x, Fin y =>
      if Qeq_bool y 0 then
        if Qeq_bool x 0 then NaN
        else if Qltb x 0 then NegInf else PosInf
      else Fin (Qred (x / y))
  | Fin _, _ => Fin 0
  | PosInf, Fin y => if Qltb y 0 then NegInf else PosInf
  | NegInf, Fin y => if Qltb y 0 then PosInf else NegInf
  | _, _ => NaN
  end.

(** Value of a digit in bases up to 16. *)
Definition digitVal (c : ascii) : option Z :=
  let n := Z.of_nat (nat_of_ascii c) in
  if Str.is_digit c then Some (n - 48)%Z
  else if ((97 <=? n) && (n <=? 102))%Z then Some (n - 87)%Z
  else if ((65 <=? n) && (n <=? 70))%Z then Some (n - 55)%Z
  else None.

Definition isDigitIn (radix : Z) (c : ascii) : bool :=
  match digitVal c with
  | Some d => (d <? radix)%Z
  | None => false
  end.

(** Value of a string of digits in the given radix, most significant
    digit first. *)
Fixpoint digitsVal (radix : Z) (acc : Z) (s : string) : Z :=
  match s with
  | "" => acc
  | String c s' =>
      digitsVal radix (acc * radix + default 0%Z (digitVal c))%Z s'
  end.

(** [m * 10^e] as a number *)
Definition scale10 (m e : Z) : number :=
  if (0 <=? e)%Z then Fin (inject_Z (m * 10 ^ e))
  else Fin (Qred (Qmake m (Z.to_pos (10 ^ (- e))))).

(** An optional sign: the sign as a factor and the rest. *)
Definition sign (s : string) : Z * string :=
  match s with
  | String "+"%char s' => (1%Z, s')
  | String "-"%char s' => ((-1)%Z, s')
  | _ => (1%Z, s)
  end.

(** An optional exponent part [[eE][+-]?\d+] reaching to the end. *)
Definition exponent (s : string) : option Z :=
  match s with
  | "" => Some 0%Z
  | String c s' =>
      if Ascii.eqb c "e"%char || Ascii.eqb c "E"%char then
        let '(sg, ds) := sign s' in
        let '(d, rest) := Str.span Str.is_digit ds in
        if Str.nonEmpty d && negb (Str.nonEmpty rest)
        then Some (sg * digitsVal 10 0 d)%Z else None
      else None
  end.

(** An unsigned decimal literal: digits, an optional fraction and an
    optional exponent, with a digit before or after the point. *)
Definition decimal (s : string) : option number :=
  let '(ip, r1) := Str.span Str.is_digit s in
  let '(fp, r2) :=
    match r1 with
    | String "."%char r => Str.span Str.is_digit r
    | _ => ("", r1)
    end in
  if Str.nonEmpty ip || Str.nonEmpty fp then
    match exponent r2 with
    | Some e =>
        Some (scale10 (digitsVal 10 0 (ip +:+ fp))
                      (e - Z.of_nat (String.length fp)))
    | None => None
    end
  else None.

Definition negate (a : number) : number :=
  match a with
  | NaN => NaN
  | PosInf => NegInf
  | NegInf => PosInf
  | Fin q => Fin (Qred (- q))
  end.

(** A literal [0x..], [0o..] or [0b..] after its two-character prefix. *)
Definition radixLiteral (radix : Z) (ds : string) : number :=
  let '(d, rest) := Str.span (isDigitIn radix) ds in
  if Str.nonEmpty d && negb (Str.nonEmpty rest)
  then ofZ (digitsVal radix 0 d) else NaN.

(** [Number(s)] on a string: the StringToNumber conversion. *)
Definition ofString (s : string) : number :=
  let t := Str.trim s in
  match t with
  | "" => ofZ 0
  | String "0"%char (String "x"%char ds) | String "0"%char (String "X"%char ds) => radixLiteral 16 ds
  | String "0"%char (String "o"%char ds) | String "0"%char (String "O"%char ds) => radixLiteral 8 ds
  | String "0"%char (String "b"%char ds) | String "0"%char (String "B"%char ds) => radixLiteral 2 ds
  | _ =>
      let '(sg, u) := sign t in
      let a :=
        if String.eqb u "Infinity" then PosInf
        else default NaN (decimal u) in
      if (sg <? 0)%Z then negate a else a
  end.

(** The radix announced by a [0x] or [0X] prefix, and the digits. *)
Definition radixPrefix (u : string) : Z * string :=
  match u with
  | String "0"%char (String "x"%char r)
  | String "0"%char (String "X"%char r) => (16%Z, r)
  | _ => (10%Z, u)
  end.

(** [parseInt(s)] without a radix argument.  The result is the integer
    the digits write; the code returns the nearest double, which is that
    integer when it is at most [2^53] in magnitude. *)
Definition parseInt (s : string) : number :=
  let '(sg, u) := sign (Str.trimStart s) in
  let '(radix, ds) := radixPrefix u in
  let '(d, _) := Str.span (isDigitIn radix) ds in
  if Str.nonEmpty d then ofZ (sg * digitsVal radix 0 d) else NaN.

(** Digits of the fraction [n / d] (with [n < d]) by long division. *)
Fixpoint fracDigits (fuel : nat) (n d : Z) : string :=
  match fuel with
  | O => ""
  | S fuel' =>
      if (n =? 0)%Z then ""
      else String (pretty_N_char (Z.to_N (10 * n / d)))
                  (fracDigits fuel' ((10 * n) mod d)%Z d)
  end.

(** [String(a)] on a number.  Integers print in decimal; other finite
    numbers print their decimal expansion.  This is what JavaScript
    prints for numbers of magnitude between 1e-6 and 1e21 with at most
    15 significant digits. *)
Definition toString (a : number) : string :=
  match a with
  | NaN => "NaN"
  | PosInf => "Infinity"
  | NegInf => "-Infinity"
  | Fin q =>
      let q' := Qred q in
      let n := Qnum q' in
      let d := Zpos (Qden q') in
      if (d =? 1)%Z then pretty n
      else
        (if (n <? 0)%Z then "-" else "") +:+
        pretty (Z.abs n / d)%Z +:+ "." +:+
        fracDigits (Pos.size_nat (Qden q')) (Z.abs n mod d)%Z d
  end.

End Num.

(** ** Values, rows and datasets *)

(** A cell: the JavaScript primitives a parsed file, a grid edit or a
    command can put in a row; [VUndefined] is also what reading an absent
    property gives. *)
Inductive jsval : Type :=
  | VUndefined
  | VNull
  | VBool (b : bool)
  | VNum (n : number)
  | VStr (s : string).

(** [String(v)], also the conversion inside a template literal *)
Definition ToString (v : jsval) : string :=
  match v with
  | VUndefined => "undefined"
  | VNull => "null"
  | VBool true => "true"
  | VBool false => "false"
  | VNum n => Num.toString n
  | VStr s => s
  end.

(** [Number(v)] *)
Definition ToNumber (v : jsval) : number :=
  match v with
  | VUndefined => NaN
  | VNull => Num.ofZ 0
  | VBool true => Num.ofZ 1
  | VBool false => Num.ofZ 0
  | VNum n => n
  | VStr s => Num.ofString s
  end.

(** Truthiness, as tested by [||], [!] and [if] *)
Definition truthy (v : jsval) : bool :=
  match v with
  | VUndefined | VNull => false
  | VBool b => b
  | VNum NaN => false
  | VNum (Fin q) => negb (Qeq_bool q 0)
  | VNum _ => true
  | VStr s => Str.nonEmpty s
  end.

(** [a || b] *)
Definition js_or (a b : jsval) : jsval := if truthy a then a else b.

(** [type DataRow = Record<string, unknown>] *)
Definition DataRow : Type := list (string * jsval).

(** [row[f]], [row.f] *)
Fixpoint get (f : string) (row : DataRow) : jsval :=
  match row with
  | [] => VUndefined
  | (k, v) :: row' => if String.eqb k f then v else get f row'
  end.

(** [row[f] = v] on a copy of the row: an existing property keeps its
    place, a new one goes last. *)
Fixpoint assign (f : string) (v : jsval) (row : DataRow) : DataRow :=
  match row with
  | [] => [(f, v)]
  | (k, w) :: row' =>
      if String.eqb k f then (k, v) :: row' else (k, w) :: assign f v row'
  end.

(** [Object.keys(row)] *)
Definition keys (row : DataRow) : list string := map fst row.

(** [Object.values(row)] *)
Definition values (row : DataRow) : list jsval := map snd row.

(** [l.includes(x)] on an array of strings *)
Definition arrayIncludes (x : string) (l : list string) : bool :=
  existsb (String.eqb x) l.

(** [type DatasetType = 'clients' | 'workers' | 'tasks'] *)
Inductive DatasetType : Type := clients | workers | tasks.

(** ** Exceptions *)

Inductive exn : Type :=
  | SyntaxError.

(** A computation that returns a value or throws. *)
Inductive result (A : Type) : Type :=
  | Ok (a : A)
  | Throw (e : exn).
Arguments Ok {A} a.
Arguments Throw {A} e.

#[global] Instance result_ret : MRet result := fun A a => Ok a.

#[global] Instance result_bind : MBind result := fun A B k m =>
  match m with
  | Ok a => k a
  | Throw e => Throw e
  end.

(** [try { body } catch { handler }] *)
Definition try_catch {A : Type} (body : result A) (handler : result A)
  : result A :=
  match body with
  | Ok a => Ok a
  | Throw _ => handler
  end.

(** [data.forEach((row, index) => ...)] for a callback that updates a
    state [S] and may throw. *)
Fixpoint forEach {A S : Type} (f : S -> A -> nat -> result S)
    (index : nat) (l : list A) (s : S) : result S :=
  match l with
  | [] => Ok s
  | a :: l' => s' ← f s a index; forEach f (Datatypes.S index) l' s'
  end.

(** ** JSON *)

(** The values [JSON.parse] returns.  The members of an object are kept
    as parsed; the validators never look inside an object. *)
#[local] Unset Elimination Schemes.
Inductive json : Type :=
  | JNull
  | JBool (b : bool)
  | JNum (n : number)
  | JStr (s : string)
  | JArr (l : list json)
  | JObj (l : list (string * json)).
#[local] Set Elimination Schemes.

Module Json.

Definition is_ws (c : ascii) : bool :=
  match c with
  | " " | "009" | "010" | "013" => true
  | _ => false
  end%char.

Fixpoint skip_ws (s : string) : string :=
  match s with
  | "" => ""
  | String c s' => if is_ws c then skip_ws s' else s
  end.

(** [s] without its prefix [p], when [p] is a prefix of [s]. *)
Fixpoint stripPrefix (p s : string) : option string :=
  match p, s with
  | "", _ => Some s
  | String a p', String b s' =>
      if Ascii.eqb a b then stripPrefix p' s' else None
  | String _ _, "" => None
  end.

(** A JSON number at the head of [s]: an optional minus sign, an integer
    part without a superfluous leading zero, an optional fraction and an
    optional exponent. *)
Definition parse_number (s : string) : option (number * string) :=
  let '(neg, s1) :=
    match s with
    | String "-"%char r => (true, r)
    | _ => (false, s)
    end in
  let '(ip, r1) :=
    match s1 with
    | String "0"%char r => ("0", r)
    | _ => Str.span Str.is_digit s1
    end in
  if Str.nonEmpty ip then
    fr ← match r1 with
         | String "."%char r =>
             let '(fp, r2) := Str.span Str.is_digit r in
             if Str.nonEmpty fp then Some (fp, r2) else None
         | _ => Some ("", r1)
         end;
    let '(fp, r2) := fr in
    ex ← match r2 with
         | String c r =>
             if Ascii.eqb c "e"%char || Ascii.eqb c "E"%char then
               let '(sg, r3) := Num.sign r in
               let '(d, r4) := Str.span Str.is_digit r3 in
               if Str.nonEmpty d
               then Some ((sg * Num.digitsVal 10 0 d)%Z, r4) else None
             else Some (0%Z, r2)
         | "" => Some (0%Z, r2)
         end;
    let '(e, r3) := ex in
    let a := Num.scale10 (Num.digitsVal 10 0 (ip +:+ fp))
                         (e - Z.of_nat (String.length fp)) in
    Some (if neg : bool then Num.negate a else a, r3)
  else None.

(** The character of a two-character escape. *)
Definition escape (c : ascii) : option ascii :=
  match c with
  | "034" => Some "034"
  | "\" => Some "\"
  | "/" => Some "/"
  | "b" => Some "008"
  | "f" => Some "012"
  | "n" => Some "010"
  | "r" => Some "013"
  | "t" => Some "009"
  | _ => None
  end%char.

(** The character of a [\uXXXX] escape; code units beyond 8 bits are
    outside the model of strings and are read as the character 255. *)
Definition unicodeEscape (h : string) : option ascii :=
  if forallb (Num.isDigitIn 16) (list_ascii_of_string h) then
    let n := Num.digitsVal 16 0 h in
    Some (if (n <? 256)%Z then ascii_of_N (Z.to_N n) else "255"%char)
  else None.

(** The rest of a string literal after its opening quote. *)
Fixpoint parse_string (s : string) : option (string * string) :=
  match s with
  | "" => None
  | String c r =>
      if Ascii.eqb c "034"%char then Some ("", r)
      else if Ascii.eqb c "\"%char then
        match r with
        | String e r' =>
            match escape e with
            | Some ch =>
                match parse_string r' with
                | Some (t, rest) => Some (String ch t, rest)
                | None => None
                end
            | None =>
                match r' with
                | String h1 (String h2 (String h3 (String h4 r''))) =>
                    if Ascii.eqb e "u"%char then
                      match unicodeEscape
                              (String h1 (String h2 (String h3 (String h4 ""))))
                      with
                      | Some ch =>
                          match parse_string r'' with
                          | Some (t, rest) => Some (String ch t, rest)
                          | None => None
                          end
                      | None => None
                      end
                    else None
                | _ => None
                end
            end
        | "" => None
        end
      else if (nat_of_ascii c <? 32) then None
      else
        match parse_string r with
        | Some (t, rest) => Some (String c t, rest)
        | None => None
        end
  end.

(** A JSON value at the head of [s], after white space.  [parse_elements]
    and [parse_members] read the elements of an array and the members of
    an object up to the closing bracket. *)
Fixpoint parse_value (fuel : nat) (s : string) : option (json * string) :=
  match fuel with
  | O => None
  | S fuel' =>
      match skip_ws s with
      | String "{"%char r =>
          match skip_ws r with
          | String "}"%char r' => Some (JObj [], r')
          | r' =>
              match parse_members fuel' r' with
              | Some (ms, rest) => Some (JObj ms, rest)
              | None => None
              end
          end
      | String "["%char r =>
          match skip_ws r with
          | String "]"%char r' => Some (JArr [], r')
          | r' =>
              match parse_elements fuel' r' with
              | Some (vs, rest) => Some (JArr vs, rest)
              | None => None
              end
          end
      | String "034"%char r =>
          match parse_string r with
          | Some (t, rest) => Some (JStr t, rest)
          | None => None
          end
      | t =>
          match stripPrefix "null" t, stripPrefix "true" t,
                stripPrefix "false" t with
          | Some rest, _, _ => Some (JNull, rest)
          | _, Some rest, _ => Some (JBool true, rest)
          | _, _, Some rest => Some (JBool false, rest)
          | _, _, _ =>
              match parse_number t with
              | Some (n, rest) => Some (JNum n, rest)
              | None => None
              end
          end
      end
  end
with parse_elements (fuel : nat) (s : string) : option (list json * string) :=
  match fuel with
  | O => None
  | S fuel' =>
      match parse_value fuel' s with
      | Some (v, r) =>
          match skip_ws r with
          | String ","%char r' =>
              match parse_elements fuel' r' with
              | Some (vs, rest) => Some (v :: vs, rest)
              | None => None
              end
          | String "]"%char r' => Some ([v], r')
          | _ => None
          end
      | None => None
      end
  end
with parse_members (fuel : nat) (s : string)
  : option (list (string * json) * string) :=
  match fuel with
  | O => None
  | S fuel' =>
      match skip_ws s with
      | String "034"%char r =>
          match parse_string r with
          | Some (k, r1) =>
              match skip_ws r1 with
              | String ":"%char r2 =>
                  match parse_value fuel' r2 with
                  | Some (v, r3) =>
                      match skip_ws r3 with
                      | String ","%char r4 =>
                          match parse_members fuel' r4 with
                          | Some (ms, rest) => Some ((k, v) :: ms, rest)
                          | None => None
                          end
                      | String "}"%char r4 => Some ([(k, v)], r4)
                      | _ => None
                      end
                  | None => None
                  end
              | _ => None
              end
          | None => None
          end
      | _ => None
      end
  end.

(** [JSON.parse(s)]: the value, or a [SyntaxError]. *)
Definition parse (s : string) : result json :=
  match parse_value (2 * String.length s + 2) s with
  | Some (v, rest) =>
      match skip_ws rest with
      | "" => Ok v
      | _ => Throw SyntaxError
      end
  | None => Throw SyntaxError
  end.

(** [Array.isArray(j)] *)
Definition isArray (j : json) : bool :=
  match j with JArr _ => true | _ => false end.

(** [String(j)]: an array joins its elements with commas, [null]
    elements as empty strings. *)
Fixpoint toString (j : json) : string :=
  match j with
  | JNull => "null"
  | JBool true => "true"
  | JBool false => "false"
  | JNum n => Num.toString n
  | JStr s => s
  | JArr l =>
      Str.join ","
        (map (fun e => match e with JNull => "" | _ => toString e end) l)
  | JObj _ => "[object Object]"
  end.

(** [Number(j)]: arrays and objects convert through their string. *)
Definition toNumber (j : json) : number :=
  match j with
  | JNull => Num.ofZ 0
  | JBool true => Num.ofZ 1
  | JBool false => Num.ofZ 0
  | JNum n => n
  | JStr s => Num.ofString s
  | JArr _ | JObj _ => Num.ofString (toString j)
  end.

(** [a.every(x => Number.isInteger(Number(x)))] on a parsed array; on a
    value that is not an array the callers do not reach this test. *)
Definition everyInteger (j : json) : bool :=
  match j with
  | JArr l => forallb (fun x => Num.isInteger (toNumber x)) l
  | _ => false
  end.

End Json.

(** ** Regular expressions *)

(** The fragment of JavaScript regular expressions the sources use: one
    character of a class or a literal, sequence, the greedy quantifiers,
    numbered capturing groups and the two anchors.  [r+] is [r] followed
    by [r*]. *)
Inductive regex : Type :=
  | REps
  | RChar (p : ascii -> bool)
  | RSeq (r1 r2 : regex)
  | RStar (r : regex)
  | ROpt (r : regex)
  | RGroup (i : nat) (r : regex)
  | RBegin
  | REnd.

Module Re.

(** The offset reached in the input and the groups bound so far, the
    latest binding of a group first. *)
Record mstate : Type := { pos : nat; caps : list (nat * string) }.

Definition advance (st : mstate) : mstate :=
  {| pos := S (pos st); caps := caps st |}.

Definition bindGroup (i : nat) (text : string) (st : mstate) : mstate :=
  {| pos := pos st; caps := (i, text) :: caps st |}.

(** The first [n] characters of [s]. *)
Definition prefix (n : nat) (s : string) : string := substring 0 n s.

(** Backtracking matcher: [run r s st k] matches [r] at the head of [s]
    and hands the rest of the input to the continuation [k]; when [k]
    fails the next alternative of [r] is tried, longest first.  An
    iteration of [r*] that consumes nothing is not taken. *)
Fixpoint run {R : Type} (r : regex)
  : string -> mstate -> (string -> mstate -> option R) -> option R :=
  match r with
  | REps => fun s st k => k s st
  | RChar p => fun s st k =>
      match s with
      | String c s' => if p c then k s' (advance st) else None
      | "" => None
      end
  | RSeq r1 r2 => fun s st k =>
      run r1 s st (fun s' st' => run r2 s' st' k)
  | RStar r' => fun s st k =>
      (fix star (n : nat) (s : string) (st : mstate) {struct n} : option R :=
         match n with
         | O => k s st
         | S n' =>
             match run r' s st (fun s' st' =>
                     if String.length s' <? String.length s
                     then star n' s' st' else None) with
             | Some x => Some x
             | None => k s st
             end
         end) (String.length s) s st
  | ROpt r' => fun s st k =>
      match run r' s st k with
      | Some x => Some x
      | None => k s st
      end
  | RGroup i r' => fun s st k =>
      run r' s st (fun s' st' =>
        k s' (bindGroup i (prefix (String.length s - String.length s') s) st'))
  | RBegin => fun s st k => if pos st =? 0 then k s st else None
  | REnd => fun s st k => match s with "" => k s st | _ => None end
  end.

(** The leftmost match of [r] in the input of which [s] is the part from
    offset [p] on. *)
Fixpoint searchFrom (r : regex) (p : nat) (s : string)
  : option (list (nat * string)) :=
  match run r s {| pos := p; caps := [] |} (fun _ st => Some (caps st)) with
  | Some c => Some c
  | None =>
      match s with
      | "" => None
      | String _ s' => searchFrom r (S p) s'
      end
  end.

(** [s.match(r)] for a regular expression without the [g] flag: the
    groups of the leftmost match, or [None] for [null]. *)
Definition exec (r : regex) (s : string) : option (list (nat * string)) :=
  searchFrom r 0 s.

(** [r.test(s)] *)
Definition test (r : regex) (s : string) : bool :=
  match exec r s with Some _ => true | None => false end.

(** [m[i]] for a group that took part in the match. *)
Fixpoint group (i : nat) (m : list (nat * string)) : string :=
  match m with
  | [] => ""
  | (j, t) :: m' => if i =? j then t else group i m'
  end.

(** A literal character. *)
Definition lit (c : ascii) : regex := RChar (Ascii.eqb c).

(** A literal character under the [i] flag. *)
Definition liti (c : ascii) : regex :=
  RChar (fun x => Ascii.eqb (Str.lower_char x) (Str.lower_char c)).

(** A literal word, character by character. *)
Fixpoint word (mk : ascii -> regex) (w : string) : regex :=
  match w with
  | "" => REps
  | String c w' => RSeq (mk c) (word mk w')
  end.

Definition seq (l : list regex) : regex := foldr RSeq REps l.

Definition plus (r : regex) : regex := RSeq r (RStar r).

(** [\s], [\d], [\w] *)
Definition space : regex := RChar Str.is_space.
Definition digit : regex := RChar Str.is_digit.
Definition wordChar : regex := RChar Str.is_word.

(** [[^,]] *)
Definition notComma : regex := RChar (fun c => negb (Ascii.eqb c ","%char)).

End Re.

(** ** Validation *)

(** The double quote character, for the quoted parts of the messages. *)
Definition dq : string := String "034"%char "".

(** [`Row ${rowNumber}: `] *)
Definition rowPrefix (rowNumber : nat) : string :=
  "Row " +:+ pretty rowNumber +:+ ": ".

(** [`Missing required columns: ${missingColumns.join(', ')}`] *)
Definition msgMissingColumns (missingColumns : list string) : string :=
  "Missing required columns: " +:+ Str.join ", " missingColumns.

(** [`Row ${rowNumber}: Duplicate ${column} "${id}"`] *)
Definition msgDuplicate (column : string) (rowNumber : nat) (id : string)
  : string :=
  rowPrefix rowNumber +:+ "Duplicate " +:+ column +:+ " " +:+ dq +:+ id +:+ dq.

(** [`Row ${rowNumber}: ${what}, got "${got}"`] *)
Definition msgGot (rowNumber : nat) (what got : string) : string :=
  rowPrefix rowNumber +:+ what +:+ ", got " +:+ dq +:+ got +:+ dq.

(** [`Row ${rowNumber}: Invalid JSON in AttributesJSON: "${attributes}"`] *)
Definition msgInvalidJson (rowNumber : nat) (attributes : string) : string :=
  rowPrefix rowNumber +:+ "Invalid JSON in AttributesJSON: " +:+
  dq +:+ attributes +:+ dq.

(** [requiredColumns.filter(col => !Object.keys(data[0]).includes(col))],
    pushed as one message when [data] is not empty and a column is
    missing. *)
Definition checkRequiredColumns (requiredColumns : list string)
    (data : list DataRow) (errors : list string) : list string :=
  match data with
  | row0 :: _ =>
      let missingColumns :=
        List.filter (fun col => negb (arrayIncludes col (keys row0)))
                    requiredColumns in
      if 0 <? length missingColumns
      then errors ++ [msgMissingColumns missingColumns]
      else errors
  | [] => errors
  end.

(** The duplicate check shared by the three validators:
    [if (id && ids.has(id)) errors.push(..) else if (id) ids.add(id)]. *)
Definition checkDuplicate (column : string) (rowNumber : nat) (id : string)
    (errors : list string) (ids : gset string) : list string * gset string :=
  if Str.nonEmpty id && bool_decide (id ∈ ids)
  then (errors ++ [msgDuplicate column rowNumber id], ids)
  else if Str.nonEmpty id then (errors, {[id]} ∪ ids)
  else (errors, ids).

(** [/^T\d+(,T\d+)*$/] *)
Definition reTaskIds : regex :=
  Re.seq [RBegin; Re.lit "T"; Re.plus Re.digit;
          RStar (RGroup 1 (Re.seq [Re.lit ","; Re.lit "T"; Re.plus Re.digit]));
          REnd].

(** [/^\d+-\d+$/] *)
Definition reRange : regex :=
  Re.seq [RBegin; Re.plus Re.digit; Re.lit "-"; Re.plus Re.digit; REnd].

Definition clientColumns : list string :=
  ["ClientID"; "ClientName"; "PriorityLevel"; "RequestedTaskIDs";
   "GroupTag"; "AttributesJSON"].

Definition workerColumns : list string :=
  ["WorkerID"; "WorkerName"; "Skills"; "AvailableSlots"; "MaxLoadPerPhase";
   "WorkerGroup"; "QualificationLevel"].

Definition taskColumns : list string :=
  ["TaskID"; "TaskName"; "Category"; "Duration"; "RequiredSkills";
   "PreferredPhases"; "MaxConcurrent"].

(** The body of the [forEach] of [validateClientData]; the state is the
    [errors] array and the [clientIds] set. *)
Definition validateClientRow (st : list string * gset string)
    (row : DataRow) (index : nat) : result (list string * gset string) :=
  let '(errors, clientIds) := st in
  let rowNumber := index + 1 in
  let clientId := ToString (js_or (get "ClientID" row) (VStr "")) in
  let '(errors, clientIds) :=
    checkDuplicate "ClientID" rowNumber clientId errors clientIds in
  let priority := ToNumber (get "PriorityLevel" row) in
  let errors :=
    if Num.isNaN priority || Num.ltb priority (Num.ofZ 1)
       || Num.gtb priority (Num.ofZ 5)
    then errors ++ [msgGot rowNumber "PriorityLevel must be 1-5"
                           (ToString (get "PriorityLevel" row))]
    else errors in
  let taskIds := ToString (js_or (get "RequestedTaskIDs" row) (VStr "")) in
  let errors :=
    if Str.nonEmpty taskIds && negb (Re.test reTaskIds taskIds)
    then errors ++ [msgGot rowNumber
           "RequestedTaskIDs should be comma-separated T-prefixed IDs" taskIds]
    else errors in
  let attributes := ToString (js_or (get "AttributesJSON" row) (VStr "")) in
  errors ←
    (if Str.nonEmpty attributes && negb (String.eqb attributes "INVALID_JSON")
     then try_catch (_ ← Json.parse attributes; mret errors)
                    (mret (errors ++ [msgInvalidJson rowNumber attributes]))
     else mret errors);
  mret (errors, clientIds).

Definition validateClientData (data : list DataRow) : result (list string) :=
  let errors := checkRequiredColumns clientColumns data [] in
  st ← forEach validateClientRow 0 data (errors, ∅);
  mret st.1.

(** The body of the [forEach] of [validateWorkerData]. *)
Definition validateWorkerRow (st : list string * gset string)
    (row : DataRow) (index : nat) : result (list string * gset string) :=
  let '(errors, workerIds) := st in
  let rowNumber := index + 1 in
  let workerId := ToString (js_or (get "WorkerID" row) (VStr "")) in
  let '(errors, workerIds) :=
    checkDuplicate "WorkerID" rowNumber workerId errors workerIds in
  let slots := ToString (js_or (get "AvailableSlots" row) (VStr "")) in
  errors ←
    (if Str.nonEmpty slots && negb (String.eqb slots "not_a_list")
     then try_catch
            (parsedSlots ← Json.parse slots;
             mret (if negb (Json.isArray parsedSlots)
                      || negb (Json.everyInteger parsedSlots)
                   then errors ++ [msgGot rowNumber
                          "AvailableSlots should be array of numbers" slots]
                   else errors))
            (mret (errors ++ [msgGot rowNumber
                     "AvailableSlots should be valid JSON array" slots]))
     else mret errors);
  let maxLoad := ToNumber (get "MaxLoadPerPhase" row) in
  let errors :=
    if Num.isNaN maxLoad || Num.ltb maxLoad (Num.ofZ 0)
    then errors ++ [msgGot rowNumber "MaxLoadPerPhase must be >= 0"
                           (ToString (get "MaxLoadPerPhase" row))]
    else errors in
  let qualificationLevel := ToNumber (get "QualificationLevel" row) in
  let errors :=
    if Num.isNaN qualificationLevel || Num.ltb qualificationLevel (Num.ofZ 1)
       || Num.gtb qualificationLevel (Num.ofZ 5)
    then errors ++ [msgGot rowNumber "QualificationLevel must be 1-5"
                           (ToString (get "QualificationLevel" row))]
    else errors in
  mret (errors, workerIds).

Definition validateWorkerData (data : list DataRow) : result (list string) :=
  let errors := checkRequiredColumns workerColumns data [] in
  st ← forEach validateWorkerRow 0 data (errors, ∅);
  mret st.1.

(** The body of the [forEach] of [validateTaskData]. *)
Definition validateTaskRow (st : list string * gset string)
    (row : DataRow) (index : nat) : result (list string * gset string) :=
  let '(errors, taskIds) := st in
  let rowNumber := index + 1 in
  let taskId := ToString (js_or (get "TaskID" row) (VStr "")) in
  let '(errors, taskIds) :=
    checkDuplicate "TaskID" rowNumber taskId errors taskIds in
  let duration := ToNumber (get "Duration" row) in
  let errors :=
    if Num.isNaN duration || Num.leb duration (Num.ofZ 0)
    then errors ++ [msgGot rowNumber "Duration must be > 0"
                           (ToString (get "Duration" row))]
    else errors in
  let phases := ToString (js_or (get "PreferredPhases" row) (VStr "")) in
  errors ←
    (if Str.nonEmpty phases && negb (String.eqb phases "7")
     then try_catch
            (parsedPhases ← Json.parse phases;
             mret (if negb (Json.isArray parsedPhases)
                      || negb (Json.everyInteger parsedPhases)
                   then errors ++ [msgGot rowNumber
                          "PreferredPhases should be array of numbers" phases]
                   else errors))
            (mret (if negb (Re.test reRange phases)
                   then errors ++ [msgGot rowNumber
                          "PreferredPhases should be JSON array or range format"
                          phases]
                   else errors))
     else mret errors);
  let maxConcurrent := ToNumber (get "MaxConcurrent" row) in
  let errors :=
    if Num.isNaN maxConcurrent || Num.leb maxConcurrent (Num.ofZ 0)
    then errors ++ [msgGot rowNumber "MaxConcurrent must be > 0"
                           (ToString (get "MaxConcurrent" row))]
    else errors in
  mret (errors, taskIds).

Definition validateTaskData (data : list DataRow) : result (list string) :=
  let errors := checkRequiredColumns taskColumns data [] in
  st ← forEach validateTaskRow 0 data (errors, ∅);
  mret st.1.

(** [validationFunctions[datasetType]?.(data) || []]: every dataset type
    has its validator, and an array, even an empty one, is truthy. *)
Definition validateDataset (datasetType : DatasetType) (data : list DataRow)
  : result (list string) :=
  match datasetType with
  | clients => validateClientData data
  | workers => validateWorkerData data
  | tasks => validateTaskData data
  end.

(** ** Natural language search *)

(** [/priority\s*>\s*(\d+)/] and its five siblings: a key word, an
    operator between optional spaces, and the captured operand. *)
Definition rePattern (keyword : string) (op : ascii) (operand : regex)
  : regex :=
  Re.seq [Re.word Re.lit keyword; RStar Re.space; Re.lit op; RStar Re.space;
          RGroup 1 (Re.plus operand)].

(** [row.a || row.b || ""] as a string *)
Definition eitherField (a b : string) (row : DataRow) : string :=
  ToString (js_or (js_or (get a row) (get b row)) (VStr "")).

(** The [searchPatterns] table: each pattern with its filter. *)
Definition searchPatterns : list (regex * (string -> DataRow -> bool)) :=
  [ (rePattern "priority" ">" Re.digit,
     fun value row =>
       Num.gtb (ToNumber (get "PriorityLevel" row)) (Num.parseInt value));
    (rePattern "priority" "<" Re.digit,
     fun value row =>
       Num.ltb (ToNumber (get "PriorityLevel" row)) (Num.parseInt value));
    (rePattern "duration" ">" Re.digit,
     fun value row =>
       Num.gtb (ToNumber (get "Duration" row)) (Num.parseInt value));
    (rePattern "duration" "<" Re.digit,
     fun value row =>
       Num.ltb (ToNumber (get "Duration" row)) (Num.parseInt value));
    (rePattern "group" "=" Re.wordChar,
     fun group row =>
       Str.includes (Str.toLowerCase group)
         (Str.toLowerCase (eitherField "GroupTag" "WorkerGroup" row)));
    (rePattern "skills" "=" Re.notComma,
     fun skill row =>
       Str.includes (Str.toLowerCase (Str.trim skill))
         (Str.toLowerCase (eitherField "Skills" "RequiredSkills" row))) ].

(** The loop over [searchPatterns]: the filter of the first pattern that
    matches is pushed and the loop is left. *)
Fixpoint applyPatterns (patterns : list (regex * (string -> DataRow -> bool)))
    (lowerQuery : string) (filters : list (DataRow -> bool))
  : list (DataRow -> bool) :=
  match patterns with
  | [] => filters
  | (pattern, filter) :: rest =>
      match Re.exec pattern lowerQuery with
      | Some m => filters ++ [filter (Re.group 1 m)]
      | None => applyPatterns rest lowerQuery filters
      end
  end.

(** The fallback filter: some value of the row contains the query. *)
Definition textSearch (lowerQuery : string) (row : DataRow) : bool :=
  existsb (fun value =>
             Str.includes lowerQuery (Str.toLowerCase (ToString value)))
          (values row).

Definition parseNaturalLanguageQuery (query : string) (data : list DataRow)
  : list DataRow :=
  if negb (Str.nonEmpty (Str.trim query)) || (length data =? 0) then data
  else
    let lowerQuery := Str.toLowerCase query in
    let filters := applyPatterns searchPatterns lowerQuery [] in
    let filters :=
      if length filters =? 0 then filters ++ [textSearch lowerQuery]
      else filters in
    List.filter (fun row => forallb (fun filter => filter row) filters) data.

(** ** Natural language commands *)

Inductive Action : Type := ActUpdate | ActSet | ActChange.

Inductive Operator : Type := equals | contains | greater | less.

Record Condition : Type := {
  cond_field : string;
  cond_operator : Operator;
  cond_value : jsval
}.

(** [interface ModificationCommand] *)
Record ModificationCommand : Type := {
  cmd_action : Action;
  cmd_field : string;
  cmd_value : jsval;
  cmd_condition : option Condition;
  cmd_dataset : DatasetType
}.

(** One or more spaces, [\s+] *)
Definition spaces : regex := Re.plus Re.space.

(** [/change\s+all\s+prioritylevels?\s+to\s+(\d+)/i] *)
Definition rePriorityCommand : regex :=
  Re.seq [Re.word Re.liti "change"; spaces; Re.word Re.liti "all"; spaces;
          Re.word Re.liti "prioritylevel"; ROpt (Re.liti "s"); spaces;
          Re.word Re.liti "to"; spaces; RGroup 1 (Re.plus Re.digit)].

(** [/set\s+maxloadperphase\s+to\s+(\d+)\s+for\s+(\w+)\s+workers?/i] *)
Definition reLoadCommand : regex :=
  Re.seq [Re.word Re.liti "set"; spaces; Re.word Re.liti "maxloadperphase";
          spaces; Re.word Re.liti "to"; spaces; RGroup 1 (Re.plus Re.digit);
          spaces; Re.word Re.liti "for"; spaces;
          RGroup 2 (Re.plus Re.wordChar); spaces;
          Re.word Re.liti "worker"; ROpt (Re.liti "s")].

(** [/update\s+all\s+(\w+)\s+clients?\s+priority\s+to\s+(\d+)/i] *)
Definition reGroupCommand : regex :=
  Re.seq [Re.word Re.liti "update"; spaces; Re.word Re.liti "all"; spaces;
          RGroup 1 (Re.plus Re.wordChar); spaces;
          Re.word Re.liti "client"; ROpt (Re.liti "s"); spaces;
          Re.word Re.liti "priority"; spaces; Re.word Re.liti "to"; spaces;
          RGroup 2 (Re.plus Re.digit)].

(** [AIService.parseModificationCommand]; the [datasets] argument is not
    used by the source and is left out.  [None] is [null]. *)
Definition parseModificationCommand (command : string)
  : option ModificationCommand :=
  let lowerCommand := Str.toLowerCase command in
  match Re.exec rePriorityCommand lowerCommand with
  | Some priorityMatch =>
      Some {| cmd_action := ActChange;
              cmd_field := "PriorityLevel";
              cmd_value := VNum (Num.parseInt (Re.group 1 priorityMatch));
              cmd_condition := None;
              cmd_dataset := clients |}
  | None =>
      match Re.exec reLoadCommand lowerCommand with
      | Some loadMatch =>
          Some {| cmd_action := ActSet;
                  cmd_field := "MaxLoadPerPhase";
                  cmd_value := VNum (Num.parseInt (Re.group 1 loadMatch));
                  cmd_condition :=
                    Some {| cond_field := "WorkerGroup";
                            cond_operator := equals;
                            cond_value := VStr (Re.group 2 loadMatch) |};
                  cmd_dataset := workers |}
      | None =>
          match Re.exec reGroupCommand lowerCommand with
          | Some groupMatch =>
              Some {| cmd_action := ActUpdate;
                      cmd_field := "PriorityLevel";
                      cmd_value := VNum (Num.parseInt (Re.group 2 groupMatch));
                      cmd_condition :=
                        Some {| cond_field := "GroupTag";
                                cond_operator := equals;
                                cond_value := VStr (Re.group 1 groupMatch) |};
                      cmd_dataset := clients |}
          | None => None
          end
      end
  end.

(** ** Mutation preview *)

(** The [switch (operator)] of the preview. *)
Definition conditionHolds (c : Condition) (row : DataRow) : bool :=
  let rowValue := get (cond_field c) row in
  let value := cond_value c in
  match cond_operator c with
  | equals => String.eqb (ToString rowValue) (ToString value)
  | contains =>
      Str.includes (Str.toLowerCase (ToString value))
                   (Str.toLowerCase (ToString rowValue))
  | greater => Num.gtb (ToNumber rowValue) (ToNumber value)
  | less => Num.ltb (ToNumber rowValue) (ToNumber value)
  end.

(** The callback of [currentData.map]: the copy of the row, updated when
    there is no condition or the condition holds. *)
Definition previewRow (parsedCommand : ModificationCommand) (row : DataRow)
  : DataRow :=
  let newRow := row in
  let shouldUpdate :=
    match cmd_condition parsedCommand with
    | Some c => conditionHolds c row
    | None => true
    end in
  if shouldUpdate
  then assign (cmd_field parsedCommand) (cmd_value parsedCommand) newRow
  else newRow.

Definition previewData (parsedCommand : ModificationCommand)
    (currentData : list DataRow) : list DataRow :=
  map (previewRow parsedCommand) currentData.

(** What [handleCommandSubmit] leaves in the component state: nothing for
    a blank command, the error message, or the preview.  The count of
    affected rows, which compares serialisations, is not modelled. *)
Inductive SubmitOutcome : Type :=
  | Ignored
  | NotUnderstood
  | Preview (command : ModificationCommand) (preview : list DataRow).

Definition handleCommandSubmit (command : string)
    (datasets : DatasetType -> list DataRow) : SubmitOutcome :=
  if negb (Str.nonEmpty (Str.trim command)) then Ignored
  else
    match parseModificationCommand command with
    | None => NotUnderstood
    | Some parsedCommand =>
        let currentData := datasets (cmd_dataset parsedCommand) in
        Preview parsedCommand (previewData parsedCommand currentData)
    end.

(** ** Rule recommendations: task co-occurrence *)

(** [interface RuleRecommendation]; of [suggestedParameters] the [taskIds]
    array is kept, [None] standing for [undefined]. *)
Record RuleRecommendation : Type := {
  rec_id : string;
  rec_type : string;
  rec_description : string;
  rec_confidence : number;
  rec_reasoning : string;
  rec_taskIds : list (option string)
}.

(** [Map<string, number>]: the entries in insertion order. *)
Fixpoint mapGet (key : string) (m : list (string * nat)) : option nat :=
  match m with
  | [] => None
  | (k, v) :: m' => if String.eqb k key then Some v else mapGet key m'
  end.

(** [m.set(key, v)]: a present key keeps its place, a new one goes last. *)
Fixpoint mapSet (key : string) (v : nat) (m : list (string * nat))
  : list (string * nat) :=
  match m with
  | [] => [(key, v)]
  | (k, w) :: m' =>
      if String.eqb k key then (k, v) :: m' else (k, w) :: mapSet key v m'
  end.

(** [String(client.RequestedTaskIDs || '').split(',').filter(Boolean)] *)
Definition requestedTaskIds (client : DataRow) : list string :=
  List.filter Str.nonEmpty
    (Str.split "," (ToString (js_or (get "RequestedTaskIDs" client) (VStr "")))).

(** The keys [`${taskIds[i]}-${taskIds[j]}`] for [i < j], in the order the
    two nested loops produce them. *)
Fixpoint pairKeys (taskIds : list string) : list string :=
  match taskIds with
  | [] => []
  | a :: rest => map (fun b => a +:+ "-" +:+ b) rest ++ pairKeys rest
  end.

(** [m.set(pair, (m.get(pair) || 0) + 1)] *)
Definition countPair (m : list (string * nat)) (pair : string)
  : list (string * nat) :=
  mapSet pair (default 0 (mapGet pair m) + 1) m.

(** The [taskCooccurrence] map after the loop over the clients. *)
Definition taskCooccurrence (clients : list DataRow) : list (string * nat) :=
  foldl (fun m client => foldl countPair m (pairKeys (requestedTaskIds client)))
        [] clients.

(** [entries.sort((a, b) => b[1] - a[1])]: the sort is stable, so the
    result is the one of this insertion sort. *)
Fixpoint insertByCount (x : string * nat) (l : list (string * nat))
  : list (string * nat) :=
  match l with
  | [] => [x]
  | y :: l' => if x.2 <? y.2 then y :: insertByCount x l' else x :: l
  end.

Definition sortByCount (l : list (string * nat)) : list (string * nat) :=
  foldr insertByCount [] l.

(** [Array.from(taskCooccurrence.entries()).sort(..).slice(0, 3)] *)
Definition sortedPairs (clients : list DataRow) : list (string * nat) :=
  take 3 (sortByCount (taskCooccurrence clients)).

(** [`${x}`] for a possibly undefined string *)
Definition tpl (x : option string) : string := default "undefined" x.

(** The recommendation pushed for a pair. *)
Definition coRunRecommendation (pair : string) (count : nat)
  : RuleRecommendation :=
  let parts := Str.split "-" pair in
  let task1 := parts !! 0 in
  let task2 := parts !! 1 in
  {| rec_id := "coRun-" +:+ tpl task1 +:+ "-" +:+ tpl task2;
     rec_type := "coRun";
     rec_description :=
       "Tasks " +:+ tpl task1 +:+ " and " +:+ tpl task2 +:+
       " often co-occur (" +:+ pretty count +:+ " times)";
     rec_confidence :=
       Num.min (Num.div (Num.ofNat count) (Num.ofZ 5)) (Fin (9 # 10));
     rec_reasoning :=
       "Found " +:+ pretty count +:+ " clients requesting both tasks together";
     rec_taskIds := [task1; task2] |}.

(** The first analysis of [AIService.generateRuleRecommendations]: the
    recommendations pushed from the clients' task pairs.  The second
    analysis appends recommendations of type [loadLimit] computed from
    the workers; it is independent of this one and is not modelled. *)
Definition coRunRecommendations (clients : list DataRow)
  : list RuleRecommendation :=
  flat_map (fun entry =>
              if 2 <=? entry.2
              then [coRunRecommendation entry.1 entry.2] else [])
           (sortedPairs clients).

(** ** What the validators report, check by check *)

(** These definitions restate the three loops as lists of messages, one
    piece per check; [validateDataset_scan] proves that the validators
    compute exactly these lists. *)

(** The column holding the identity key of a dataset. *)
Definition keyColumn (datasetType : DatasetType) : string :=
  match datasetType with
  | clients => "ClientID"
  | workers => "WorkerID"
  | tasks => "TaskID"
  end.

(** The identity key of a row as the validators read it:
    [String(row.ClientID || '')]. *)
Definition keyOf (datasetType : DatasetType) (row : DataRow) : string :=
  ToString (js_or (get (keyColumn datasetType) row) (VStr "")).

(** The set of identity keys after a row with key [id]. *)
Definition seenAfter (id : string) (ids : gset string) : gset string :=
  if Str.nonEmpty id then {[id]} ∪ ids else ids.

Definition duplicateIssue (column : string) (rowNumber : nat) (id : string)
    (ids : gset string) : list string :=
  if Str.nonEmpty id && bool_decide (id ∈ ids)
  then [msgDuplicate column rowNumber id] else [].

(** A check of a numeric cell: [bad] is the test on [Number(cell)]. *)
Definition numericIssue (bad : number -> bool) (what column : string)
    (rowNumber : nat) (row : DataRow) : list string :=
  if bad (ToNumber (get column row))
  then [msgGot rowNumber what (ToString (get column row))] else [].

Definition outside1to5 (n : number) : bool :=
  Num.isNaN n || Num.ltb n (Num.ofZ 1) || Num.gtb n (Num.ofZ 5).

Definition negative (n : number) : bool :=
  Num.isNaN n || Num.ltb n (Num.ofZ 0).

Definition notPositive (n : number) : bool :=
  Num.isNaN n || Num.leb n (Num.ofZ 0).

(** The text of a cell read as [String(row.column || '')]. *)
Definition textOf (column : string) (row : DataRow) : string :=
  ToString (js_or (get column row) (VStr "")).

Definition taskIdsIssue (rowNumber : nat) (row : DataRow) : list string :=
  let taskIds := textOf "RequestedTaskIDs" row in
  if Str.nonEmpty taskIds && negb (Re.test reTaskIds taskIds)
  then [msgGot rowNumber
          "RequestedTaskIDs should be comma-separated T-prefixed IDs" taskIds]
  else [].

(** A cell is parsed when it is neither empty nor the value the
    validator lets through unparsed. *)
Definition parsed (sentinel text : string) : bool :=
  Str.nonEmpty text && negb (String.eqb text sentinel).

Definition attributesIssue (rowNumber : nat) (row : DataRow) : list string :=
  let attributes := textOf "AttributesJSON" row in
  if parsed "INVALID_JSON" attributes then
    match Json.parse attributes with
    | Ok _ => []
    | Throw _ => [msgInvalidJson rowNumber attributes]
    end
  else [].

Definition notIntegerArray (j : json) : bool :=
  negb (Json.isArray j) || negb (Json.everyInteger j).

Definition slotsIssue (rowNumber : nat) (row : DataRow) : list string :=
  let slots := textOf "AvailableSlots" row in
  if parsed "not_a_list" slots then
    match Json.parse slots with
    | Ok j =>
        if notIntegerArray j
        then [msgGot rowNumber "AvailableSlots should be array of numbers" slots]
        else []
    | Throw _ =>
        [msgGot rowNumber "AvailableSlots should be valid JSON array" slots]
    end
  else [].

Definition phasesIssue (rowNumber : nat) (row : DataRow) : list string :=
  let phases := textOf "PreferredPhases" row in
  if parsed "7" phases then
    match Json.parse phases with
    | Ok j =>
        if notIntegerArray j
        then [msgGot rowNumber "PreferredPhases should be array of numbers"
                phases]
        else []
    | Throw _ =>
        if negb (Re.test reRange phases)
        then [msgGot rowNumber
                "PreferredPhases should be JSON array or range format" phases]
        else []
    end
  else [].

(** The messages of the checks of one row that do not depend on the rows
    before it, in the order they are pushed. *)
Definition cellIssues (datasetType : DatasetType) (rowNumber : nat)
    (row : DataRow) : list string :=
  match datasetType with
  | clients =>
      numericIssue outside1to5 "PriorityLevel must be 1-5" "PriorityLevel"
                   rowNumber row ++
      taskIdsIssue rowNumber row ++
      attributesIssue rowNumber row
  | workers =>
      slotsIssue rowNumber row ++
      numericIssue negative "MaxLoadPerPhase must be >= 0" "MaxLoadPerPhase"
                   rowNumber row ++
      numericIssue outside1to5 "QualificationLevel must be 1-5"
                   "QualificationLevel" rowNumber row
  | tasks =>
      numericIssue notPositive "Duration must be > 0" "Duration"
                   rowNumber row ++
      phasesIssue rowNumber row ++
      numericIssue notPositive "MaxConcurrent must be > 0" "MaxConcurrent"
                   rowNumber row
  end.

(** The messages of one row: the duplicate check, then the cell checks. *)
Definition rowIssues (datasetType : DatasetType) (ids : gset string)
    (index : nat) (row : DataRow) : list string :=
  duplicateIssue (keyColumn datasetType) (index + 1)
                 (keyOf datasetType row) ids ++
  cellIssues datasetType (index + 1) row.

(** The messages of the rows from [index] on, [ids] being the keys seen
    before. *)
Fixpoint scan (datasetType : DatasetType) (ids : gset string) (index : nat)
    (data : list DataRow) : list string :=
  match data with
  | [] => []
  | row :: rest =>
      rowIssues datasetType ids index row ++
      scan datasetType (seenAfter (keyOf datasetType row) ids) (S index) rest
  end.

Definition requiredColumns (datasetType : DatasetType) : list string :=
  match datasetType with
  | clients => clientColumns
  | workers => workerColumns
  | tasks => taskColumns
  end.

(** The non-empty identity keys of a list of rows. *)
Definition keysOf (datasetType : DatasetType) (data : list DataRow)
  : gset string :=
  foldl (fun ids row => seenAfter (keyOf datasetType row) ids) ∅ data.

(** ** Recognising messages *)

(** [msg] is a message of row [rowNumber] that starts with [what]. *)
Definition isRowIssue (rowNumber : nat) (what : string) (msg : string)
  : bool :=
  Str.startsWith (rowPrefix rowNumber +:+ what) msg.

(** [msg] reports a duplicate identity key in row [rowNumber]. *)
Definition isDuplicateIssue (datasetType : DatasetType) (rowNumber : nat)
    (msg : string) : bool :=
  isRowIssue rowNumber ("Duplicate " +:+ keyColumn datasetType +:+ " ") msg.

(** [msg] reports a [PriorityLevel] out of range in row [rowNumber]. *)
Definition isPriorityIssue (rowNumber : nat) (msg : string) : bool :=
  isRowIssue rowNumber "PriorityLevel must be 1-5" msg.

(** [msg] reports a [QualificationLevel] out of range in some row. *)
Definition isQualificationIssue (msg : string) : bool :=
  Str.includes ": QualificationLevel must be 1-5" msg.

(** All characters of [s] satisfy [p]. *)
Fixpoint allChars (p : ascii -> bool) (s : string) : bool :=
  match s with
  | "" => true
  | String c s' => p c && allChars p s'
  end.

(** The heads of the messages of the cell checks. *)
Definition cellHeads : list string :=
  ["PriorityLevel must be 1-5"; "RequestedTaskIDs should be ";
   "Invalid JSON in AttributesJSON: "; "AvailableSlots should be ";
   "MaxLoadPerPhase must be >= 0"; "QualificationLevel must be 1-5";
   "Duration must be > 0"; "PreferredPhases should be ";
   "MaxConcurrent must be > 0"].

(** ** Cells the validators convert *)

(** The numeric columns of a dataset, each with the head of the message
    of its check. *)
Definition numericChecks (datasetType : DatasetType)
  : list (string * string) :=
  match datasetType with
  | clients => [("PriorityLevel", "PriorityLevel must be 1-5")]
  | workers => [("MaxLoadPerPhase", "MaxLoadPerPhase must be >= 0");
                ("QualificationLevel", "QualificationLevel must be 1-5")]
  | tasks => [("Duration", "Duration must be > 0");
              ("MaxConcurrent", "MaxConcurrent must be > 0")]
  end.

(** The column of a dataset that holds JSON. *)
Definition jsonColumn (datasetType : DatasetType) : string :=
  match datasetType with
  | clients => "AttributesJSON"
  | workers => "AvailableSlots"
  | tasks => "PreferredPhases"
  end.

(** The value of that column which the validator lets through unparsed. *)
Definition sentinel (datasetType : DatasetType) : string :=
  match datasetType with
  | clients => "INVALID_JSON"
  | workers => "not_a_list"
  | tasks => "7"
  end.

(** The message for a cell of that column that does not parse. *)
Definition msgUnparseable (datasetType : DatasetType) (rowNumber : nat)
    (text : string) : string :=
  match datasetType with
  | clients => msgInvalidJson rowNumber text
  | workers =>
      msgGot rowNumber "AvailableSlots should be valid JSON array" text
  | tasks =>
      msgGot rowNumber "PreferredPhases should be JSON array or range format"
             text
  end.

(** A row with the [QualificationLevel] column added, holding a level in
    range. *)
Definition withLevel (row : DataRow) : DataRow :=
  assign "QualificationLevel" (VNum (Num.ofZ 3)) row.

(** ** Case and regular expressions *)

(** A regular expression whose character tests do not tell a letter from
    its lower-case form: what the [i] flag gives. *)
Fixpoint caseBlind (r : regex) : Prop :=
  match r with
  | RChar p => forall c, p (Str.lower_char c) = p c
  | RSeq r1 r2 => caseBlind r1 /\ caseBlind r2
  | RStar r' | ROpt r' | RGroup _ r' => caseBlind r'
  | REps | RBegin | REnd => True
  end.

(** The groups of a match, in lower case. *)
Definition lowerGroups (m : list (nat * string)) : list (nat * string) :=
  map (fun g => (g.1, Str.toLowerCase g.2)) m.

Definition lowerState (st : Re.mstate) : Re.mstate :=
  {| Re.pos := Re.pos st; Re.caps := lowerGroups (Re.caps st) |}.

(** ** Co-occurrence of unordered pairs *)

(** The pairs of positions [i < j] of a list of task identifiers, as
    pairs of identifiers. *)
Fixpoint positionPairs (taskIds : list string) : list (string * string) :=
  match taskIds with
  | [] => []
  | a :: rest => map (fun b => (a, b)) rest ++ positionPairs rest
  end.

(** [p] is the unordered pair of [a] and [b]. *)
Definition samePair (a b : string) (p : string * string) : bool :=
  (String.eqb p.1 a && String.eqb p.2 b)
  || (String.eqb p.1 b && String.eqb p.2 a).

(** How many times the clients request [a] and [b] together, whichever
    comes first in a request. *)
Definition togetherCount (a b : string) (clients : list DataRow) : nat :=
  length (List.filter (samePair a b)
            (flat_map (fun client => positionPairs (requestedTaskIds client))
                      clients)).

(** How many times a key is produced by the pairs of the clients. *)
Definition keyCount (key : string) (clients : list DataRow) : nat :=
  length (List.filter (String.eqb key)
            (flat_map (fun client => pairKeys (requestedTaskIds client))
                      clients)).

(** ** Sample data *)

(** A workers row of a file without the [QualificationLevel] column. *)
Definition workerRow (id name skills slots load group : string) : DataRow :=
  [("WorkerID", VStr id); ("WorkerName", VStr name); ("Skills", VStr skills);
   ("AvailableSlots", VStr slots); ("MaxLoadPerPhase", VStr load);
   ("WorkerGroup", VStr group)].

Definition workersWithoutLevel : list DataRow :=
  [workerRow "W1" "Ada" "python" "[1,2,3]" "2" "GroupA";
   workerRow "W2" "Bob" "sql" "[2,4]" "3" "GroupB"].

Definition sampleWorkers : list DataRow :=
  [workerRow "W1" "Ada" "python" "[1,2,3]" "4" "groupb";
   workerRow "W2" "Bob" "sql" "[2,4]" "3" "GroupB";
   workerRow "W3" "Cyd" "go" "[1]" "5" "GroupA"].

(** Clients with a priority and a group, for the search examples. *)
Definition clientRow (id priority group : string) : DataRow :=
  [("ClientID", VStr id); ("PriorityLevel", VStr priority);
   ("GroupTag", VStr group)].

Definition sampleClients : list DataRow :=
  [clientRow "C1" "3" "GroupB"; clientRow "C2" "1" "GroupA";
   clientRow "C3" "5" "GroupA"].

(** A complete clients row. *)
Definition fullClient (id priority taskIds group attributes : string)
  : DataRow :=
  [("ClientID", VStr id); ("ClientName", VStr "Acme");
   ("PriorityLevel", VStr priority); ("RequestedTaskIDs", VStr taskIds);
   ("GroupTag", VStr group); ("AttributesJSON", VStr attributes)].

(** Three clients, the third with the key of the first. *)
Definition repeatedClients : list DataRow :=
  [fullClient "C1" "3" "T1" "GroupA" "{}";
   fullClient "C2" "1" "T2" "GroupB" "{}";
   fullClient "C1" "5" "T3" "GroupA" "{}"].

(** Two clients of a file with blank [ClientID] cells. *)
Definition blankKeyClients : list DataRow :=
  [fullClient "" "3" "T1" "GroupA" "{}";
   fullClient "" "1" "T2" "GroupB" "{}"].

(** Clients with priorities 0, 6 and 3. *)
Definition priorityClients : list DataRow :=
  [fullClient "C1" "0" "T1" "GroupA" "{}";
   fullClient "C2" "6" "T2" "GroupB" "{}";
   fullClient "C3" "3" "T3" "GroupA" "{}"].

(** A client whose attributes are the text the validator lets through. *)
Definition clientWithSentinel : DataRow :=
  fullClient "C1" "3" "T1,T2" "GroupA" "INVALID_JSON".

(** Clients with malformed cells: a priority that is not a number and
    attributes that do not parse. *)
Definition malformedClients : list DataRow :=
  [fullClient "C1" "high" "T1,T2" "GroupA" "{budget:1}";
   fullClient "C2" "2" "T3" "GroupB" "{oops"].

(** A client that requests the given tasks. *)
Definition requesting (taskIds : string) : DataRow :=
  [("ClientID", VStr "C"); ("RequestedTaskIDs", VStr taskIds)].

(** The clients of the co-occurrence scenario: [T1,T2] twice, [T1,T3]
    once. *)
Definition scenarioClients : list DataRow :=
  [requesting "T1,T2"; requesting "T1,T2"; requesting "T1,T3"].

(** Two clients that request the same two tasks, in different orders. *)
Definition swappedClients : list DataRow :=
  [requesting "T1,T2"; requesting "T2,T1"].

(** Three clients that request the same two tasks, one of them in the
    other order. *)
Definition mixedClients : list DataRow :=
  [requesting "T1,T2"; requesting "T1,T2"; requesting "T2,T1"].

(** The command of the placeholder of the input field. *)
Definition sampleCommand : string :=
  "Set MaxLoadPerPhase to 2 for GroupB workers".

(** A command that matches the first two templates. *)
Definition doubleCommand : string :=
  "change all prioritylevels to 5 and set maxloadperphase to 2 for groupb workers".

(** What the command parser returns for
    [set maxloadperphase to 2 for groupb workers]. *)
Definition sampleLoadCommand : ModificationCommand :=
  {| cmd_action := ActSet;
     cmd_field := "MaxLoadPerPhase";
     cmd_value := VNum (Num.ofZ 2);
     cmd_condition :=
       Some {| cond_field := "WorkerGroup";
               cond_operator := equals;
               cond_value := VStr "groupb" |};
     cmd_dataset := workers |}.

(* ================================================================== *)
(** * Further definitions, for the properties beyond the claims *)

(** ** The numeric checks of the validators *)

(** The numeric columns of a dataset: the column, the head of the message
    of its check, and the test on [Number(cell)] that makes the check
    fail. *)
Definition numericRules (datasetType : DatasetType)
  : list (string * string * (number -> bool)) :=
  match datasetType with
  | clients => [("PriorityLevel", "PriorityLevel must be 1-5", outside1to5)]
  | workers => [("MaxLoadPerPhase", "MaxLoadPerPhase must be >= 0", negative);
                ("QualificationLevel", "QualificationLevel must be 1-5",
                 outside1to5)]
  | tasks => [("Duration", "Duration must be > 0", notPositive);
              ("MaxConcurrent", "MaxConcurrent must be > 0", notPositive)]
  end.

(** A clients row with the given priority cell. *)
Definition clientWithPriority (priority : jsval) : DataRow :=
  [("ClientID", VStr "C1"); ("ClientName", VStr "Acme");
   ("PriorityLevel", priority); ("RequestedTaskIDs", VStr "T1");
   ("GroupTag", VStr "GroupA"); ("AttributesJSON", VStr "{}")].

Definition priorityCells : list DataRow :=
  [clientWithPriority (VStr ""); clientWithPriority (VStr "2.5");
   clientWithPriority VUndefined].

(** ** Texts without a given character *)

(** [c] does not occur in [s]. *)
Definition noChar (c : ascii) (s : string) : bool :=
  allChars (fun x => negb (Ascii.eqb x c)) s.

(** ** Validation insights: skill gaps *)

(** [interface ValidationInsight]; [field] and [rowIndex] are never set
    by the source and are left out. *)
Inductive InsightType : Type := InsWarning | InsError | InsInfo.

Record ValidationInsight : Type := {
  ins_type : InsightType;
  ins_message : string;
  ins_suggestedFix : option string
}.

(** The callback of the inner [forEach]:
    [if (skill.trim()) set.add(skill.trim().toLowerCase())]. *)
Definition addSkill {S : Type} (add : string -> S -> S) (set : S)
    (skill : string) : S :=
  if Str.nonEmpty (Str.trim skill)
  then add (Str.toLowerCase (Str.trim skill)) set
  else set.

(** The two nested [forEach] loops over the rows and over the pieces of
    [String(row[column] || '').split(',')]. *)
Definition collectSkills {S : Type} (add : string -> S -> S)
    (column : string) (rows : list DataRow) (init : S) : S :=
  foldl (fun set row =>
           foldl (addSkill add) set
                 (Str.split "," (ToString (js_or (get column row) (VStr "")))))
        init rows.

(** [workerSkills], a [Set<string>] that is only asked for membership. *)
Definition workerSkills (workers : list DataRow) : gset string :=
  collectSkills (fun skill set => {[skill]} ∪ set) "Skills" workers ∅.

(** [set.add(x)] on a [Set] that is later listed: the elements in
    insertion order. *)
Definition orderedAdd (x : string) (set : list string) : list string :=
  if bool_decide (x ∈ set) then set else set ++ [x].

(** [Array.from(requiredSkills)] *)
Definition requiredSkills (tasks : list DataRow) : list string :=
  collectSkills orderedAdd "RequiredSkills" tasks [].

Definition missingSkills (workers tasks : list DataRow) : list string :=
  List.filter (fun skill => negb (bool_decide (skill ∈ workerSkills workers)))
              (requiredSkills tasks).

(** The second analysis of [AIService.generateValidationInsights]: the
    insight pushed for the skills no worker has.  The first analysis, on
    the variance of the priorities, computes with floating-point numbers
    and prints with [toFixed]; it is independent of this one and is not
    modelled. *)
Definition skillGapInsights (workers tasks : list DataRow)
  : list ValidationInsight :=
  let missing := missingSkills workers tasks in
  if 0 <? length missing
  then [{| ins_type := InsError;
           ins_message := "Missing worker skills: " +:+ Str.join ", " missing;
           ins_suggestedFix :=
             Some ("Add workers with skills: " +:+ Str.join ", " missing) |}]
  else [].

(** The skills a column lists: the pieces between commas that are not
    blank, trimmed and in lower case. *)
Definition listedSkills (column : string) (rows : list DataRow)
  : list string :=
  flat_map (fun row =>
              map (fun piece => Str.toLowerCase (Str.trim piece))
                  (List.filter (fun piece => Str.nonEmpty (Str.trim piece))
                     (Str.split ","
                        (ToString (js_or (get column row) (VStr ""))))))
           rows.

(** Workers and tasks for the examples. *)
Definition skilledWorker (skills : string) : DataRow :=
  [("WorkerID", VStr "W1"); ("Skills", VStr skills)].

Definition demandingTask (skills : string) : DataRow :=
  [("TaskID", VStr "T1"); ("RequiredSkills", VStr skills)].

(** ** The state of the application: datasets and their issues *)

#[global] Instance DatasetType_eq_dec : EqDecision DatasetType.
Proof. solve_decision. Defined.

(** The [datasets], [validationErrors] and [searchQueries] states of
    [DataAlchemistApp], each a record with one entry per dataset. *)
Record AppState : Type := {
  datasets : DatasetType -> list DataRow;
  validationErrors : DatasetType -> list string;
  searchQueries : DatasetType -> string
}.

Definition initialState : AppState :=
  {| datasets := fun _ => [];
     validationErrors := fun _ => [];
     searchQueries := fun _ => "" |}.

(** [{ ...prev, [key]: value }] *)
Definition setEntry {A : Type} (key : DatasetType) (value : A)
    (prev : DatasetType -> A) : DatasetType -> A :=
  fun k => if bool_decide (k = key) then value else prev k.

(** [filteredData], which the [useMemo] hook recomputes from the datasets
    and the queries whenever one of them changes. *)
Definition filteredData (s : AppState) (key : DatasetType) : list DataRow :=
  parseNaturalLanguageQuery (searchQueries s key) (datasets s key).

(** [onDataParsed] of [FileUpload]:
    [setDatasets(prev => ({ ...prev, [key]: data }))]. *)
Definition onDataParsed (key : DatasetType) (data : list DataRow)
    (s : AppState) : AppState :=
  {| datasets := setEntry key data (datasets s);
     validationErrors := validationErrors s;
     searchQueries := searchQueries s |}.

(** [handleDataChange], the [onDataChange] of the grid, of the command
    panel and, through [handleAICorrection], of the corrections. *)
Definition handleDataChange (datasetType : DatasetType) (rows : list DataRow)
    (s : AppState) : result AppState :=
  issues ← validateDataset datasetType rows;
  mret {| datasets := setEntry datasetType rows (datasets s);
          validationErrors := setEntry datasetType issues (validationErrors s);
          searchQueries := searchQueries s |}.

Definition handleSearch (datasetType : DatasetType) (query : string)
    (s : AppState) : AppState :=
  {| datasets := datasets s;
     validationErrors := validationErrors s;
     searchQueries := setEntry datasetType query (searchQueries s) |}.

(** What the user does to the data. *)
Inductive DataEvent : Type :=
  | FileParsed (key : DatasetType) (data : list DataRow)
  | DataChanged (key : DatasetType) (rows : list DataRow)
  | Searched (key : DatasetType) (query : string).

Definition dataStep (s : AppState) (e : DataEvent) : result AppState :=
  match e with
  | FileParsed key data => mret (onDataParsed key data s)
  | DataChanged key rows => handleDataChange key rows s
  | Searched key query => mret (handleSearch key query s)
  end.

Fixpoint dataRun (s : AppState) (events : list DataEvent) : result AppState :=
  match events with
  | [] => mret s
  | e :: events' => s' ← dataStep s e; dataRun s' events'
  end.


(** The event validates the dataset [key]. *)
Definition validates (key : DatasetType) (e : DataEvent) : bool :=
  match e with
  | DataChanged key' _ => bool_decide (key' = key)
  | _ => false
  end.

(** ** The rules *)

(** [parameters: Record<string, unknown>]: the empty object of the rules
    of the builder, or the [taskIds] a recommendation suggests. *)
Inductive RuleParameters : Type :=
  | NoParameters
  | TaskIds (taskIds : list (option string)).

(** [Omit<Rule, 'id'>] *)
Record RuleDraft : Type := {
  draft_type : string;
  draft_description : string;
  draft_parameters : RuleParameters
}.

(** [interface Rule]; the [id] is the time of [Date.now()], in
    milliseconds. *)
Record Rule : Type := {
  rule_id : option Z;
  rule_type : string;
  rule_description : string;
  rule_parameters : RuleParameters
}.

(** [{ ...newRule, id }] *)
Definition withId (id : Z) (d : RuleDraft) : Rule :=
  {| rule_id := Some id;
     rule_type := draft_type d;
     rule_description := draft_description d;
     rule_parameters := draft_parameters d |}.

(** [const { id, ...ruleWithoutId } = rule] *)
Definition withoutId (r : Rule) : RuleDraft :=
  {| draft_type := rule_type r;
     draft_description := rule_description r;
     draft_parameters := rule_parameters r |}.

(** [interface RulesExport] *)
Record RulesMetadata : Type := {
  createdAt : string;
  totalRules : nat
}.

Record RulesExport : Type := {
  exp_version : string;
  exp_rules : list RuleDraft;
  exp_metadata : RulesMetadata
}.

(** The state of [RulesBuilder]. *)
Record BuilderState : Type := {
  rules : list Rule;
  newRule : RuleDraft
}.

Definition blankRule : RuleDraft :=
  {| draft_type := "coRun"; draft_description := "";
     draft_parameters := NoParameters |}.

Definition initialBuilder : BuilderState :=
  {| rules := []; newRule := blankRule |}.

(** [addRule], [now] being the value of [Date.now()]. *)
Definition addRule (now : Z) (b : BuilderState) : BuilderState :=
  if Str.nonEmpty (Str.trim (draft_description (newRule b)))
  then {| rules := rules b ++ [withId now (newRule b)];
          newRule := blankRule |}
  else b.

(** [removeRule]: [prev.filter(rule => rule.id !== id)]. *)
Definition removeRule (id : Z) (b : BuilderState) : BuilderState :=
  {| rules := List.filter (fun rule => negb (bool_decide (rule_id rule = Some id)))
                          (rules b);
     newRule := newRule b |}.

(** The [Remove] button of a rule: [rule.id && removeRule(rule.id)]. *)
Definition clickRemove (rule : Rule) (b : BuilderState) : BuilderState :=
  match rule_id rule with
  | Some id => if (id =? 0)%Z then b else removeRule id b
  | None => b
  end.

(** [exportRules], [now] being the value of [new Date().toISOString()];
    the result is what [onExport] receives. *)
Definition exportRules (now : string) (b : BuilderState) : RulesExport :=
  {| exp_version := "1.0";
     exp_rules := map withoutId (rules b);
     exp_metadata := {| createdAt := now; totalRules := length (rules b) |} |}.

(** The initial [currentRules] of [DataAlchemistApp]. *)
Definition initialRules : RulesExport :=
  {| exp_version := "1.0"; exp_rules := [];
     exp_metadata := {| createdAt := ""; totalRules := 0 |} |}.

(** [handleAddRule] *)
Definition handleAddRule (rule : RuleDraft) (prev : RulesExport)
  : RulesExport :=
  {| exp_version := exp_version prev;
     exp_rules := exp_rules prev ++ [rule];
     exp_metadata :=
       {| createdAt := createdAt (exp_metadata prev);
          totalRules := length (exp_rules prev) + 1 |} |}.

(** The rule [acceptRecommendation] hands to [onAddRule]. *)
Definition acceptedRule (recommendation : RuleRecommendation) : RuleDraft :=
  {| draft_type := rec_type recommendation;
     draft_description := rec_description recommendation;
     draft_parameters := TaskIds (rec_taskIds recommendation) |}.

(** The builder and the [currentRules] of the application. *)
Record RulesState : Type := {
  builder : BuilderState;
  currentRules : RulesExport
}.

Definition initialRulesState : RulesState :=
  {| builder := initialBuilder; currentRules := initialRules |}.

(** What the user does to the rules.  The export button is shown when
    the builder holds a rule; [RemoveClicked i] is a click on the button of
    the rule displayed at position [i]. *)
Inductive RulesEvent : Type :=
  | TypeSelected (type : string)
  | DescriptionTyped (description : string)
  | AddClicked (now : Z)
  | RemoveClicked (i : nat)
  | ExportClicked (now : string)
  | Accepted (recommendation : RuleRecommendation).

Definition onBuilder (f : BuilderState -> BuilderState) (s : RulesState)
  : RulesState :=
  {| builder := f (builder s); currentRules := currentRules s |}.

Definition rulesStep (s : RulesState) (e : RulesEvent) : RulesState :=
  match e with
  | TypeSelected type =>
      onBuilder (fun b =>
        {| rules := rules b;
           newRule := {| draft_type := type;
                         draft_description := draft_description (newRule b);
                         draft_parameters := draft_parameters (newRule b) |} |})
        s
  | DescriptionTyped description =>
      onBuilder (fun b =>
        {| rules := rules b;
           newRule := {| draft_type := draft_type (newRule b);
                         draft_description := description;
                         draft_parameters := draft_parameters (newRule b) |} |})
        s
  | AddClicked now => onBuilder (addRule now) s
  | RemoveClicked i =>
      match rules (builder s) !! i with
      | Some rule => onBuilder (clickRemove rule) s
      | None => s
      end
  | ExportClicked now =>
      if 0 <? length (rules (builder s))
      then {| builder := builder s;
              currentRules := exportRules now (builder s) |}
      else s
  | Accepted recommendation =>
      {| builder := builder s;
         currentRules :=
           handleAddRule (acceptedRule recommendation) (currentRules s) |}
  end.

Definition rulesRun (s : RulesState) (events : list RulesEvent) : RulesState :=
  foldl rulesStep s events.

(** The rules accepted by the events, in order. *)
Definition acceptedRules (events : list RulesEvent) : list RuleDraft :=
  flat_map (fun e => match e with
                     | Accepted recommendation => [acceptedRule recommendation]
                     | _ => []
                     end) events.

Definition isExport (e : RulesEvent) : bool :=
  match e with ExportClicked _ => true | _ => false end.

(** The times of the clicks on [Add Rule], in order. *)
Definition addTimes (events : list RulesEvent) : list Z :=
  flat_map (fun e => match e with AddClicked now => [now] | _ => [] end)
           events.

(** A recommendation is accepted, then a rule is typed and added. *)
Definition sampleRulesEvents : list RulesEvent :=
  [Accepted (coRunRecommendation "T1-T2" 2);
   DescriptionTyped "keep T3 in phase 1"; AddClicked 1700000000000].

(** Two rules added at different times. *)
Definition twoRulesEvents : list RulesEvent :=
  [DescriptionTyped "a"; AddClicked 10; DescriptionTyped "b"; AddClicked 20].

(** ** What a regular expression matches *)

(** The loop of [Re.run] on [r*], with the matcher of [r] as [body]. *)
Definition starLoop {R : Type}
    (body : string -> Re.mstate -> (string -> Re.mstate -> option R) -> option R)
    (k : string -> Re.mstate -> option R)
  : nat -> string -> Re.mstate -> option R :=
  fix star (n : nat) (s : string) (st : Re.mstate) {struct n} : option R :=
    match n with
    | O => k s st
    | S n' =>
        match body s st (fun s' st' =>
                if String.length s' <? String.length s
                then star n' s' st' else None) with
        | Some x => Some x
        | None => k s st
        end
    end.

(** [Matches r p w rest c c']: at offset [p] of the input, with [w ++ rest]
    left to read and the groups [c] bound, [r] can match the text [w] and
    leave the groups [c'] bound.  An iteration of [r*] matches a text that
    is not empty. *)
Inductive Matches : regex -> nat -> string -> string ->
                    list (nat * string) -> list (nat * string) -> Prop :=
  | MEps p rest c : Matches REps p "" rest c c
  | MChar (q : ascii -> bool) p x rest c :
      q x = true -> Matches (RChar q) p (String x "") rest c c
  | MSeq r1 r2 p w1 w2 rest c c1 c2 :
      Matches r1 p w1 (w2 +:+ rest) c c1 ->
      Matches r2 (p + String.length w1) w2 rest c1 c2 ->
      Matches (RSeq r1 r2) p (w1 +:+ w2) rest c c2
  | MStarStop r p rest c : Matches (RStar r) p "" rest c c
  | MStarStep r p w1 w2 rest c c1 c2 :
      w1 ≠ "" ->
      Matches r p w1 (w2 +:+ rest) c c1 ->
      Matches (RStar r) (p + String.length w1) w2 rest c1 c2 ->
      Matches (RStar r) p (w1 +:+ w2) rest c c2
  | MOptSkip r p rest c : Matches (ROpt r) p "" rest c c
  | MOptTake r p w rest c c1 :
      Matches r p w rest c c1 -> Matches (ROpt r) p w rest c c1
  | MGroup i r p w rest c c1 :
      Matches r p w rest c c1 -> Matches (RGroup i r) p w rest c ((i, w) :: c1)
  | MBegin rest c : Matches RBegin 0 "" rest c c
  | MEnd p c : Matches REnd p "" "" c c.

(** The state of the matcher at offset [p] with the groups [c]. *)
Definition stateAt (p : nat) (c : list (nat * string)) : Re.mstate :=
  {| Re.pos := p; Re.caps := c |}.

(** A regular expression without groups. *)
Fixpoint groupFree (r : regex) : bool :=
  match r with
  | RGroup _ _ => false
  | RSeq r1 r2 => groupFree r1 && groupFree r2
  | RStar r' | ROpt r' => groupFree r'
  | REps | RChar _ | RBegin | REnd => true
  end.

(** [T] followed by one or more digits. *)
Definition isTaskId (text : string) : bool :=
  match text with
  | String "T"%char digits =>
      Str.nonEmpty digits && allChars Str.is_digit digits
  | _ => false
  end.

(** Clients whose requests are a list with a space, a well-formed list
    and an empty cell. *)
Definition requestClients : list DataRow :=
  [fullClient "C1" "3" "T1, T2" "GroupA" "{}";
   fullClient "C2" "3" "T1,T22" "GroupA" "{}";
   fullClient "C3" "3" "" "GroupA" "{}"].

(** A word of the commands: one or more characters of [\w], in lower
    case. *)
Definition isLowerWord (text : string) : bool :=
  Str.nonEmpty text && allChars Str.is_word text
  && String.eqb (Str.toLowerCase text) text.

(** The commands the parser understands, with their value and group. *)
Definition changeAllPriorities (value : Z) : ModificationCommand :=
  {| cmd_action := ActChange;
     cmd_field := "PriorityLevel";
     cmd_value := VNum (Num.ofZ value);
     cmd_condition := None;
     cmd_dataset := clients |}.

Definition setGroupLoad (value : Z) (group : string) : ModificationCommand :=
  {| cmd_action := ActSet;
     cmd_field := "MaxLoadPerPhase";
     cmd_value := VNum (Num.ofZ value);
     cmd_condition :=
       Some {| cond_field := "WorkerGroup";
               cond_operator := equals;
               cond_value := VStr group |};
     cmd_dataset := workers |}.

Definition updateGroupPriority (value : Z) (group : string)
  : ModificationCommand :=
  {| cmd_action := ActUpdate;
     cmd_field := "PriorityLevel";
     cmd_value := VNum (Num.ofZ value);
     cmd_condition :=
       Some {| cond_field := "GroupTag";
               cond_operator := equals;
               cond_value := VStr group |};
     cmd_dataset := clients |}.

(** A command that sets every priority out of range. *)
Definition overrangeCommand : string := "Change all PriorityLevels to 9".

(** ** Corrections of the issues *)

(** [a - b] on numbers, in exact arithmetic on finite operands. *)
Definition numberSub (a b : number) : number :=
  match a, b with
  | NaN, _ | _, NaN => NaN
  | Fin x, Fin y => Fin (Qred (x - y))
  | PosInf, PosInf | NegInf, NegInf => NaN
  | PosInf, _ | _, NegInf => PosInf
  | NegInf, _ | _, PosInf => NegInf
  end.

(** The array index a number stands for, when it is a natural number. *)
Definition toIndex (n : number) : option nat :=
  match n with
  | Fin q =>
      if Num.isInteger n && negb (Num.Qltb q 0)
      then Some (Z.to_nat (Qnum q / Zpos (Qden q)))
      else None
  | _ => None
  end.

(** [/Row (\d+):/] *)
Definition reRowNumber : regex :=
  Re.seq [Re.word Re.lit "Row "; RGroup 1 (Re.plus Re.digit); Re.lit ":"].

(** [/(\w+):/g] *)
Definition reKey : regex :=
  Re.seq [RGroup 1 (Re.plus Re.wordChar); Re.lit ":"].

(** [/'/g] *)
Definition reSingleQuote : regex := Re.lit "'".

(** [s.replace(r, ...)] for a regular expression with the [g] flag:
    every match, from left to right, is replaced by what [template] makes
    of its groups; after a match the search goes on where the match
    ended, one character further when the match is empty.  [p] is the
    offset of [s] in the input. *)
Fixpoint replaceFrom (fuel : nat) (r : regex)
    (template : list (nat * string) -> string) (p : nat) (s : string)
  : string :=
  match fuel with
  | O => s
  | S fuel' =>
      let copyOne :=
        match s with
        | "" => ""
        | String c t => String c (replaceFrom fuel' r template (S p) t)
        end in
      match Re.run r s (stateAt p [])
                   (fun s' st' => Some (s', Re.caps st')) with
      | Some (s', m) =>
          if String.length s' <? String.length s
          then template m +:+
               replaceFrom fuel' r template
                 (p + (String.length s - String.length s')) s'
          else template m +:+ copyOne
      | None => copyOne
      end
  end.

Definition replaceAll (r : regex) (template : list (nat * string) -> string)
    (s : string) : string :=
  replaceFrom (S (String.length s)) r template 0 s.

(** The two [replace] calls of the correction: each key before a colon
    is put between double quotes, then each single quote becomes a double
    quote. *)
Definition requote (attributes : string) : string :=
  replaceAll reSingleQuote (fun _ => dq)
    (replaceAll reKey (fun m => dq +:+ Re.group 1 m +:+ dq +:+ ":")
                attributes).

(** [AIService.suggestCorrections]; the [datasetType] argument is not
    used by the source and is left out.  [None] is [null].  The only
    operation that throws, [JSON.parse], is inside [try]. *)
Definition suggestCorrections (error : string) (row : DataRow)
  : option string :=
  let fromTaskIds :=
    if Str.includes "RequestedTaskIDs" error then
      let taskIds :=
        ToString (js_or (get "RequestedTaskIDs" row) (VStr "")) in
      let validTaskIds :=
        List.filter (fun id => Str.startsWith "T" (Str.trim id))
                    (Str.split "," taskIds) in
      if 0 <? length validTaskIds
      then Some (Str.join "," validTaskIds) else None
    else None in
  if Str.includes "Invalid JSON" error then
    let attributes := ToString (js_or (get "AttributesJSON" row) (VStr "")) in
    if Str.nonEmpty attributes && negb (String.eqb attributes "INVALID_JSON")
    then
      let fixed := requote attributes in
      match Json.parse fixed with
      | Ok _ => Some fixed
      | Throw _ => Some "{}"
      end
    else fromTaskIds
  else fromTaskIds.

(** The row an issue is about: [parseInt(rowMatch[1]) - 1] when the
    issue names a row and the index is within the data.  [parseInt]
    returns an integer or [NaN], and [NaN] fails the test of the range,
    so the index is a natural number. *)
Definition rowIndexOf (error : string) (data : list DataRow) : option nat :=
  match Re.exec reRowNumber error with
  | Some rowMatch =>
      let rowIndex :=
        numberSub (Num.parseInt (Re.group 1 rowMatch)) (Num.ofZ 1) in
      if Num.geb rowIndex (Num.ofZ 0)
         && Num.ltb rowIndex (Num.ofNat (length data))
      then toIndex rowIndex
      else None
  | None => None
  end.

(** The body of the loop of [generateCorrections] for one issue: the
    correction to record, if any. *)
Definition correctionFor (error : string) (data : list DataRow)
  : option string :=
  rowIndex ← rowIndexOf error data;
  row ← data !! rowIndex;
  correction ← suggestCorrections error row;
  if Str.nonEmpty correction then Some correction else None.

(** [generateCorrections]: the [Map<number, string>] handed to
    [setCorrections]. *)
Definition generateCorrections (errors : list string) (data : list DataRow)
  : gmap nat string :=
  foldl (fun newCorrections entry =>
           match correctionFor entry.2 data with
           | Some correction => <[entry.1 := correction]> newCorrections
           | None => newCorrections
           end)
        ∅ (zip (seq 0 (length errors)) errors).

(** [applyCorrection]: the rows handed to [onDataChange], or [None] when
    nothing is done. *)
Definition applyCorrection (errorIndex : nat) (correction : string)
    (errors : list string) (data : list DataRow) : option (list DataRow) :=
  error ← errors !! errorIndex;
  rowIndex ← rowIndexOf error data;
  row ← data !! rowIndex;
  let newRow :=
    if Str.includes "AttributesJSON" error
    then assign "AttributesJSON" (VStr correction) row
    else if Str.includes "RequestedTaskIDs" error
    then assign "RequestedTaskIDs" (VStr correction) row
    else row in
  Some (<[rowIndex := newRow]> data).

(** The head of the message of an attributes cell that does not parse. *)
Definition invalidJsonHead : string := "Invalid JSON in AttributesJSON: ".

(** ** Loading a file *)

(** [s.endsWith(suffix)] *)
Definition endsWith (suffix s : string) : bool :=
  (String.length suffix <=? String.length s)
  && String.eqb (substring (String.length s - String.length suffix)
                           (String.length suffix) s) suffix.

(** [file.name.split(".").pop()?.toLowerCase()]; [None] is [undefined]. *)
Definition fileExtension (name : string) : option string :=
  Str.toLowerCase <$> last (Str.split "." name).

(** What [parseUploadedFile] does with a file: it hands it to the CSV
    parser or to the spreadsheet parser, or it alerts with the extension
    it found.  The parsers are libraries and are not modelled. *)
Inductive UploadAction : Type :=
  | ParseCsv
  | ParseXlsx
  | AlertUnsupported (fileExtension : option string).

Definition parseUploadedFile (name : string) : UploadAction :=
  match fileExtension name with
  | Some extension =>
      if String.eqb extension "csv" then ParseCsv
      else if String.eqb extension "xlsx" then ParseXlsx
      else AlertUnsupported (Some extension)
  | None => AlertUnsupported None
  end.

(** [handleFileChange] of [FileUpload], for the file chosen in the
    dialog. *)
Definition handleFileChange (name : string) : UploadAction :=
  parseUploadedFile name.

(** [handleDrop] of [FileUpload], for the first file dropped: [None] when
    the file is ignored. *)
Definition handleDrop (name : string) : option UploadAction :=
  if endsWith ".csv" name || endsWith ".xlsx" name
  then Some (parseUploadedFile name)
  else None.

(** ** Queries on a number *)

(** The query [keyword op n], with the white space [ws1] and [ws2] around
    the operator. *)
Definition numericQuery (keyword : string) (op : ascii) (ws1 ws2 : string)
    (n : nat) : string :=
  keyword +:+ ws1 +:+ String op (ws2 +:+ pretty n).

(** The state of the matcher [n] characters further. *)
Definition advanceBy (n : nat) (st : Re.mstate) : Re.mstate :=
  stateAt (Re.pos st + n) (Re.caps st).

(** Where a starred class stops: at the end of the input, or at a
    character outside the class. *)
Definition stops (q : ascii -> bool) (s : string) : bool :=
  match s with
  | "" => true
  | String x _ => negb (q x)
  end.

(** ** The range format of [PreferredPhases] *)




(** ** The correction panel of a dataset *)

(** The [data] and [errors] the panel receives from the application, and
    its own [corrections]. *)
Record FixState : Type := {
  fix_data : list DataRow;
  fix_errors : list string;
  fix_corrections : gmap nat string
}.

(** The panel of a dataset that was just edited: the issues are those of
    the rows, and no correction is recorded. *)
Definition fixStart (datasetType : DatasetType) (data : list DataRow)
  : result FixState :=
  issues ← validateDataset datasetType data;
  mret {| fix_data := data; fix_errors := issues; fix_corrections := ∅ |}.

(** A click on [Auto-Fix]: [generateCorrections] replaces the
    corrections. *)
Definition autoFix (s : FixState) : FixState :=
  {| fix_data := fix_data s;
     fix_errors := fix_errors s;
     fix_corrections := generateCorrections (fix_errors s) (fix_data s) |}.

(** A click on the [Apply] button shown with the issue at [index], which
    is there when a correction is recorded under [index]:
    [applyCorrection] hands the new rows to [handleAICorrection], which
    stores and validates them, and deletes the correction.  The other
    corrections stay under their indices. *)
Definition applyFix (datasetType : DatasetType) (index : nat) (s : FixState)
  : result FixState :=
  match fix_errors s !! index, fix_corrections s !! index with
  | Some _, Some correction =>
      match applyCorrection index correction (fix_errors s) (fix_data s) with
      | Some newData =>
          issues ← validateDataset datasetType newData;
          mret {| fix_data := newData;
                  fix_errors := issues;
                  fix_corrections := delete index (fix_corrections s) |}
      | None => mret s
      end
  | _, _ => mret s
  end.

(** Three clients whose attributes do not parse. *)
Definition brokenClients : list DataRow :=
  [fullClient "C1" "3" "T1" "GroupA" "{budget:1}";
   fullClient "C2" "2" "T2" "GroupB" "{vip:true}";
   fullClient "C3" "1" "T3" "GroupA" "{region:5}"].

(** A client whose requests have a space after the comma, and the issue
    the validator reports for it. *)
Definition spacedClient : DataRow := fullClient "C1" "3" "T1, T2" "GroupA" "{}".

Definition spacedIssue : string :=
  msgGot 1 "RequestedTaskIDs should be comma-separated T-prefixed IDs" "T1, T2".

(** ** Messages of a dataset *)

(** [msg] is the message about missing columns. *)
Definition isColumnsIssue (msg : string) : bool :=
  Str.startsWith "Missing required columns: " msg.

(** ** Integers that are doubles *)

(** Every integer up to [2^53] in magnitude is a double: [parseInt] reads
    it and [String] prints it as it is written. *)
Definition maxExactInteger : Z := 2 ^ 53.

(** [value <= 2 ** 53] *)
Definition withinExactIntegers (value : jsval) : bool :=
  Num.leb (ToNumber value) (Num.ofZ maxExactInteger).

(** A number that [Number] gives for a text in the code as in the model:
    [NaN], an infinity, or an integer from [-2^53] to [2^53]. *)
Definition exactNumber (a : number) : bool :=
  match a with
  | Fin _ =>
      Num.isInteger a
      && Num.leb (Num.ofZ (- maxExactInteger)) a
      && Num.leb a (Num.ofZ maxExactInteger)
  | _ => true
  end.

(** The cells of a column convert to such numbers. *)
Definition exactColumn (column : string) (data : list DataRow) : bool :=
  forallb (fun row => exactNumber (ToNumber (get column row))) data.

(** ** Clients that request two tasks *)

(** The client requests both [a] and [b]. *)
Definition requestsBoth (a b : string) (client : DataRow) : bool :=
  bool_decide (a ∈ requestedTaskIds client)
  && bool_decide (b ∈ requestedTaskIds client).

(** A client that requests a task twice. *)
Definition repeatingClients : list DataRow := [requesting "T1,T2,T1"].

(* ================================================================== *)
(** * Properties *)

(** ** Conversions on sample inputs *)

Example ofString_examples :
  Num.ofString "3" = Num.ofZ 3 /\
  Num.ofString " 2.50 " = Fin (5 # 2) /\
  Num.ofString "" = Num.ofZ 0 /\
  Num.ofString "abc" = NaN /\
  Num.ofString "-1e2" = Num.ofZ (-100) /\
  Num.ofString ".5" = Fin (1 # 2) /\
  Num.ofString "5." = Num.ofZ 5 /\
  Num.ofString "0x1F" = Num.ofZ 31 /\
  Num.ofString "1 2" = NaN /\
  Num.ofString "-Infinity" = NegInf /\
  Num.ofString "12px" = NaN /\
  Num.ofString "." = NaN.
Proof. vm_compute. repeat split. Qed.

Example parseInt_examples :
  Num.parseInt "42" = Num.ofZ 42 /\
  Num.parseInt "  -7abc" = Num.ofZ (-7) /\
  Num.parseInt "0x10" = Num.ofZ 16 /\
  Num.parseInt "abc" = NaN /\
  Num.parseInt "" = NaN.
Proof. vm_compute. repeat split. Qed.

Example toString_examples :
  Num.toString (Num.ofZ 3) = "3" /\
  Num.toString (Num.ofZ (-12)) = "-12" /\
  Num.toString (Fin (5 # 2)) = "2.5" /\
  Num.toString (Fin (-1 # 8)) = "-0.125" /\
  Num.toString NaN = "NaN".
Proof. vm_compute. repeat split. Qed.

Example JSON_parse_examples :
  Json.parse "[1, 2,3]"
  = Ok (JArr [JNum (Num.ofZ 1); JNum (Num.ofZ 2); JNum (Num.ofZ 3)]) /\
  Json.parse "{}" = Ok (JObj []) /\
  Json.parse "7" = Ok (JNum (Num.ofZ 7)) /\
  Json.parse "-1.5e1" = Ok (JNum (Num.ofZ (-15))) /\
  Json.parse "[[1]]" = Ok (JArr [JArr [JNum (Num.ofZ 1)]]) /\
  Json.parse "INVALID_JSON" = Throw SyntaxError /\
  Json.parse "not_a_list" = Throw SyntaxError /\
  Json.parse "{a:1}" = Throw SyntaxError /\
  Json.parse "01" = Throw SyntaxError /\
  Json.parse "[1,]" = Throw SyntaxError /\
  Json.parse "1-3" = Throw SyntaxError.
Proof. vm_compute. repeat split. Qed.

Example everyInteger_examples :
  Json.everyInteger (JArr [JNum (Num.ofZ 1); JStr "2"; JNull]) = true /\
  Json.everyInteger (JArr [JArr [JNum (Num.ofZ 1)]]) = true /\
  Json.everyInteger (JArr [JNum (Fin (1 # 2))]) = false /\
  Json.everyInteger (JArr [JStr "x"]) = false.
Proof. vm_compute. repeat split. Qed.

Example regex_examples :
  Re.exec (rePattern "priority" ">" Re.digit) "xx priority>25a"
  = Some [(1, "25")] /\
  Re.test reTaskIds "T1,T22,T3" = true /\
  Re.test reTaskIds "T1,T22,T" = false /\
  Re.test reTaskIds "xT1" = false /\
  Re.test reRange "1-3" = true /\
  Re.exec reLoadCommand "set maxloadperphase to 2 for groupb workers"
  = Some [(2, "groupb"); (1, "2")].
Proof. vm_compute. repeat split. Qed.

Example parseModificationCommand_examples :
  (cmd_value <$> parseModificationCommand "Change all PriorityLevels to 5")
  = Some (VNum (Num.ofZ 5)) /\
  (cmd_condition <$>
     parseModificationCommand "update all GroupA clients priority to 4")
  = Some (Some {| cond_field := "GroupTag"; cond_operator := equals;
                  cond_value := VStr "groupa" |}) /\
  parseModificationCommand "raise every priority" = None.
Proof. vm_compute. repeat split. Qed.

(** ** The validators as scans *)

Lemma checkDuplicate_spec column rowNumber id errors (ids : gset string) :
  checkDuplicate column rowNumber id errors ids
  = (errors ++ duplicateIssue column rowNumber id ids, seenAfter id ids).
Proof.
  unfold checkDuplicate, duplicateIssue, seenAfter.
  destruct (Str.nonEmpty id); simpl; [|by rewrite app_nil_r].
  case_bool_decide; simpl.
  - f_equal. symmetry. apply subseteq_union_1_L. by apply singleton_subseteq_l.
  - by rewrite app_nil_r.
Qed.

Lemma numericIssue_app (bad : number -> bool) what column rowNumber row
    (errors : list string) :
  (if bad (ToNumber (get column row))
   then errors ++ [msgGot rowNumber what (ToString (get column row))]
   else errors)
  = errors ++ numericIssue bad what column rowNumber row.
Proof. unfold numericIssue. destruct (bad _); by rewrite ?app_nil_r. Qed.

Lemma validateClientRow_spec errors ids row index :
  validateClientRow (errors, ids) row index
  = Ok (errors ++ rowIssues clients ids index row,
        seenAfter (keyOf clients row) ids).
Proof.
  unfold validateClientRow, rowIssues, cellIssues, keyOf, keyColumn.
  rewrite checkDuplicate_spec.
  fold (outside1to5 (ToNumber (get "PriorityLevel" row))).
  rewrite (numericIssue_app outside1to5).
  unfold taskIdsIssue, attributesIssue, parsed, textOf.
  destruct (Str.nonEmpty (ToString (js_or (get "RequestedTaskIDs" row) _))
            && negb _);
    (destruct (Str.nonEmpty (ToString (js_or (get "AttributesJSON" row) _))
               && negb _); simpl;
     [destruct (Json.parse _); simpl|];
     by rewrite ?app_nil_r, <-?app_assoc).
Qed.

Lemma validateWorkerRow_spec errors ids row index :
  validateWorkerRow (errors, ids) row index
  = Ok (errors ++ rowIssues workers ids index row,
        seenAfter (keyOf workers row) ids).
Proof.
  unfold validateWorkerRow, rowIssues, cellIssues, keyOf, keyColumn.
  rewrite checkDuplicate_spec.
  fold (negative (ToNumber (get "MaxLoadPerPhase" row))).
  fold (outside1to5 (ToNumber (get "QualificationLevel" row))).
  unfold slotsIssue, parsed, textOf.
  destruct (Str.nonEmpty (ToString (js_or (get "AvailableSlots" row) _))
            && negb _); simpl;
    [destruct (Json.parse _) as [j|]; simpl;
       [fold (notIntegerArray j); destruct (notIntegerArray j)|]|];
    rewrite (numericIssue_app negative), (numericIssue_app outside1to5);
    by rewrite ?app_nil_r, <-?app_assoc.
Qed.

Lemma validateTaskRow_spec errors ids row index :
  validateTaskRow (errors, ids) row index
  = Ok (errors ++ rowIssues tasks ids index row,
        seenAfter (keyOf tasks row) ids).
Proof.
  unfold validateTaskRow, rowIssues, cellIssues, keyOf, keyColumn.
  rewrite checkDuplicate_spec.
  fold (notPositive (ToNumber (get "Duration" row))).
  fold (notPositive (ToNumber (get "MaxConcurrent" row))).
  rewrite (numericIssue_app notPositive).
  unfold phasesIssue, parsed, textOf.
  destruct (Str.nonEmpty (ToString (js_or (get "PreferredPhases" row) _))
            && negb _); simpl;
    [destruct (Json.parse _) as [j|]; simpl;
       [fold (notIntegerArray j); destruct (notIntegerArray j)
       |destruct (negb (Re.test reRange _))]|];
    rewrite (numericIssue_app notPositive);
    by rewrite ?app_nil_r, <-?app_assoc.
Qed.

(** A loop whose body appends the messages of a row and records its key
    computes the scan. *)
Lemma forEach_scan datasetType
    (f : list string * gset string -> DataRow -> nat
         -> result (list string * gset string)) :
  (forall errors ids row index,
     f (errors, ids) row index
     = Ok (errors ++ rowIssues datasetType ids index row,
           seenAfter (keyOf datasetType row) ids)) ->
  forall data index errors ids,
    exists ids',
      forEach f index data (errors, ids)
      = Ok (errors ++ scan datasetType ids index data, ids').
Proof.
  intros Hf data. induction data as [|row rest IH]; intros index errors ids.
  - exists ids. simpl. by rewrite app_nil_r.
  - simpl. rewrite Hf. simpl.
    destruct (IH (S index) (errors ++ rowIssues datasetType ids index row)
                 (seenAfter (keyOf datasetType row) ids)) as [ids' ->].
    exists ids'. by rewrite <-app_assoc.
Qed.

(** [validateDataset] returns the message about missing columns, if any,
    followed by the scan of the rows. *)
Lemma validateDataset_scan datasetType data :
  validateDataset datasetType data
  = Ok (checkRequiredColumns (requiredColumns datasetType) data []
        ++ scan datasetType ∅ 0 data).
Proof.
  destruct datasetType; simpl;
    unfold validateClientData, validateWorkerData, validateTaskData.
  - destruct (forEach_scan clients validateClientRow validateClientRow_spec
                data 0 (checkRequiredColumns clientColumns data []) ∅)
      as [ids' ->]. done.
  - destruct (forEach_scan workers validateWorkerRow validateWorkerRow_spec
                data 0 (checkRequiredColumns workerColumns data []) ∅)
      as [ids' ->]. done.
  - destruct (forEach_scan tasks validateTaskRow validateTaskRow_spec
                data 0 (checkRequiredColumns taskColumns data []) ∅)
      as [ids' ->]. done.
Qed.

(** ** Messages and their recognisers *)

Lemma append_assoc (a b c : string) : (a +:+ b) +:+ c = a +:+ (b +:+ c).
Proof. induction a as [|x a IH]; simpl; [done|]. unfold String.app in *. simpl. by rewrite IH. Qed.

Lemma startsWith_app (p a b : string) :
  Str.startsWith (p +:+ a) (p +:+ b) = Str.startsWith a b.
Proof.
  induction p as [|x p IH]; [done|].
  change (Ascii.eqb x x && Str.startsWith (p +:+ a) (p +:+ b)
          = Str.startsWith a b).
  by rewrite Ascii.eqb_refl.
Qed.

Lemma allChars_pretty_N_go x s :
  allChars Str.is_digit s = true ->
  allChars Str.is_digit (pretty_N_go x s) = true.
Proof.
  revert s. induction (N.lt_wf_0 x) as [x _ IH]; intros s Hs.
  destruct (decide (x = 0%N)) as [->|Hx]; [by rewrite pretty_N_go_0|].
  rewrite pretty_N_go_step by lia.
  apply IH; [apply N.div_lt; lia|].
  simpl. rewrite Hs, andb_true_r.
  assert (x `mod` 10 < 10)%N as Hlt by (apply N.mod_lt; lia).
  destruct (x `mod` 10)%N as [|p] eqn:E; [done|].
  do 4 (destruct p as [p|p|]; try done).
Qed.

Lemma allChars_pretty_nat (n : nat) :
  allChars Str.is_digit (pretty n) = true.
Proof.
  unfold pretty, pretty_nat, pretty, pretty_N.
  case_decide; [done|]. by apply allChars_pretty_N_go.
Qed.

(** Two runs of digits, each followed by a colon, of which one starts the
    other, are the same run. *)
Lemma digits_colon (a b x y : string) :
  allChars Str.is_digit a = true ->
  allChars Str.is_digit b = true ->
  Str.startsWith (a +:+ String ":" x) (b +:+ String ":" y) = true ->
  a = b.
Proof.
  revert b. induction a as [|c a IH]; intros [|d b] Ha Hb H; try done.
  - change (Ascii.eqb ":" d && Str.startsWith x (b +:+ String ":" y) = true)
      in H.
    apply andb_true_iff in H as [H _]. apply Ascii.eqb_eq in H as <-. done.
  - change (Ascii.eqb c ":" && Str.startsWith (a +:+ String ":" x) y = true)
      in H.
    apply andb_true_iff in H as [H _]. apply Ascii.eqb_eq in H as ->. done.
  - change (Ascii.eqb c d
            && Str.startsWith (a +:+ String ":" x) (b +:+ String ":" y) = true)
      in H.
    apply andb_true_iff in H as [Hc H]. apply Ascii.eqb_eq in Hc as ->.
    cbn [allChars] in Ha, Hb.
    apply andb_true_iff in Ha as [_ Ha]. apply andb_true_iff in Hb as [_ Hb].
    f_equal. by apply IH.
Qed.

Lemma rowPrefix_unfold n rest :
  rowPrefix n +:+ rest = "Row " +:+ pretty n +:+ String ":" (String " " rest).
Proof. unfold rowPrefix. by rewrite !append_assoc. Qed.

(** A message of row [m] is recognised as one of row [n] only when
    [n = m]. *)
Lemma isRowIssue_row n what m rest :
  isRowIssue n what (rowPrefix m +:+ rest) = true -> n = m.
Proof.
  unfold isRowIssue. rewrite !rowPrefix_unfold, startsWith_app. intros H.
  apply digits_colon in H; auto using allChars_pretty_nat.
  by apply (inj pretty) in H.
Qed.

Lemma isRowIssue_same n what rest :
  isRowIssue n what (rowPrefix n +:+ rest) = Str.startsWith what rest.
Proof. unfold isRowIssue. apply startsWith_app. Qed.

Lemma isRowIssue_missing n what cols :
  isRowIssue n what (msgMissingColumns cols) = false.
Proof. unfold isRowIssue. by rewrite rowPrefix_unfold. Qed.

(** ** Where the messages of a scan come from *)

Lemma nonEmpty_true (s : string) : Str.nonEmpty s = true <-> s ≠ "".
Proof. by destruct s. Qed.

Lemma filter_none {A} (p : A -> bool) (l : list A) :
  (forall x, x ∈ l -> p x = false) -> List.filter p l = [].
Proof.
  induction l as [|x l IH]; intros H; [done|]. simpl.
  rewrite (H x) by left. apply IH. intros y Hy. apply H. by right.
Qed.

(** The keys seen after a list of rows, starting from [ids]. *)
Lemma elem_of_seen datasetType (l : list DataRow) (ids : gset string) k :
  k ∈ foldl (fun ids row => seenAfter (keyOf datasetType row) ids) ids l
  <-> k ∈ ids \/ (k ≠ "" /\ k ∈ map (keyOf datasetType) l).
Proof.
  revert ids. induction l as [|row l IH]; intros ids; simpl.
  - split; [by left|]. intros [?|[_ H]]; [done|]. by apply elem_of_nil in H.
  - rewrite IH. unfold seenAfter.
    destruct (Str.nonEmpty (keyOf datasetType row)) eqn:E.
    + apply nonEmpty_true in E. rewrite elem_of_union, elem_of_singleton.
      rewrite elem_of_cons. naive_solver.
    + assert (keyOf datasetType row = "") as E'
        by (by destruct (keyOf datasetType row)).
      rewrite elem_of_cons, E'. naive_solver.
Qed.

(** The scan of a list of rows splits at any of its rows. *)
Lemma scan_split datasetType (data : list DataRow) i row ids index :
  data !! i = Some row ->
  scan datasetType ids index data
  = scan datasetType ids index (take i data)
    ++ rowIssues datasetType
         (foldl (fun ids row => seenAfter (keyOf datasetType row) ids) ids
                (take i data))
         (index + i) row
    ++ scan datasetType
         (foldl (fun ids row => seenAfter (keyOf datasetType row) ids) ids
                (take (S i) data))
         (index + S i) (drop (S i) data).
Proof.
  revert i ids index. induction data as [|r data IH]; intros i ids index H.
  - by rewrite lookup_nil in H.
  - destruct i as [|i]; simpl in H.
    + injection H as ->. simpl. rewrite drop_0.
      by rewrite Nat.add_0_r, Nat.add_1_r.
    + simpl. rewrite (IH i _ (S index) H), <-app_assoc.
      by rewrite !Nat.add_succ_r.
Qed.

(** Every message of a row starts with the prefix of that row. *)
Lemma duplicateIssue_form column n id ids msg :
  msg ∈ duplicateIssue column n id ids ->
  msg = msgDuplicate column n id /\ id ≠ "" /\ id ∈ ids.
Proof.
  unfold duplicateIssue.
  destruct (Str.nonEmpty id) eqn:E; simpl; [|by intros ?%elem_of_nil].
  case_bool_decide; simpl; [|by intros ?%elem_of_nil].
  intros ->%list_elem_of_singleton. by apply nonEmpty_true in E.
Qed.

Ltac cell_cases H :=
  repeat (apply elem_of_app in H as [H|H]);
  repeat match type of H with
    | _ ∈ (if ?c then _ else _) => destruct c
    | _ ∈ (match ?c with Ok _ => _ | Throw _ => _ end) => destruct c
    | _ ∈ [] => by apply elem_of_nil in H
    | _ ∈ [_] => apply list_elem_of_singleton in H; subst
    end.

Lemma cellIssues_form datasetType n row msg :
  msg ∈ cellIssues datasetType n row ->
  exists head rest, head ∈ cellHeads /\ msg = rowPrefix n +:+ head +:+ rest.
Proof.
  intros H. destruct datasetType;
    unfold cellIssues, numericIssue, taskIdsIssue, attributesIssue,
      slotsIssue, phasesIssue, msgGot, msgInvalidJson in H;
    cell_cases H;
    lazymatch goal with
    | |- exists head rest, _ /\ rowPrefix _ +:+ ?w +:+ ?r = _ =>
        first
          [ exists w, r; split; [unfold cellHeads; set_solver|done]
          | idtac ]
    end.
  all: try (eexists "RequestedTaskIDs should be ", _; split;
            [unfold cellHeads; set_solver|reflexivity]).
  all: try (eexists "AvailableSlots should be ", _; split;
            [unfold cellHeads; set_solver|reflexivity]).
  all: try (eexists "PreferredPhases should be ", _; split;
            [unfold cellHeads; set_solver|reflexivity]).
Qed.

Lemma rowIssues_form datasetType ids index row msg :
  msg ∈ rowIssues datasetType ids index row ->
  exists rest, msg = rowPrefix (index + 1) +:+ rest.
Proof.
  unfold rowIssues. intros [H|H]%elem_of_app.
  - apply duplicateIssue_form in H as [-> _]. by eexists.
  - apply cellIssues_form in H as (head & rest & _ & ->). by eexists.
Qed.

Lemma scan_form datasetType (data : list DataRow) ids index msg :
  msg ∈ scan datasetType ids index data ->
  exists j rest,
    index <= j < index + length data /\ msg = rowPrefix (j + 1) +:+ rest.
Proof.
  revert ids index. induction data as [|row data IH]; intros ids index H.
  - by apply elem_of_nil in H.
  - simpl in H. apply elem_of_app in H as [H|H].
    + apply rowIssues_form in H as [rest ->].
      exists index, rest. split; [simpl; lia|done].
    + apply IH in H as (j & rest & Hj & ->).
      exists j, rest. split; [simpl; lia|done].
Qed.

(** The messages of other rows are not recognised as messages of row
    [n]. *)
Lemma filter_scan_other datasetType data ids index n what :
  (n <= index \/ index + length data < n) ->
  List.filter (isRowIssue n what) (scan datasetType ids index data) = [].
Proof.
  intros Hn. apply filter_none. intros msg H.
  apply scan_form in H as (j & rest & Hj & ->).
  destruct (isRowIssue n what (rowPrefix (j + 1) +:+ rest)) eqn:E; [|done].
  apply isRowIssue_row in E. lia.
Qed.

Lemma filter_header n what columns data :
  List.filter (isRowIssue n what) (checkRequiredColumns columns data []) = [].
Proof.
  apply filter_none. intros msg H. unfold checkRequiredColumns in H.
  destruct data as [|row0 data]; [by apply elem_of_nil in H|].
  destruct (0 <? _); [|by apply elem_of_nil in H].
  apply list_elem_of_singleton in H as ->. apply isRowIssue_missing.
Qed.

(** The messages of row [i + 1] among the messages of a dataset are
    those of the row itself. *)
Lemma filter_row datasetType data issues i row what :
  validateDataset datasetType data = Ok issues ->
  data !! i = Some row ->
  List.filter (isRowIssue (i + 1) what) issues
  = List.filter (isRowIssue (i + 1) what)
      (rowIssues datasetType (keysOf datasetType (take i data)) i row).
Proof.
  rewrite validateDataset_scan. intros [= <-] Hrow.
  rewrite List.filter_app, filter_header. simpl.
  rewrite (scan_split _ _ _ _ _ _ Hrow), !List.filter_app.
  apply lookup_lt_Some in Hrow.
  rewrite !filter_scan_other, app_nil_r; [done|..];
    rewrite ?length_take, ?length_drop; lia.
Qed.

Lemma startsWith_duplicate_cell datasetType head rest :
  head ∈ cellHeads ->
  Str.startsWith ("Duplicate " +:+ keyColumn datasetType +:+ " ")
                 (head +:+ rest) = false.
Proof.
  unfold cellHeads. intros H.
  repeat (apply elem_of_cons in H as [->|H]; [by destruct datasetType|]).
  by apply elem_of_nil in H.
Qed.

(** The duplicate messages of row [i + 1] in the result of a validator:
    the one of its duplicate check, if any. *)
Lemma filter_duplicate datasetType data issues i row :
  validateDataset datasetType data = Ok issues ->
  data !! i = Some row ->
  List.filter (isDuplicateIssue datasetType (i + 1)) issues
  = duplicateIssue (keyColumn datasetType) (i + 1) (keyOf datasetType row)
                   (keysOf datasetType (take i data)).
Proof.
  intros Hv Hrow. unfold isDuplicateIssue.
  rewrite (filter_row _ _ _ _ _ _ Hv Hrow). unfold rowIssues.
  rewrite List.filter_app.
  rewrite (filter_none _ (cellIssues _ _ _)), app_nil_r.
  - unfold duplicateIssue. destruct (_ && _); [|done]. simpl.
    unfold msgDuplicate. rewrite isRowIssue_same.
    by destruct datasetType.
  - intros msg (head & rest & Hh & ->)%cellIssues_form.
    rewrite isRowIssue_same. by apply startsWith_duplicate_cell.
Qed.

(** ** Duplicate identity keys *)

(** C5 (as amended): for a non-empty identity key [k], the row at index
    [i] carrying [k] gets no duplicate-key message when no earlier row
    carries [k], and exactly one, the message naming [k], when an earlier
    row does. *)
Theorem duplicate_key_flagged_after_first
    datasetType (data : list DataRow) issues i row k :
  validateDataset datasetType data = Ok issues ->
  data !! i = Some row ->
  keyOf datasetType row = k ->
  k ≠ "" ->
  List.filter (isDuplicateIssue datasetType (i + 1)) issues
  = if bool_decide (k ∈ map (keyOf datasetType) (take i data))
    then [msgDuplicate (keyColumn datasetType) (i + 1) k]
    else [].
Proof.
  intros Hv Hrow Hk Hne.
  rewrite (filter_duplicate _ _ _ _ _ Hv Hrow), Hk.
  unfold duplicateIssue, keysOf.
  pose proof Hne as Hne'. apply nonEmpty_true in Hne' as ->. simpl.
  repeat case_bool_decide; try done.
  - exfalso. apply elem_of_seen in H as [H|[_ H]]; [|done].
    by apply elem_of_empty in H.
  - exfalso. apply H. apply elem_of_seen. right. done.
Qed.

(** C10: a row whose identity key is missing or coerces to the empty
    string gets no duplicate-key message, whatever the other rows are. *)
Theorem empty_key_never_duplicate
    datasetType (data : list DataRow) issues i row :
  validateDataset datasetType data = Ok issues ->
  data !! i = Some row ->
  keyOf datasetType row = "" ->
  List.filter (isDuplicateIssue datasetType (i + 1)) issues = [].
Proof.
  intros Hv Hrow Hk.
  rewrite (filter_duplicate _ _ _ _ _ Hv Hrow), Hk. done.
Qed.

(** ** The range of [PriorityLevel] *)

Lemma filter_priority (data : list DataRow) issues i row :
  validateClientData data = Ok issues ->
  data !! i = Some row ->
  List.filter (isPriorityIssue (i + 1)) issues
  = numericIssue outside1to5 "PriorityLevel must be 1-5" "PriorityLevel"
                 (i + 1) row.
Proof.
  intros Hv Hrow. unfold isPriorityIssue.
  rewrite (filter_row clients _ _ _ _ _ Hv Hrow).
  unfold rowIssues, cellIssues. rewrite !List.filter_app.
  rewrite (filter_none _ (duplicateIssue _ _ _ _)).
  2:{ intros msg [-> _]%duplicateIssue_form. unfold msgDuplicate.
      by rewrite isRowIssue_same. }
  rewrite (filter_none _ (taskIdsIssue _ _)).
  2:{ unfold taskIdsIssue. intros msg H. destruct (_ && _);
        [|by apply elem_of_nil in H].
      apply list_elem_of_singleton in H as ->. unfold msgGot.
      by rewrite isRowIssue_same. }
  rewrite (filter_none _ (attributesIssue _ _)).
  2:{ unfold attributesIssue. intros msg H.
      destruct (parsed _ _); [|by apply elem_of_nil in H].
      destruct (Json.parse _); [by apply elem_of_nil in H|].
      apply list_elem_of_singleton in H as ->. unfold msgInvalidJson.
      by rewrite isRowIssue_same. }
  rewrite app_nil_r. simpl. unfold numericIssue.
  destruct (outside1to5 _); [|done]. simpl.
  unfold msgGot. by rewrite isRowIssue_same.
Qed.

Lemma outside1to5_eqb (n : number) (k : Z) :
  Num.eqb n (Num.ofZ k) = true ->
  outside1to5 n = negb ((1 <=? k)%Z && (k <=? 5)%Z).
Proof.
  destruct n as [| | |[a b]]; try done. unfold outside1to5, Num.ofZ. simpl.
  unfold Qeq_bool, Num.Qltb. simpl. intros H%Z.eqb_eq.
  rewrite !Z.mul_1_r in *. subst a.
  destruct (1 <=? k)%Z eqn:E1; destruct (k <=? 5)%Z eqn:E5; simpl;
    repeat match goal with
      | |- context [(?x <? ?y)%Z] => destruct (Z.ltb_spec x y)
      end; try done; exfalso; nia.
Qed.

(** C6: a clients row whose [PriorityLevel] is 0 or 6 gets the range
    message, and one whose [PriorityLevel] is an integer from 1 to 5 gets
    no range message. *)
Theorem priority_level_range (data : list DataRow) issues i row :
  validateClientData data = Ok issues ->
  data !! i = Some row ->
  ((Num.eqb (ToNumber (get "PriorityLevel" row)) (Num.ofZ 0) = true \/
    Num.eqb (ToNumber (get "PriorityLevel" row)) (Num.ofZ 6) = true) ->
   List.filter (isPriorityIssue (i + 1)) issues
   = [msgGot (i + 1) "PriorityLevel must be 1-5"
             (ToString (get "PriorityLevel" row))]) /\
  (forall k : Z,
     (1 <= k <= 5)%Z ->
     Num.eqb (ToNumber (get "PriorityLevel" row)) (Num.ofZ k) = true ->
     List.filter (isPriorityIssue (i + 1)) issues = []).
Proof.
  intros Hv Hrow. rewrite (filter_priority _ _ _ _ Hv Hrow).
  unfold numericIssue. split.
  - intros [H|H]; by rewrite (outside1to5_eqb _ _ H).
  - intros k Hk H. rewrite (outside1to5_eqb _ _ H).
    destruct (Z.leb_spec 1 k), (Z.leb_spec k 5); try lia. done.
Qed.

(** ** Rows *)

Lemma get_assign_eq f v row : get f (assign f v row) = v.
Proof.
  induction row as [|[k w] row IH]; simpl.
  - by rewrite String.eqb_refl.
  - destruct (String.eqb k f) eqn:E; simpl; by rewrite E.
Qed.

Lemma get_assign_ne f g v row : f ≠ g -> get g (assign f v row) = get g row.
Proof.
  intros Hne. induction row as [|[k w] row IH]; simpl.
  - by apply String.eqb_neq in Hne as ->.
  - destruct (String.eqb k f) eqn:E; simpl; [|by rewrite IH].
    apply String.eqb_eq in E as ->. by apply String.eqb_neq in Hne as ->.
Qed.

Lemma arrayIncludes_assign_ne f g v row :
  f ≠ g ->
  arrayIncludes g (keys (assign f v row)) = arrayIncludes g (keys row).
Proof.
  intros Hne. unfold arrayIncludes, keys.
  induction row as [|[k w] row IH]; simpl.
  - apply not_eq_sym in Hne. apply String.eqb_neq in Hne as ->. done.
  - destruct (String.eqb k f) eqn:E; simpl; [done|]. by rewrite IH.
Qed.

Lemma get_absent f row :
  arrayIncludes f (keys row) = false -> get f row = VUndefined.
Proof.
  unfold arrayIncludes, keys. induction row as [|[k w] row IH]; simpl; [done|].
  intros [H1 H2]%orb_false_iff. rewrite String.eqb_sym, H1. auto.
Qed.

(** A row without the key column, or with a falsy cell in it, has the
    empty identity key. *)
Lemma keyOf_falsy datasetType row :
  truthy (get (keyColumn datasetType) row) = false ->
  keyOf datasetType row = "".
Proof. unfold keyOf, js_or. by intros ->. Qed.

Lemma keyOf_missing datasetType row :
  arrayIncludes (keyColumn datasetType) (keys row) = false ->
  keyOf datasetType row = "".
Proof. intros H. apply keyOf_falsy. by rewrite (get_absent _ _ H). Qed.

(** ** A workers file without the [QualificationLevel] column *)

Lemma keyOf_withLevel row : keyOf workers (withLevel row) = keyOf workers row.
Proof. unfold keyOf, withLevel. simpl. by rewrite get_assign_ne. Qed.

(** The row without the column reports what the completed row reports,
    and the missing level after that. *)
Lemma rowIssues_withoutLevel ids index row :
  arrayIncludes "QualificationLevel" (keys row) = false ->
  rowIssues workers ids index row
  = rowIssues workers ids index (withLevel row)
    ++ [msgGot (index + 1) "QualificationLevel must be 1-5" "undefined"].
Proof.
  intros Habs. unfold rowIssues, cellIssues.
  rewrite keyOf_withLevel.
  unfold slotsIssue, numericIssue, textOf, withLevel.
  rewrite !get_assign_ne by done. rewrite get_assign_eq.
  rewrite (get_absent _ _ Habs). simpl.
  by rewrite !app_nil_r, <-!app_assoc.
Qed.

Lemma scan_withoutLevel (data : list DataRow) ids index :
  Forall (fun row => arrayIncludes "QualificationLevel" (keys row) = false)
         data ->
  scan workers ids index (map withLevel data) = [] ->
  scan workers ids index data
  = imap (fun i _ =>
            msgGot (index + i + 1) "QualificationLevel must be 1-5" "undefined")
         data.
Proof.
  revert ids index. induction data as [|row data IH]; intros ids index Habs H;
    [done|].
  apply Forall_cons in Habs as [Hrow Habs]. simpl in H.
  apply app_eq_nil in H as [H1 H2]. rewrite keyOf_withLevel in H2.
  simpl. rewrite (rowIssues_withoutLevel _ _ _ Hrow), H1. simpl.
  rewrite Nat.add_0_r. f_equal.
  rewrite (IH _ _ Habs H2). apply imap_ext. intros i r _. simpl.
  f_equal. lia.
Qed.

Lemma missing_withoutLevel row0 (data : list DataRow) :
  arrayIncludes "QualificationLevel" (keys row0) = false ->
  checkRequiredColumns workerColumns (withLevel row0 :: map withLevel data) []
  = [] ->
  checkRequiredColumns workerColumns (row0 :: data) []
  = [msgMissingColumns ["QualificationLevel"]].
Proof.
  intros Habs. unfold checkRequiredColumns, workerColumns, withLevel.
  cbn [List.filter]. rewrite !arrayIncludes_assign_ne by done.
  rewrite Habs.
  repeat match goal with
    | |- context [arrayIncludes ?c (keys row0)] =>
        destruct (arrayIncludes c (keys row0))
    end; simpl; try done; by intros ?%app_nil_cons_inv.
Qed.

(** C1 (as amended): on a workers dataset that has rows, none of them
    with a [QualificationLevel] property, and that is valid once the
    property is added with a level in range, [validateWorkerData] returns
    the message about the missing column followed by one
    [QualificationLevel] message per row, each reporting [undefined]. *)
Theorem missing_qualification_reported_per_row (data : list DataRow) :
  data ≠ [] ->
  Forall (fun row => arrayIncludes "QualificationLevel" (keys row) = false)
         data ->
  validateWorkerData (map withLevel data) = Ok [] ->
  validateWorkerData data
  = Ok (msgMissingColumns ["QualificationLevel"]
        :: imap (fun i _ =>
                   msgGot (i + 1) "QualificationLevel must be 1-5" "undefined")
                data).
Proof.
  intros Hne Habs.
  change (validateDataset workers (map withLevel data) = Ok [] ->
          validateDataset workers data = Ok
            (msgMissingColumns ["QualificationLevel"]
             :: imap (fun i _ => msgGot (i + 1)
                        "QualificationLevel must be 1-5" "undefined") data)).
  rewrite !validateDataset_scan. intros [= H].
  apply app_eq_nil in H as [H1 H2].
  change (requiredColumns workers) with workerColumns in *.
  destruct data as [|row0 data]; [done|]. f_equal.
  rewrite (scan_withoutLevel _ _ _ Habs H2).
  apply Forall_cons in Habs as [Hrow _].
  by rewrite (missing_withoutLevel row0 data Hrow H1).
Qed.

Lemma missing_qualification_reported_per_row_witness :
  validateWorkerData workersWithoutLevel
  = Ok [msgMissingColumns ["QualificationLevel"];
        msgGot 1 "QualificationLevel must be 1-5" "undefined";
        msgGot 2 "QualificationLevel must be 1-5" "undefined"].
Proof.
  apply (missing_qualification_reported_per_row workersWithoutLevel).
  - done.
  - repeat constructor.
  - vm_compute. reflexivity.
Defined.

(** C1 as stated fails: on the two sample workers, which lack only the
    [QualificationLevel] column and are valid otherwise, the result is not
    the single message about the missing column; it has three messages,
    two of them per-row [QualificationLevel] messages. *)
Lemma single_missing_column_issue_counterexample :
  Forall (fun row => arrayIncludes "QualificationLevel" (keys row) = false)
         workersWithoutLevel /\
  validateWorkerData (map withLevel workersWithoutLevel) = Ok [] /\
  validateWorkerData workersWithoutLevel
  = Ok [msgMissingColumns ["QualificationLevel"];
        msgGot 1 "QualificationLevel must be 1-5" "undefined";
        msgGot 2 "QualificationLevel must be 1-5" "undefined"] /\
  validateWorkerData workersWithoutLevel
  ≠ Ok [msgMissingColumns ["QualificationLevel"]] /\
  List.filter isQualificationIssue
    [msgMissingColumns ["QualificationLevel"];
     msgGot 1 "QualificationLevel must be 1-5" "undefined";
     msgGot 2 "QualificationLevel must be 1-5" "undefined"]
  = [msgGot 1 "QualificationLevel must be 1-5" "undefined";
     msgGot 2 "QualificationLevel must be 1-5" "undefined"].
Proof.
  split; [repeat constructor|].
  split; [by vm_compute|].
  split; [by vm_compute|].
  split; [by vm_compute|by vm_compute].
Qed.

(** ** Blank strings *)

Lemma trimStart_blank (s : string) :
  allChars Str.is_space s = true -> Str.trimStart s = "".
Proof.
  induction s as [|c s IH]; simpl; [done|].
  intros [Hc Hs]%andb_true_iff. rewrite Hc. auto.
Qed.

Lemma trimEnd_blank (s : string) :
  Str.trimEnd s = "" -> allChars Str.is_space s = true.
Proof.
  induction s as [|c s IH]; simpl; [done|].
  destruct (Str.trimEnd s); [|done].
  destruct (Str.is_space c); [|done]. auto.
Qed.

Lemma trimStart_head (s : string) :
  allChars Str.is_space s = true \/
  exists c r, Str.trimStart s = String c r /\ Str.is_space c = false.
Proof.
  induction s as [|c s IH]; simpl; [by left|].
  destruct (Str.is_space c) eqn:E; simpl; [done|]. right. by exists c, s.
Qed.

(** A string trims to the empty string exactly when it is empty or all
    white space. *)
Lemma trim_blank (s : string) :
  Str.trim s = "" <-> allChars Str.is_space s = true.
Proof.
  unfold Str.trim. split.
  - intros H. destruct (trimStart_head s) as [|(c & r & E & Hc)]; [done|].
    rewrite E in H. apply trimEnd_blank in H. simpl in H.
    by rewrite Hc in H.
  - intros H. by rewrite trimStart_blank.
Qed.

Lemma toLowerCase_blank (s : string) :
  allChars Str.is_space s = true ->
  allChars Str.is_space (Str.toLowerCase s) = true.
Proof.
  induction s as [|c s IH]; simpl; [done|].
  intros [Hc Hs]%andb_true_iff. rewrite (IH Hs), andb_true_r.
  destruct c as [[] [] [] [] [] [] [] []]; done.
Qed.

(** ** Search: the first matching pattern decides *)

(** A regular expression that starts with a letter finds no match in a
    blank string. *)
Lemma searchFrom_blank (r : regex) (s : string) p :
  (forall c s' st k,
     Str.is_space c = true ->
     Re.run (R := list (nat * string)) r (String c s') st k = None) ->
  (forall st k, Re.run (R := list (nat * string)) r "" st k = None) ->
  allChars Str.is_space s = true ->
  Re.searchFrom r p s = None.
Proof.
  intros Hc He. revert p. induction s as [|c s IH]; intros p Hs; simpl.
  - by rewrite He.
  - simpl in Hs. apply andb_true_iff in Hs as [H1 H2].
    rewrite Hc by done. auto.
Qed.

Lemma space_not_letter (c l : ascii) :
  Str.is_space c = true -> Str.is_lower l = true -> Ascii.eqb l c = false.
Proof.
  intros Hc Hl. destruct (Ascii.eqb_spec l c) as [->|]; [|done].
  destruct c as [[] [] [] [] [] [] [] []]; done.
Qed.

Lemma rePattern_blank l keyword op operand (s : string) :
  Str.is_lower l = true ->
  allChars Str.is_space s = true ->
  Re.exec (rePattern (String l keyword) op operand) s = None.
Proof.
  intros Hl Hs. apply searchFrom_blank; [| |done].
  - intros c s' st k Hc. simpl. unfold Re.lit at 1. simpl.
    by rewrite (space_not_letter _ _ Hc Hl).
  - done.
Qed.

Lemma searchPatterns_blank (s : string) i pattern filter :
  searchPatterns !! i = Some (pattern, filter) ->
  allChars Str.is_space s = true ->
  Re.exec pattern s = None.
Proof.
  intros Hi Hs. unfold searchPatterns in Hi.
  do 6 (destruct i as [|i];
        [injection Hi as <- _; by apply rePattern_blank|]).
  done.
Qed.

Lemma applyPatterns_first
    (patterns : list (regex * (string -> DataRow -> bool)))
    lowerQuery filters i pattern filter m :
  patterns !! i = Some (pattern, filter) ->
  Re.exec pattern lowerQuery = Some m ->
  (forall j p f,
     j < i -> patterns !! j = Some (p, f) -> Re.exec p lowerQuery = None) ->
  applyPatterns patterns lowerQuery filters
  = filters ++ [filter (Re.group 1 m)].
Proof.
  revert i. induction patterns as [|[p f] patterns IH]; intros i Hi Hm Hj.
  - by rewrite lookup_nil in Hi.
  - destruct i as [|i]; simpl in *.
    + injection Hi as -> ->. by rewrite Hm.
    + rewrite (Hj 0 p f) by (done || lia).
      apply (IH i); [done..|]. intros j p' f' Hlt Hp.
      apply (Hj (S j) p' f'); [lia|done].
Qed.

Lemma filter_every_singleton (f : DataRow -> bool) (data : list DataRow) :
  List.filter (fun row => forallb (fun filter => filter row) [f]) data
  = List.filter f data.
Proof. apply List.filter_ext. intros row. simpl. apply andb_true_r. Qed.

(** The result of a search whose first matching pattern is the one at
    index [i] of the table. *)
Lemma parseNaturalLanguageQuery_first query data i pattern filter m :
  searchPatterns !! i = Some (pattern, filter) ->
  Re.exec pattern (Str.toLowerCase query) = Some m ->
  (forall j p f,
     j < i -> searchPatterns !! j = Some (p, f) ->
     Re.exec p (Str.toLowerCase query) = None) ->
  parseNaturalLanguageQuery query data
  = List.filter (filter (Re.group 1 m)) data.
Proof.
  intros Hi Hm Hj. unfold parseNaturalLanguageQuery.
  destruct (Str.nonEmpty (Str.trim query)) eqn:E.
  - destruct data as [|row data]; [done|].
    change (negb true || (length (row :: data) =? 0)) with false.
    cbv beta iota zeta.
    rewrite (applyPatterns_first _ _ _ _ _ _ _ Hi Hm Hj).
    change (length ([] ++ [filter (Re.group 1 m)]) =? 0) with false.
    cbv iota. apply filter_every_singleton.
  - simpl. assert (Str.trim query = "") as Hb by (by destruct (Str.trim query)).
    apply trim_blank, toLowerCase_blank in Hb.
    by rewrite (searchPatterns_blank _ _ _ _ Hi Hb) in Hm.
Qed.



(** ** Search: the blank query *)

(** C4: an empty or white-space-only query returns the rows it was
    given, the same rows in the same order. *)
Theorem blank_query_identity (query : string) (data : list DataRow) :
  allChars Str.is_space query = true ->
  parseNaturalLanguageQuery query data = data.
Proof.
  intros H%trim_blank. unfold parseNaturalLanguageQuery. by rewrite H.
Qed.

Lemma blank_query_identity_witness :
  parseNaturalLanguageQuery "   " sampleClients = sampleClients /\
  parseNaturalLanguageQuery "" sampleClients = sampleClients.
Proof.
  split; apply blank_query_identity; reflexivity.
Defined.

(** ** Lower case *)

Lemma length_toLowerCase (s : string) :
  String.length (Str.toLowerCase s) = String.length s.
Proof. induction s; simpl; auto. Qed.

Lemma substring_toLowerCase (n m : nat) (s : string) :
  substring n m (Str.toLowerCase s) = Str.toLowerCase (substring n m s).
Proof.
  revert n m. induction s as [|c s IH]; intros [|n] [|m]; simpl; try done;
    by rewrite IH.
Qed.

Lemma is_space_lower (c : ascii) :
  Str.is_space (Str.lower_char c) = Str.is_space c.
Proof. destruct c as [[] [] [] [] [] [] [] []]; done. Qed.

Lemma is_digit_lower (c : ascii) :
  Str.is_digit (Str.lower_char c) = Str.is_digit c.
Proof. destruct c as [[] [] [] [] [] [] [] []]; done. Qed.

Lemma is_word_lower (c : ascii) :
  Str.is_word (Str.lower_char c) = Str.is_word c.
Proof. destruct c as [[] [] [] [] [] [] [] []]; done. Qed.

Lemma lower_char_idem (c : ascii) :
  Str.lower_char (Str.lower_char c) = Str.lower_char c.
Proof. destruct c as [[] [] [] [] [] [] [] []]; done. Qed.

Lemma digitVal_lower (c : ascii) :
  Num.digitVal (Str.lower_char c) = Num.digitVal c.
Proof. destruct c as [[] [] [] [] [] [] [] []]; done. Qed.

Lemma toLowerCase_idem (s : string) :
  Str.toLowerCase (Str.toLowerCase s) = Str.toLowerCase s.
Proof. induction s; simpl; [done|]. by rewrite lower_char_idem, IHs. Qed.

(** ** Matching a lower-cased input *)

Section RunLower.

Context {R R' : Type} (g : R -> R').

(** A case-blind regular expression matches the lower-cased input the
    way it matches the input, with the groups in lower case. *)
Lemma run_toLowerCase (r : regex) :
  caseBlind r ->
  forall (s : string) (st : Re.mstate)
         (k : string -> Re.mstate -> option R)
         (k' : string -> Re.mstate -> option R'),
    (forall s' st',
       k' (Str.toLowerCase s') (lowerState st') = g <$> k s' st') ->
    Re.run r (Str.toLowerCase s) (lowerState st) k' = g <$> Re.run r s st k.
Proof.
  induction r as [|p|r1 IH1 r2 IH2|r IH|r IH|i r IH| |];
    intros Hci s st k k' Hk; simpl in Hci.
  - apply Hk.
  - destruct s as [|c s]; simpl; [done|]. rewrite Hci.
    destruct (p c); [|done]. apply (Hk s (Re.advance st)).
  - destruct Hci as [H1 H2]. simpl. apply IH1; [done|].
    intros s' st'. by apply IH2.
  - simpl. rewrite length_toLowerCase.
    generalize (String.length s). intros n.
    revert s st. induction n as [|n IHn]; intros s st; [apply Hk|].
    cbn beta iota.
    lazymatch goal with
    | |- match Re.run r _ _ ?K' with _ => _ end
         = g <$> match Re.run r s st ?K with _ => _ end =>
        rewrite (IH Hci s st K K')
    end.
    + destruct (Re.run r s st _); simpl; [done|]. apply Hk.
    + intros s' st'. rewrite !length_toLowerCase.
      destruct (_ <? _); [apply IHn|done].
  - simpl. erewrite (IH Hci s st); [|exact Hk].
    destruct (Re.run r s st k); simpl; [done|]. apply Hk.
  - simpl. apply IH; [done|]. intros s' st'.
    rewrite !length_toLowerCase. unfold Re.prefix.
    rewrite substring_toLowerCase.
    apply (Hk s' (Re.bindGroup i _ st')).
  - simpl. destruct (Re.pos st =? 0); [apply Hk|done].
  - destruct s; simpl; [apply (Hk "")|done].
Qed.

End RunLower.

Lemma searchFrom_toLowerCase (r : regex) (s : string) (p : nat) :
  caseBlind r ->
  Re.searchFrom r p (Str.toLowerCase s) = lowerGroups <$> Re.searchFrom r p s.
Proof.
  intros Hci. revert p. induction s as [|c s IH]; intros p.
  - pose proof (run_toLowerCase lowerGroups r Hci ""
                  {| Re.pos := p; Re.caps := [] |}
                  (fun _ st => Some (Re.caps st))
                  (fun _ st => Some (Re.caps st))
                  (fun _ _ => eq_refl)) as H.
    change (Re.run r "" {| Re.pos := p; Re.caps := [] |}
              (fun _ st => Some (Re.caps st))
            = lowerGroups <$>
              Re.run r "" {| Re.pos := p; Re.caps := [] |}
                (fun _ st => Some (Re.caps st))) in H.
    simpl. destruct (Re.run r "" _ _) as [m|] eqn:E; [exact H|done].
  - cbn [Re.searchFrom Str.toLowerCase].
    change (String (Str.lower_char c) (Str.toLowerCase s))
      with (Str.toLowerCase (String c s)).
    rewrite (run_toLowerCase lowerGroups r Hci (String c s)
               {| Re.pos := p; Re.caps := [] |}
               (fun _ st => Some (Re.caps st))); [|done].
    destruct (Re.run r (String c s) _ _); simpl; [done|]. apply IH.
Qed.

(** [s.toLowerCase().match(r)] finds what [s.match(r)] finds, in lower
    case. *)
Lemma exec_toLowerCase (r : regex) (s : string) :
  caseBlind r ->
  Re.exec r (Str.toLowerCase s) = lowerGroups <$> Re.exec r s.
Proof. apply searchFrom_toLowerCase. Qed.

Lemma group_lowerGroups (i : nat) (m : list (nat * string)) :
  Re.group i (lowerGroups m) = Str.toLowerCase (Re.group i m).
Proof.
  induction m as [|[j t] m IH]; simpl; [done|]. by destruct (i =? j).
Qed.

(** ** [parseInt] does not depend on case *)

Lemma trimStart_toLowerCase (s : string) :
  Str.trimStart (Str.toLowerCase s) = Str.toLowerCase (Str.trimStart s).
Proof.
  induction s as [|c s IH]; simpl; [done|]. rewrite is_space_lower.
  by destruct (Str.is_space c).
Qed.

Lemma sign_toLowerCase (t : string) :
  Num.sign (Str.toLowerCase t)
  = ((Num.sign t).1, Str.toLowerCase (Num.sign t).2).
Proof.
  destruct t as [|c t]; [done|].
  destruct c as [[] [] [] [] [] [] [] []]; done.
Qed.

Lemma radixPrefix_toLowerCase (u : string) :
  Num.radixPrefix (Str.toLowerCase u)
  = ((Num.radixPrefix u).1, Str.toLowerCase (Num.radixPrefix u).2).
Proof.
  destruct u as [|c1 [|c2 r]]; [done| |].
  - destruct c1 as [[] [] [] [] [] [] [] []]; done.
  - destruct c1 as [[] [] [] [] [] [] [] []]; try done.
    destruct c2 as [[] [] [] [] [] [] [] []]; done.
Qed.

Lemma span_toLowerCase (p : ascii -> bool) (s : string) :
  (forall c, p (Str.lower_char c) = p c) ->
  Str.span p (Str.toLowerCase s)
  = (Str.toLowerCase (Str.span p s).1, Str.toLowerCase (Str.span p s).2).
Proof.
  intros Hp. induction s as [|c s IH]; simpl; [done|]. rewrite Hp.
  destruct (p c); [|done]. rewrite IH. by destruct (Str.span p s).
Qed.

Lemma digitsVal_toLowerCase radix acc (s : string) :
  Num.digitsVal radix acc (Str.toLowerCase s) = Num.digitsVal radix acc s.
Proof.
  revert acc. induction s as [|c s IH]; intros acc; simpl; [done|].
  by rewrite digitVal_lower, IH.
Qed.

Lemma nonEmpty_toLowerCase (s : string) :
  Str.nonEmpty (Str.toLowerCase s) = Str.nonEmpty s.
Proof. by destruct s. Qed.

Lemma parseInt_toLowerCase (s : string) :
  Num.parseInt (Str.toLowerCase s) = Num.parseInt s.
Proof.
  unfold Num.parseInt.
  rewrite trimStart_toLowerCase, sign_toLowerCase.
  destruct (Num.sign (Str.trimStart s)) as [sg u]. simpl.
  rewrite radixPrefix_toLowerCase.
  destruct (Num.radixPrefix u) as [radix ds]. simpl.
  rewrite span_toLowerCase
    by (intros c; unfold Num.isDigitIn; by rewrite digitVal_lower).
  destruct (Str.span (Num.isDigitIn radix) ds) as [d rest]. simpl.
  by rewrite nonEmpty_toLowerCase, digitsVal_toLowerCase.
Qed.

(** ** Commands *)

Lemma caseBlind_word (w : string) : caseBlind (Re.word Re.liti w).
Proof.
  induction w as [|c w IH]; simpl; [done|]. split; [|done].
  intros x. by rewrite lower_char_idem.
Qed.

Lemma caseBlind_spaces : caseBlind spaces.
Proof. split; exact is_space_lower. Qed.

Lemma caseBlind_liti (c : ascii) : caseBlind (Re.liti c).
Proof. intros x. simpl. by rewrite lower_char_idem. Qed.

Lemma caseBlind_digits : caseBlind (Re.plus Re.digit).
Proof. split; exact is_digit_lower. Qed.

Lemma caseBlind_wordChars : caseBlind (Re.plus Re.wordChar).
Proof. split; exact is_word_lower. Qed.

Create HintDb caseblind.

#[local] Hint Resolve caseBlind_word caseBlind_spaces caseBlind_liti
  caseBlind_digits caseBlind_wordChars : caseblind.

Lemma caseBlind_rePriorityCommand : caseBlind rePriorityCommand.
Proof.
  unfold rePriorityCommand, Re.seq. cbn [foldr caseBlind].
  repeat split; auto with caseblind;
    try apply caseBlind_spaces; try apply caseBlind_digits.
Qed.

Lemma caseBlind_reLoadCommand : caseBlind reLoadCommand.
Proof.
  unfold reLoadCommand, Re.seq. cbn [foldr caseBlind].
  repeat split; auto with caseblind;
    try apply caseBlind_spaces; try apply caseBlind_digits;
    try apply caseBlind_wordChars.
Qed.

(** What the parser returns for a command of the second template that
    the first template does not match: a conditional set on the workers,
    where the group of the condition is the group token of the command in
    lower case. *)
Lemma load_command_parsed (command : string) m :
  Re.exec reLoadCommand command = Some m ->
  Re.exec rePriorityCommand command = None ->
  parseModificationCommand command
  = Some {| cmd_action := ActSet;
            cmd_field := "MaxLoadPerPhase";
            cmd_value := VNum (Num.parseInt (Re.group 1 m));
            cmd_condition :=
              Some {| cond_field := "WorkerGroup";
                      cond_operator := equals;
                      cond_value := VStr (Str.toLowerCase (Re.group 2 m)) |};
            cmd_dataset := workers |}.
Proof.
  intros Hload Hprio. unfold parseModificationCommand.
  rewrite (exec_toLowerCase _ _ caseBlind_rePriorityCommand), Hprio.
  rewrite (exec_toLowerCase _ _ caseBlind_reLoadCommand), Hload.
  simpl. by rewrite !group_lowerGroups, parseInt_toLowerCase.
Qed.

(** The templates are tried in order: a command that matches the first
    two is parsed by the first, as a change on the clients. *)
Example templates_tried_in_order :
  Re.test reLoadCommand doubleCommand = true /\
  (cmd_dataset <$> parseModificationCommand doubleCommand) = Some clients.
Proof. split; by vm_compute. Qed.

(** C2, at the input where the code departs from it: the command that the
    placeholder of the input field and the error message advertise.  The
    group token is typed [GroupB]; the parsed condition holds [groupb],
    because the templates are matched against the command in lower case;
    and the preview, which compares the cell and the value of the
    condition as they are, leaves a worker of [GroupB] unchanged. *)
Theorem load_command_loses_group_case :
  Re.exec reLoadCommand sampleCommand = Some [(2, "GroupB"); (1, "2")] /\
  parseModificationCommand sampleCommand = Some sampleLoadCommand /\
  cmd_condition sampleLoadCommand
  = Some {| cond_field := "WorkerGroup";
            cond_operator := equals;
            cond_value := VStr "groupb" |} /\
  handleCommandSubmit sampleCommand
    (fun _ => [workerRow "W2" "Bob" "sql" "[2,4]" "3" "GroupB"])
  = Preview sampleLoadCommand
      [workerRow "W2" "Bob" "sql" "[2,4]" "3" "GroupB"].
Proof. repeat split; by vm_compute. Qed.

(** ** Mutation preview *)

Lemma previewRow_other (parsedCommand : ModificationCommand) row f :
  f ≠ cmd_field parsedCommand ->
  get f (previewRow parsedCommand row) = get f row.
Proof.
  intros Hf. unfold previewRow.
  destruct (match cmd_condition parsedCommand with
            | Some c => conditionHolds c row
            | None => true
            end); [|done].
  by apply get_assign_ne.
Qed.

Lemma previewRow_unmatched (parsedCommand : ModificationCommand) row c :
  cmd_condition parsedCommand = Some c ->
  conditionHolds c row = false ->
  previewRow parsedCommand row = row.
Proof. intros Hc Hh. unfold previewRow. by rewrite Hc, Hh. Qed.

(** The preview [handleCommandSubmit] stores is the one of the parsed
    command on the dataset the command names. *)
Lemma handleCommandSubmit_preview command datasets parsedCommand preview :
  handleCommandSubmit command datasets = Preview parsedCommand preview ->
  parseModificationCommand command = Some parsedCommand /\
  preview = previewData parsedCommand (datasets (cmd_dataset parsedCommand)).
Proof.
  unfold handleCommandSubmit.
  destruct (negb _); [done|].
  destruct (parseModificationCommand command); [|done].
  by intros [= <- <-].
Qed.

(** C8: the preview has as many rows as the current data, in the same
    order; each preview row agrees with its original on every field other
    than the target field of the command; and a row that fails the
    condition of the command is its original. *)
Theorem preview_changes_only_target
    (parsedCommand : ModificationCommand) (currentData : list DataRow) :
  length (previewData parsedCommand currentData) = length currentData /\
  (forall i row,
     currentData !! i = Some row ->
     previewData parsedCommand currentData !! i
     = Some (previewRow parsedCommand row) /\
     (forall f,
        f ≠ cmd_field parsedCommand ->
        get f (previewRow parsedCommand row) = get f row) /\
     (forall c,
        cmd_condition parsedCommand = Some c ->
        conditionHolds c row = false ->
        previewRow parsedCommand row = row)).
Proof.
  unfold previewData. split; [apply length_map|].
  intros i row Hrow. split; [|split].
  - by rewrite list_lookup_fmap, Hrow.
  - intros f. apply previewRow_other.
  - intros c. apply previewRow_unmatched.
Qed.

Lemma preview_changes_only_target_witness :
  previewData sampleLoadCommand sampleWorkers !! 1
  = Some (previewRow sampleLoadCommand
            (workerRow "W2" "Bob" "sql" "[2,4]" "3" "GroupB")) /\
  previewRow sampleLoadCommand (workerRow "W2" "Bob" "sql" "[2,4]" "3" "GroupB")
  = workerRow "W2" "Bob" "sql" "[2,4]" "3" "GroupB" /\
  get "WorkerGroup"
      (previewRow sampleLoadCommand
         (workerRow "W1" "Ada" "python" "[1,2,3]" "4" "groupb"))
  = VStr "groupb".
Proof.
  destruct (proj2 (preview_changes_only_target sampleLoadCommand sampleWorkers)
              1 (workerRow "W2" "Bob" "sql" "[2,4]" "3" "GroupB") eq_refl)
    as (H1 & _ & H3).
  destruct (proj2 (preview_changes_only_target sampleLoadCommand sampleWorkers)
              0 (workerRow "W1" "Ada" "python" "[1,2,3]" "4" "groupb") eq_refl)
    as (_ & H2 & _).
  split; [exact H1|]. split; [by apply (H3 _ eq_refl)|].
  by rewrite (H2 "WorkerGroup").
Defined.

(** ** The validators never throw *)

(** The messages of a row are among the messages of the dataset. *)
Lemma rowIssues_reported datasetType (data : list DataRow) issues i row msg :
  validateDataset datasetType data = Ok issues ->
  data !! i = Some row ->
  msg ∈ cellIssues datasetType (i + 1) row ->
  msg ∈ issues.
Proof.
  rewrite validateDataset_scan. intros [= <-] Hrow Hmsg.
  rewrite (scan_split _ _ _ _ _ _ Hrow). unfold rowIssues.
  rewrite !elem_of_app. right. right. left. right. exact Hmsg.
Qed.

Lemma numericIssue_NaN bad what column rowNumber row :
  (bad = outside1to5 \/ bad = negative \/ bad = notPositive) ->
  ToNumber (get column row) = NaN ->
  numericIssue bad what column rowNumber row
  = [msgGot rowNumber what (ToString (get column row))].
Proof.
  intros Hbad H. unfold numericIssue. rewrite H.
  by destruct Hbad as [->|[->| ->]].
Qed.

Lemma numericChecks_reported datasetType rowNumber row column what :
  (column, what) ∈ numericChecks datasetType ->
  ToNumber (get column row) = NaN ->
  msgGot rowNumber what (ToString (get column row))
  ∈ cellIssues datasetType rowNumber row.
Proof.
  intros Hin Hnan. destruct datasetType; simpl in Hin;
    repeat (apply elem_of_cons in Hin as [[= -> ->]|Hin]);
    try (by apply elem_of_nil in Hin);
    unfold cellIssues; rewrite !elem_of_app.
  - left. rewrite numericIssue_NaN; by auto using list_elem_of_here.
  - right. left. rewrite numericIssue_NaN; by auto using list_elem_of_here.
  - right. right. rewrite numericIssue_NaN; by auto using list_elem_of_here.
  - left. rewrite numericIssue_NaN; by auto using list_elem_of_here.
  - right. right. rewrite numericIssue_NaN; by auto using list_elem_of_here.
Qed.

Lemma unparseable_reported datasetType rowNumber row :
  parsed (sentinel datasetType) (textOf (jsonColumn datasetType) row) = true ->
  Json.parse (textOf (jsonColumn datasetType) row) = Throw SyntaxError ->
  (datasetType = tasks ->
   Re.test reRange (textOf (jsonColumn datasetType) row) = false) ->
  msgUnparseable datasetType rowNumber (textOf (jsonColumn datasetType) row)
  ∈ cellIssues datasetType rowNumber row.
Proof.
  intros Hp Hj Hr. destruct datasetType; simpl in *;
    unfold cellIssues; rewrite !elem_of_app.
  - right. right. unfold attributesIssue. rewrite Hp, Hj. apply list_elem_of_here.
  - left. unfold slotsIssue. rewrite Hp, Hj. apply list_elem_of_here.
  - right. left. unfold phasesIssue. rewrite Hp, Hj, Hr by done.
    apply list_elem_of_here.
Qed.

(** C9 (as amended): [validateDataset] returns a list of messages on
    every dataset, it never throws.  Whatever the other cells and rows
    hold, the list has the message of every numeric cell that is not a
    number, and the message of every JSON cell that is parsed (not empty,
    not the value the validator lets through) and does not parse; for the
    phases of a task, unless the cell is a range. *)
Theorem validation_never_throws datasetType (data : list DataRow) :
  exists issues,
    validateDataset datasetType data = Ok issues /\
    forall i row,
      data !! i = Some row ->
      (forall column what,
         (column, what) ∈ numericChecks datasetType ->
         ToNumber (get column row) = NaN ->
         msgGot (i + 1) what (ToString (get column row)) ∈ issues) /\
      (parsed (sentinel datasetType) (textOf (jsonColumn datasetType) row)
       = true ->
       Json.parse (textOf (jsonColumn datasetType) row) = Throw SyntaxError ->
       (datasetType = tasks ->
        Re.test reRange (textOf (jsonColumn datasetType) row) = false) ->
       msgUnparseable datasetType (i + 1)
                      (textOf (jsonColumn datasetType) row) ∈ issues).
Proof.
  eexists. split; [apply validateDataset_scan|].
  intros i row Hrow. split.
  - intros column what Hin Hnan.
    eapply rowIssues_reported;
      eauto using validateDataset_scan, numericChecks_reported.
  - intros Hp Hj Hr.
    eapply rowIssues_reported;
      eauto using validateDataset_scan, unparseable_reported.
Qed.

Lemma validation_never_throws_witness :
  exists issues,
    validateDataset clients malformedClients = Ok issues /\
    msgGot 1 "PriorityLevel must be 1-5" "high" ∈ issues /\
    msgInvalidJson 2 "{oops" ∈ issues.
Proof.
  destruct (validation_never_throws clients malformedClients)
    as (issues & Hv & H).
  exists issues. split; [exact Hv|]. split.
  - apply (proj1 (H 0 _ eq_refl) "PriorityLevel" "PriorityLevel must be 1-5").
    + apply list_elem_of_here.
    + reflexivity.
  - apply (proj2 (H 1 _ eq_refl)); [reflexivity|reflexivity|discriminate].
Defined.

(** C9 as stated fails in one respect: a cell of unparseable JSON does not
    always produce a message.  The attributes [INVALID_JSON] do not
    parse, and the row is reported clean. *)
Lemma unparseable_cell_reported_counterexample :
  Json.parse (textOf "AttributesJSON" clientWithSentinel) = Throw SyntaxError /\
  validateDataset clients [clientWithSentinel] = Ok [].
Proof. split; by vm_compute. Qed.

(** ** Sample runs of the validators *)

Lemma duplicate_key_flagged_after_first_witness :
  exists issues,
    validateDataset clients repeatedClients = Ok issues /\
    List.filter (isDuplicateIssue clients 1) issues = [] /\
    List.filter (isDuplicateIssue clients 3) issues
    = [msgDuplicate "ClientID" 3 "C1"].
Proof.
  eexists. split; [by vm_compute|]. split.
  - exact (duplicate_key_flagged_after_first clients repeatedClients _ 0
             (fullClient "C1" "3" "T1" "GroupA" "{}") "C1"
             eq_refl eq_refl eq_refl ltac:(discriminate)).
  - exact (duplicate_key_flagged_after_first clients repeatedClients _ 2
             (fullClient "C1" "5" "T3" "GroupA" "{}") "C1"
             eq_refl eq_refl eq_refl ltac:(discriminate)).
Defined.

(** C5 as stated fails for the empty key: the second sample row carries
    the key of the first, the empty string, and gets no duplicate-key
    message; the dataset is reported clean. *)
Lemma duplicate_key_every_value_counterexample :
  blankKeyClients !! 1 = Some (fullClient "" "1" "T2" "GroupB" "{}") /\
  keyOf clients (fullClient "" "1" "T2" "GroupB" "{}") = "" /\
  "" ∈ map (keyOf clients) (take 1 blankKeyClients) /\
  validateDataset clients blankKeyClients = Ok [] /\
  List.filter (isDuplicateIssue clients 2) []
  ≠ [msgDuplicate "ClientID" 2 ""].
Proof.
  split; [done|]. split; [done|]. split; [apply list_elem_of_here|].
  split; [by vm_compute|done].
Qed.

Lemma empty_key_never_duplicate_witness :
  exists issues,
    validateDataset clients blankKeyClients = Ok issues /\
    List.filter (isDuplicateIssue clients 2) issues = [].
Proof.
  eexists. split; [by vm_compute|].
  exact (empty_key_never_duplicate clients blankKeyClients _ 1
           (fullClient "" "1" "T2" "GroupB" "{}") eq_refl eq_refl eq_refl).
Defined.

Lemma priority_level_range_witness :
  exists issues,
    validateClientData priorityClients = Ok issues /\
    List.filter (isPriorityIssue 1) issues
    = [msgGot 1 "PriorityLevel must be 1-5" "0"] /\
    List.filter (isPriorityIssue 2) issues
    = [msgGot 2 "PriorityLevel must be 1-5" "6"] /\
    List.filter (isPriorityIssue 3) issues = [].
Proof.
  eexists. split; [by vm_compute|]. split; [|split].
  - apply (proj1 (priority_level_range priorityClients _ 0
                    (fullClient "C1" "0" "T1" "GroupA" "{}") eq_refl eq_refl)).
    by left.
  - apply (proj1 (priority_level_range priorityClients _ 1
                    (fullClient "C2" "6" "T2" "GroupB" "{}") eq_refl eq_refl)).
    by right.
  - apply (proj2 (priority_level_range priorityClients _ 2
                    (fullClient "C3" "3" "T3" "GroupA" "{}") eq_refl eq_refl)
             3%Z); [lia|done].
Defined.

(** ** The co-occurrence tally *)

Lemma mapGet_mapSet (key k : string) (v : nat) (m : list (string * nat)) :
  mapGet k (mapSet key v m)
  = if String.eqb key k then Some v else mapGet k m.
Proof.
  induction m as [|[k' w] m IH]; simpl.
  - done.
  - destruct (String.eqb k' key) eqn:E; simpl.
    + apply String.eqb_eq in E as ->. by destruct (String.eqb key k).
    + rewrite IH. destruct (String.eqb k' k) eqn:E'; [|done].
      apply String.eqb_eq in E' as ->. rewrite String.eqb_sym in E.
      by rewrite E.
Qed.

(** Counting a list of keys adds, for each key, its number of
    occurrences. *)
Lemma mapGet_count (k : string) (ps : list string) (m : list (string * nat)) :
  default 0 (mapGet k (foldl countPair m ps))
  = default 0 (mapGet k m) + length (List.filter (String.eqb k) ps).
Proof.
  revert m. induction ps as [|p ps IH]; intros m; simpl; [lia|].
  rewrite IH. unfold countPair at 1. rewrite mapGet_mapSet.
  rewrite (String.eqb_sym k p).
  destruct (String.eqb p k) eqn:E; simpl; [|done].
  apply String.eqb_eq in E as ->. lia.
Qed.

(** The count of a key in the map is the number of times the pairs of
    the clients produce that key. *)
Lemma taskCooccurrence_count (k : string) (clients : list DataRow) :
  default 0 (mapGet k (taskCooccurrence clients)) = keyCount k clients.
Proof.
  unfold taskCooccurrence, keyCount.
  assert (forall m,
            default 0 (mapGet k
              (foldl (fun m client =>
                        foldl countPair m (pairKeys (requestedTaskIds client)))
                     m clients))
            = default 0 (mapGet k m)
              + length (List.filter (String.eqb k)
                  (flat_map (fun client => pairKeys (requestedTaskIds client))
                            clients))) as H.
  { induction clients as [|c clients IH]; intros m; simpl; [lia|].
    rewrite IH, mapGet_count, List.filter_app, length_app. lia. }
  by rewrite H.
Qed.

(** ** The sort *)

Lemma insertByCount_perm x l : insertByCount x l ≡ₚ x :: l.
Proof.
  induction l as [|y l IH]; simpl; [done|].
  destruct (x.2 <? y.2); [|done]. rewrite IH. apply Permutation_swap.
Qed.

Lemma sortByCount_perm l : sortByCount l ≡ₚ l.
Proof.
  induction l as [|x l IH]; simpl; [done|].
  by rewrite insertByCount_perm, IH.
Qed.

Lemma insertByCount_sorted x l :
  StronglySorted (fun a b : string * nat => b.2 <= a.2) l ->
  StronglySorted (fun a b : string * nat => b.2 <= a.2) (insertByCount x l).
Proof.
  induction 1 as [|y l Hl IH Hy]; simpl.
  - repeat constructor.
  - destruct (Nat.ltb_spec x.2 y.2).
    + constructor; [done|].
      rewrite insertByCount_perm. constructor; [lia|done].
    + constructor; [by constructor|].
      constructor; [lia|]. eapply Forall_impl; [exact Hy|]. simpl. lia.
Qed.

(** The sorted entries are in descending order of count. *)
Lemma sortByCount_sorted l :
  StronglySorted (fun a b : string * nat => b.2 <= a.2) (sortByCount l).
Proof.
  induction l as [|x l IH]; simpl; [constructor|].
  by apply insertByCount_sorted.
Qed.

(** The sort is stable: entries of equal count keep their order. *)
Lemma sortByCount_stable (c : nat) l :
  List.filter (fun e : string * nat => e.2 =? c) (sortByCount l)
  = List.filter (fun e : string * nat => e.2 =? c) l.
Proof.
  induction l as [|x l IH]; simpl; [done|]. rewrite <-IH.
  generalize (sortByCount l). clear IH. intros s.
  induction s as [|y s IH]; simpl; [done|].
  destruct (Nat.ltb_spec x.2 y.2); simpl; [|done]. rewrite IH. simpl.
  destruct (Nat.eqb_spec x.2 c), (Nat.eqb_spec y.2 c); try done. lia.
Qed.

(** ** The recommendations *)

(** At most three pairs are kept, and no pair left out has a higher
    count than a pair kept. *)
Lemma sortedPairs_top (clients : list DataRow) :
  length (sortedPairs clients) <= 3 /\
  forall kept dropped,
    kept ∈ sortedPairs clients ->
    dropped ∈ drop 3 (sortByCount (taskCooccurrence clients)) ->
    dropped.2 <= kept.2.
Proof.
  unfold sortedPairs. split; [rewrite length_take; lia|].
  intros kept dropped Hk Hd.
  pose proof (sortByCount_sorted (taskCooccurrence clients)) as Hs.
  rewrite <-(take_drop 3 (sortByCount _)) in Hs.
  exact (StronglySorted_app_1_elem_of _ _ _ kept dropped Hs Hk Hd).
Qed.

(** A recommendation is pushed exactly for the kept pairs counted twice
    or more. *)
Lemma coRunRecommendations_spec (clients : list DataRow) r :
  r ∈ coRunRecommendations clients <->
  exists entry,
    entry ∈ sortedPairs clients /\ 2 <= entry.2 /\
    r = coRunRecommendation entry.1 entry.2.
Proof.
  unfold coRunRecommendations. rewrite list_elem_of_In, in_flat_map.
  setoid_rewrite <-list_elem_of_In. split.
  - intros (entry & He & Hr). exists entry. split; [done|].
    destruct (Nat.leb_spec 2 entry.2); [|by apply elem_of_nil in Hr].
    by apply list_elem_of_singleton in Hr.
  - intros (entry & He & Hc & ->). exists entry. split; [done|].
    apply Nat.leb_le in Hc as ->. apply list_elem_of_here.
Qed.

(** The confidence of a recommendation is [count / 5] up to 4 and [0.9]
    from 5 on. *)
Lemma coRunRecommendation_confidence (key : string) (count : nat) :
  rec_confidence (coRunRecommendation key count)
  = Num.min (Num.div (Num.ofNat count) (Num.ofZ 5)) (Fin (9 # 10)).
Proof. reflexivity. Qed.

(** The scenario of the specification: [T1-T2] is counted twice and
    recommended with confidence 2/5, [T1-T3] is counted once and is
    not recommended. *)
Lemma scenario_recommendations :
  taskCooccurrence scenarioClients = [("T1-T2", 2); ("T1-T3", 1)] /\
  coRunRecommendations scenarioClients = [coRunRecommendation "T1-T2" 2] /\
  rec_confidence (coRunRecommendation "T1-T2" 2) = Fin (2 # 5).
Proof. repeat split; by vm_compute. Qed.

(** C7, at the inputs where the code departs from it.  Two clients
    request [T1] and [T2] together, in different orders: the pair is
    requested together twice, the map holds two keys counted once each,
    and nothing is recommended.  With a third client the pair is
    requested together three times, and the recommendation reports two
    clients. *)
Theorem swapped_requests_not_recommended :
  togetherCount "T1" "T2" swappedClients = 2 /\
  taskCooccurrence swappedClients = [("T1-T2", 1); ("T2-T1", 1)] /\
  coRunRecommendations swappedClients = [] /\
  togetherCount "T1" "T2" mixedClients = 3 /\
  coRunRecommendations mixedClients = [coRunRecommendation "T1-T2" 2] /\
  rec_reasoning (coRunRecommendation "T1-T2" 2)
  = "Found 2 clients requesting both tasks together".
Proof. repeat split; by vm_compute. Qed.

(* ================================================================== *)
(** * Further properties *)

(** ** Search: what every query does *)

Lemma filter_sublist {A} (p : A -> bool) (l : list A) :
  List.filter p l `sublist_of` l.
Proof.
  induction l as [|x l IH]; simpl; [constructor|].
  destruct (p x); by constructor.
Qed.

Lemma filter_idem {A} (p : A -> bool) (l : list A) :
  List.filter p (List.filter p l) = List.filter p l.
Proof.
  induction l as [|x l IH]; simpl; [done|].
  destruct (p x) eqn:E; simpl; [|done]. by rewrite E, IH.
Qed.

(** The filters a query selects: those of the first matching pattern, or
    the text search. *)
Lemma parseNaturalLanguageQuery_filter query (data : list DataRow) :
  parseNaturalLanguageQuery query data = data \/
  exists f : DataRow -> bool,
    (forall data' : list DataRow,
       data' ≠ [] ->
       parseNaturalLanguageQuery query data' = List.filter f data') /\
    parseNaturalLanguageQuery query data = List.filter f data.
Proof.
  unfold parseNaturalLanguageQuery.
  destruct (Str.nonEmpty (Str.trim query)); simpl; [|by left].
  right. eexists. split.
  - intros [|row data'] Hne; [done|]. reflexivity.
  - destruct data; reflexivity.
Qed.

(** A search returns rows of the data, in the order of the data: it
    never adds, repeats or reorders rows. *)
Theorem search_returns_sublist query (data : list DataRow) :
  parseNaturalLanguageQuery query data `sublist_of` data.
Proof.
  destruct (parseNaturalLanguageQuery_filter query data)
    as [->|(f & _ & ->)]; [reflexivity|apply filter_sublist].
Qed.

(** Searching the result of a search with the same query changes
    nothing. *)
Theorem search_idempotent query (data : list DataRow) :
  parseNaturalLanguageQuery query (parseNaturalLanguageQuery query data)
  = parseNaturalLanguageQuery query data.
Proof.
  destruct (parseNaturalLanguageQuery_filter query data)
    as [H|(f & Hf & H)]; [by rewrite !H|]. rewrite H.
  destruct (List.filter f data) as [|row rest] eqn:E.
  - unfold parseNaturalLanguageQuery. simpl. by rewrite orb_true_r.
  - rewrite Hf by done. rewrite <-E. apply filter_idem.
Qed.

Lemma allChars_space_toLowerCase (s : string) :
  allChars Str.is_space (Str.toLowerCase s) = allChars Str.is_space s.
Proof.
  induction s as [|c s IH]; simpl; [done|]. by rewrite is_space_lower, IH.
Qed.

Lemma nonEmpty_trim_toLowerCase (s : string) :
  Str.nonEmpty (Str.trim (Str.toLowerCase s)) = Str.nonEmpty (Str.trim s).
Proof.
  destruct (allChars Str.is_space s) eqn:E.
  - pose proof E as E'. rewrite <-allChars_space_toLowerCase in E'.
    apply trim_blank in E as ->. by apply trim_blank in E' as ->.
  - assert (Str.trim s ≠ "") as H1 by (rewrite trim_blank; congruence).
    assert (Str.trim (Str.toLowerCase s) ≠ "") as H2
      by (rewrite trim_blank, allChars_space_toLowerCase; congruence).
    apply nonEmpty_true in H1 as ->. by apply nonEmpty_true in H2 as ->.
Qed.

(** Two queries that differ only in the case of their letters give the
    same result. *)
Theorem search_ignores_case query1 query2 (data : list DataRow) :
  Str.toLowerCase query1 = Str.toLowerCase query2 ->
  parseNaturalLanguageQuery query1 data = parseNaturalLanguageQuery query2 data.
Proof.
  intros H. unfold parseNaturalLanguageQuery.
  rewrite <-(nonEmpty_trim_toLowerCase query1).
  rewrite <-(nonEmpty_trim_toLowerCase query2). by rewrite H.
Qed.

Lemma search_ignores_case_witness :
  parseNaturalLanguageQuery "PRIORITY > 2" sampleClients
  = parseNaturalLanguageQuery "priority > 2" sampleClients.
Proof. apply search_ignores_case. reflexivity. Defined.

(** ** The numeric checks, exactly *)

Lemma filter_single_row n what rest :
  List.filter (isRowIssue n what) [rowPrefix n +:+ rest]
  = if Str.startsWith what rest then [rowPrefix n +:+ rest] else [].
Proof. simpl. by rewrite isRowIssue_same. Qed.

Ltac starts_with_compute :=
  repeat match goal with
    | |- context [Str.startsWith ?a ?b] =>
        let v := eval vm_compute in (Str.startsWith a b) in
        change (Str.startsWith a b) with v
    end.

Ltac filter_pieces :=
  unfold duplicateIssue, numericIssue, taskIdsIssue, attributesIssue,
    slotsIssue, phasesIssue, msgDuplicate, msgGot, msgInvalidJson;
  rewrite ?List.filter_app;
  repeat match goal with
    | |- context [List.filter _ (if ?c then _ else _)] => destruct c
    | |- context [List.filter _ (match ?c with Ok _ => _ | Throw _ => _ end)] =>
        destruct c
    end;
  rewrite ?filter_single_row; starts_with_compute; try reflexivity.

(** The messages of row [i + 1] that start with the head of a numeric
    check are the message of that check, if it fails. *)
Lemma filter_numeric datasetType (data : list DataRow) issues i row
    column what (bad : number -> bool) :
  validateDataset datasetType data = Ok issues ->
  data !! i = Some row ->
  (column, what, bad) ∈ numericRules datasetType ->
  List.filter (isRowIssue (i + 1) what) issues
  = numericIssue bad what column (i + 1) row.
Proof.
  intros Hv Hrow Hin. rewrite (filter_row _ _ _ _ _ _ Hv Hrow).
  unfold rowIssues.
  destruct datasetType; simpl in Hin;
    repeat (apply elem_of_cons in Hin as [[= -> -> ->]|Hin]);
    try (by apply elem_of_nil in Hin);
    unfold cellIssues, keyColumn; filter_pieces.
Qed.

(** A numeric cell is reported exactly when [Number(cell)] fails the
    test of its column: the row gets the message of the check then, and no
    message with that head otherwise. *)
Theorem numeric_cell_flagged_exactly
    datasetType (data : list DataRow) issues i row column what
    (bad : number -> bool) :
  validateDataset datasetType data = Ok issues ->
  data !! i = Some row ->
  (column, what, bad) ∈ numericRules datasetType ->
  List.filter (isRowIssue (i + 1) what) issues
  = if bad (ToNumber (get column row))
    then [msgGot (i + 1) what (ToString (get column row))]
    else [].
Proof. apply filter_numeric. Qed.

Lemma numeric_cell_flagged_exactly_witness :
  exists issues,
    validateDataset clients priorityCells = Ok issues /\
    List.filter (isRowIssue 1 "PriorityLevel must be 1-5") issues
    = [msgGot 1 "PriorityLevel must be 1-5" ""] /\
    List.filter (isRowIssue 2 "PriorityLevel must be 1-5") issues = [] /\
    List.filter (isRowIssue 3 "PriorityLevel must be 1-5") issues
    = [msgGot 3 "PriorityLevel must be 1-5" "undefined"].
Proof.
  eexists. split; [by vm_compute|]. split; [|split].
  - exact (numeric_cell_flagged_exactly clients priorityCells _ 0 _
             "PriorityLevel" "PriorityLevel must be 1-5" outside1to5
             eq_refl eq_refl (list_elem_of_here _ _)).
  - exact (numeric_cell_flagged_exactly clients priorityCells _ 1 _
             "PriorityLevel" "PriorityLevel must be 1-5" outside1to5
             eq_refl eq_refl (list_elem_of_here _ _)).
  - exact (numeric_cell_flagged_exactly clients priorityCells _ 2 _
             "PriorityLevel" "PriorityLevel must be 1-5" outside1to5
             eq_refl eq_refl (list_elem_of_here _ _)).
Defined.

(** The three tests, on finite numbers, as bounds. *)
Lemma outside1to5_bounds (q : Q) :
  outside1to5 (Fin q) = false <-> (1 <= q /\ q <= 5)%Q.
Proof.
  unfold outside1to5, Num.gtb, Num.ltb, Num.ofZ, Num.Qltb, Qle. simpl.
  rewrite orb_false_iff, !Z.ltb_ge. lia.
Qed.

Lemma negative_bounds (q : Q) : negative (Fin q) = false <-> (0 <= q)%Q.
Proof.
  unfold negative, Num.ltb, Num.ofZ, Num.Qltb, Qle. simpl.
  rewrite Z.ltb_ge. lia.
Qed.

Lemma notPositive_bounds (q : Q) : notPositive (Fin q) = false <-> (0 < q)%Q.
Proof.
  unfold notPositive, Num.leb, Num.ltb, Num.ofZ, Num.Qltb, Qlt. simpl.
  rewrite negb_false_iff, Z.ltb_lt. lia.
Qed.

(** ** How many messages, and about which rows *)

Lemma length_rowIssues datasetType ids index row :
  length (rowIssues datasetType ids index row) <= 4.
Proof.
  unfold rowIssues, duplicateIssue.
  destruct datasetType;
    unfold cellIssues, numericIssue, taskIdsIssue, attributesIssue,
      slotsIssue, phasesIssue;
    rewrite ?length_app;
    repeat match goal with
      | |- context [length (if ?c then _ else _)] => destruct c
      | |- context [length (match ?c with Ok _ => _ | Throw _ => _ end)] =>
          destruct c
      end; simpl; lia.
Qed.

Lemma length_scan datasetType (data : list DataRow) ids index :
  length (scan datasetType ids index data) <= 4 * length data.
Proof.
  revert ids index. induction data as [|row data IH]; intros ids index;
    simpl; [lia|].
  rewrite length_app. etransitivity;
    [apply Nat.add_le_mono; [apply length_rowIssues|apply IH]|lia].
Qed.

Lemma length_checkRequiredColumns columns (data : list DataRow) :
  length (checkRequiredColumns columns data []) <= 1.
Proof.
  unfold checkRequiredColumns. destruct data as [|row0 data]; simpl; [lia|].
  destruct (0 <? _); simpl; lia.
Qed.

Lemma length_filter_le {A} (p : A -> bool) (l : list A) :
  length (List.filter p l) <= length l.
Proof.
  induction l as [|x l IH]; simpl; [done|]. destruct (p x); simpl; lia.
Qed.

(** A validator returns at most one message about the columns and at most
    four messages about each row, and every message is of one of the two
    kinds: it names missing columns, or it names a row of the dataset, its
    number being between 1 and the number of rows. *)
Theorem issues_bounded datasetType (data : list DataRow) :
  exists issues,
    validateDataset datasetType data = Ok issues /\
    length issues <= 1 + 4 * length data /\
    length (List.filter isColumnsIssue issues) <= 1 /\
    (forall n, length (List.filter (isRowIssue n "") issues) <= 4) /\
    forall msg, msg ∈ issues ->
      (exists columns,
         columns ≠ [] /\ msg = msgMissingColumns columns /\
         isColumnsIssue msg = true) \/
      (exists n rest,
         1 <= n <= length data /\ msg = rowPrefix n +:+ rest /\
         isRowIssue n "" msg = true /\ isColumnsIssue msg = false).
Proof.
  eexists. split; [apply validateDataset_scan|].
  pose proof (length_checkRequiredColumns (requiredColumns datasetType) data)
    as Hhead.
  split; [|split; [|split]].
  - rewrite length_app.
    pose proof (length_scan datasetType data ∅ 0). lia.
  - rewrite List.filter_app, length_app.
    rewrite (filter_none isColumnsIssue (scan datasetType ∅ 0 data)).
    + pose proof (length_filter_le isColumnsIssue
                    (checkRequiredColumns (requiredColumns datasetType) data [])).
      simpl. lia.
    + intros msg H. apply scan_form in H as (j & rest & _ & ->).
      unfold isColumnsIssue. by rewrite rowPrefix_unfold.
  - intros n.
    destruct (decide (1 <= n <= length data)) as [Hn|Hn].
    + destruct (lookup_lt_is_Some_2 data (n - 1)) as [row Hrow]; [lia|].
      replace n with (n - 1 + 1) by lia.
      rewrite (filter_row datasetType data _ (n - 1) row ""
                 (validateDataset_scan datasetType data) Hrow).
      etransitivity; [apply length_filter_le|apply length_rowIssues].
    + rewrite List.filter_app, filter_header, filter_scan_other by lia. simpl. lia.
  - intros msg [H|H]%elem_of_app.
    + left. unfold checkRequiredColumns in H.
      destruct data as [|row0 data]; [by apply elem_of_nil in H|].
      destruct (0 <? _) eqn:E; [|by apply elem_of_nil in H].
      apply list_elem_of_singleton in H as ->. eexists.
      split; [|split; [done|by unfold isColumnsIssue, msgMissingColumns]].
      apply Nat.ltb_lt in E. intros E'. rewrite E' in E. simpl in E. lia.
    + right. apply scan_form in H as (j & rest & Hj & ->).
      exists (j + 1), rest. split; [lia|]. split; [done|]. split.
      * by rewrite isRowIssue_same.
      * unfold isColumnsIssue. by rewrite rowPrefix_unfold.
Qed.

(** ** Duplicate messages and distinct keys *)

Lemma isDuplicateIssue_cell datasetType n m row msg :
  msg ∈ cellIssues datasetType m row ->
  isDuplicateIssue datasetType n msg = false.
Proof.
  intros (head & rest & Hh & ->)%cellIssues_form. unfold isDuplicateIssue.
  destruct (isRowIssue n _ _) eqn:E; [|done].
  pose proof (isRowIssue_row _ _ _ _ E) as ->.
  rewrite isRowIssue_same in E. by rewrite startsWith_duplicate_cell in E.
Qed.

Lemma isDuplicateIssue_duplicate datasetType n id :
  isDuplicateIssue datasetType n (msgDuplicate (keyColumn datasetType) n id)
  = true.
Proof.
  unfold isDuplicateIssue, msgDuplicate. rewrite isRowIssue_same.
  by destruct datasetType.
Qed.

Lemma scan_no_duplicate datasetType (data : list DataRow) ids index :
  (forall msg n, msg ∈ scan datasetType ids index data ->
                 isDuplicateIssue datasetType n msg = false)
  <-> NoDup (List.filter Str.nonEmpty (map (keyOf datasetType) data)) /\
      forall k, k ∈ List.filter Str.nonEmpty (map (keyOf datasetType) data) ->
                k ∉ ids.
Proof.
  revert ids index. induction data as [|row data IH]; intros ids index; simpl.
  - split; [|by intros _ msg n ?%elem_of_nil].
    intros _. split; [constructor|]. by intros k ?%elem_of_nil.
  - set (id := keyOf datasetType row).
    assert ((forall msg n,
               msg ∈ rowIssues datasetType ids index row ++
                     scan datasetType (seenAfter id ids) (S index) data ->
               isDuplicateIssue datasetType n msg = false)
            <-> (Str.nonEmpty id = true -> id ∉ ids) /\
                (forall msg n,
                   msg ∈ scan datasetType (seenAfter id ids) (S index) data ->
                   isDuplicateIssue datasetType n msg = false)) as Hstep.
    { split.
      - intros H. split; [|by intros msg n Hm; apply H, elem_of_app; right].
        intros Hne Hin.
        specialize (H (msgDuplicate (keyColumn datasetType) (index + 1) id)
                      (index + 1)).
        rewrite isDuplicateIssue_duplicate in H. discriminate H.
        apply elem_of_app. left. unfold rowIssues. apply elem_of_app. left.
        unfold duplicateIssue. fold id. rewrite Hne, bool_decide_eq_true_2 by done.
        by apply list_elem_of_singleton.
      - intros [Hid Hs] msg n [Hm|Hm]%elem_of_app; [|by apply Hs].
        unfold rowIssues in Hm. apply elem_of_app in Hm as [Hm|Hm].
        + apply duplicateIssue_form in Hm as (_ & Hne & Hin). fold id in Hne, Hin.
          by apply nonEmpty_true, Hid in Hne.
        + by eapply isDuplicateIssue_cell. }
    etransitivity; [exact Hstep|]. clear Hstep.
    rewrite IH. unfold seenAfter.
    destruct (Str.nonEmpty id) eqn:E; simpl.
    + rewrite NoDup_cons. split.
      * intros (Hid & Hnd & Hk). split; [split; [|done]|].
        -- intros Hin. apply Hk in Hin. set_solver.
        -- intros k [->|Hin]%elem_of_cons; [by apply Hid|].
           apply Hk in Hin. set_solver.
      * intros ((Hid & Hnd) & Hk). split; [|split; [done|]].
        -- intros _. apply Hk. by left.
        -- intros k Hin Hin'. apply elem_of_union in Hin' as [Hin'|Hin'].
           ++ apply elem_of_singleton in Hin' as ->. done.
           ++ by apply (Hk k); [right|].
    + naive_solver.
Qed.

(** A validator reports no duplicate key exactly when the non-empty keys
    of the rows are pairwise distinct. *)
Theorem no_duplicate_issue_iff_distinct_keys datasetType (data : list DataRow) :
  exists issues,
    validateDataset datasetType data = Ok issues /\
    ((forall msg n, msg ∈ issues -> isDuplicateIssue datasetType n msg = false)
     <-> NoDup (List.filter Str.nonEmpty (map (keyOf datasetType) data))).
Proof.
  eexists. split; [apply validateDataset_scan|].
  pose proof (scan_no_duplicate datasetType data ∅ 0) as Hs.
  split.
  - intros H. apply Hs. intros msg n Hm. apply H, elem_of_app. by right.
  - intros Hnd msg n [Hm|Hm]%elem_of_app.
    + unfold checkRequiredColumns in Hm.
      destruct data as [|row0 data']; [by apply elem_of_nil in Hm|].
      destruct (0 <? _); [|by apply elem_of_nil in Hm].
      apply list_elem_of_singleton in Hm as ->. apply isRowIssue_missing.
    + revert Hm. apply Hs. split; [done|]. intros k _. set_solver.
Qed.

(** ** The preview of a command *)

Lemma assign_assign f v row : assign f v (assign f v row) = assign f v row.
Proof.
  induction row as [|[k w] row IH]; simpl.
  - by rewrite String.eqb_refl.
  - destruct (String.eqb k f) eqn:E; simpl; rewrite E; [done|by rewrite IH].
Qed.

Lemma previewRow_idem (parsedCommand : ModificationCommand) row :
  previewRow parsedCommand (previewRow parsedCommand row)
  = previewRow parsedCommand row.
Proof.
  unfold previewRow. destruct (cmd_condition parsedCommand) as [c|].
  - destruct (conditionHolds c row) eqn:E; [|by rewrite E].
    destruct (conditionHolds c (assign _ _ _)); [apply assign_assign|done].
  - apply assign_assign.
Qed.

(** Previewing a command on its own preview changes nothing more: a
    command applied twice gives what it gives applied once, whatever its
    condition reads. *)
Theorem preview_idempotent (parsedCommand : ModificationCommand)
    (data : list DataRow) :
  previewData parsedCommand (previewData parsedCommand data)
  = previewData parsedCommand data.
Proof.
  unfold previewData. rewrite map_map. apply map_ext. intros row.
  apply previewRow_idem.
Qed.

Lemma keys_assign f v row :
  keys (assign f v row)
  = if arrayIncludes f (keys row) then keys row else keys row ++ [f].
Proof.
  unfold keys, arrayIncludes.
  induction row as [|[k w] row IH]; simpl; [done|].
  rewrite (String.eqb_sym f k).
  destruct (String.eqb k f) eqn:E; simpl; [done|]. rewrite IH.
  by destruct (existsb _ _).
Qed.

(** A row the command applies to reads the new value in the target
    column; its other columns keep their order, and the target column is
    added last when the row lacks it. *)
Theorem preview_sets_target (parsedCommand : ModificationCommand)
    (data : list DataRow) i row :
  data !! i = Some row ->
  match cmd_condition parsedCommand with
  | Some c => conditionHolds c row = true
  | None => True
  end ->
  exists row',
    previewData parsedCommand data !! i = Some row' /\
    get (cmd_field parsedCommand) row' = cmd_value parsedCommand /\
    keys row' = if arrayIncludes (cmd_field parsedCommand) (keys row)
                then keys row
                else keys row ++ [cmd_field parsedCommand].
Proof.
  intros Hrow Hc. exists (previewRow parsedCommand row). split.
  - unfold previewData. by rewrite list_lookup_fmap, Hrow.
  - unfold previewRow.
    assert (match cmd_condition parsedCommand with
            | Some c => conditionHolds c row
            | None => true
            end = true) as ->
      by (by destruct (cmd_condition parsedCommand)).
    split; [apply get_assign_eq|apply keys_assign].
Qed.

Lemma preview_sets_target_witness :
  exists row',
    previewData sampleLoadCommand sampleWorkers !! 0 = Some row' /\
    get "MaxLoadPerPhase" row' = VNum (Num.ofZ 2) /\
    keys row' = ["WorkerID"; "WorkerName"; "Skills"; "AvailableSlots";
                 "MaxLoadPerPhase"; "WorkerGroup"].
Proof.
  exact (preview_sets_target sampleLoadCommand sampleWorkers 0 _
           eq_refl eq_refl).
Defined.

(** ** Conditional commands and the case of the group *)

Lemma caseBlind_reGroupCommand : caseBlind reGroupCommand.
Proof.
  unfold reGroupCommand, Re.seq. cbn [foldr caseBlind].
  repeat split; auto with caseblind;
    try apply caseBlind_spaces; try apply caseBlind_digits;
    try apply caseBlind_wordChars; try apply caseBlind_liti.
Qed.

(** The condition of a parsed command tests a column for equality with
    a text in lower case. *)
Lemma parsed_condition_lower_case command parsedCommand c :
  parseModificationCommand command = Some parsedCommand ->
  cmd_condition parsedCommand = Some c ->
  cond_operator c = equals /\
  exists group, cond_value c = VStr group /\ Str.toLowerCase group = group.
Proof.
  unfold parseModificationCommand.
  rewrite (exec_toLowerCase _ _ caseBlind_rePriorityCommand).
  rewrite (exec_toLowerCase _ _ caseBlind_reLoadCommand).
  rewrite (exec_toLowerCase _ _ caseBlind_reGroupCommand).
  destruct (Re.exec rePriorityCommand command) as [m1|]; simpl;
    [by intros [= <-]|].
  destruct (Re.exec reLoadCommand command) as [m2|]; simpl.
  { intros [= <-] [= <-]. simpl. split; [done|]. eexists. split; [done|].
    by rewrite group_lowerGroups, toLowerCase_idem. }
  destruct (Re.exec reGroupCommand command) as [m3|]; simpl; [|done].
  intros [= <-] [= <-]. simpl. split; [done|]. eexists. split; [done|].
  by rewrite group_lowerGroups, toLowerCase_idem.
Qed.

(** A command with a condition, as typed by the user, never changes a row
    whose cell in the column of the condition has an upper-case letter:
    the group of the command is compared in lower case, the cell as it
    is. *)
Theorem conditional_command_skips_mixed_case
    command datasets parsedCommand preview c i row :
  handleCommandSubmit command datasets = Preview parsedCommand preview ->
  cmd_condition parsedCommand = Some c ->
  datasets (cmd_dataset parsedCommand) !! i = Some row ->
  Str.toLowerCase (ToString (get (cond_field c) row))
    ≠ ToString (get (cond_field c) row) ->
  preview !! i = Some row.
Proof.
  intros [Hp ->]%handleCommandSubmit_preview Hc Hrow Hcase.
  destruct (parsed_condition_lower_case _ _ _ Hp Hc)
    as (Hop & group & Hv & Hlow).
  unfold previewData. rewrite list_lookup_fmap, Hrow. simpl. f_equal.
  apply (previewRow_unmatched _ _ _ Hc).
  unfold conditionHolds. rewrite Hop, Hv. simpl.
  apply String.eqb_neq. intros E. apply Hcase. by rewrite E.
Qed.

Lemma conditional_command_skips_mixed_case_witness :
  exists parsedCommand preview row,
    handleCommandSubmit sampleCommand (fun _ => sampleWorkers)
    = Preview parsedCommand preview /\
    sampleWorkers !! 1 = Some row /\
    get "WorkerGroup" row = VStr "GroupB" /\
    preview !! 1 = Some row.
Proof.
  eexists _, _, _. split; [by vm_compute|]. split; [reflexivity|].
  split; [reflexivity|].
  exact (conditional_command_skips_mixed_case sampleCommand
           (fun _ => sampleWorkers) _ _ _ 1 _ eq_refl eq_refl eq_refl
           ltac:(discriminate)).
Defined.

(** ** [split] and [join] *)

Lemma split_cons (sep : ascii) (s : string) :
  exists h t, Str.split sep s = h :: t.
Proof.
  destruct s as [|c s]; simpl; [by eexists _, _|].
  destruct (Ascii.eqb c sep); [by eexists _, _|].
  destruct (Str.split sep s); by eexists _, _.
Qed.

Lemma split_noChar (sep : ascii) (s : string) :
  noChar sep s = true -> Str.split sep s = [s].
Proof.
  unfold noChar. induction s as [|c s IH]; simpl; [done|].
  intros [Hc Hs]%andb_true_iff. apply negb_true_iff in Hc as ->.
  by rewrite IH.
Qed.

Lemma split_app (sep : ascii) (a b : string) :
  noChar sep a = true ->
  Str.split sep (a +:+ String sep b) = a :: Str.split sep b.
Proof.
  unfold noChar. induction a as [|c a IH]; simpl.
  - intros _. change (Str.split sep (String sep b))
      with (if Ascii.eqb sep sep then "" :: Str.split sep b
            else match Str.split sep b with
                 | h :: t => String sep h :: t
                 | [] => [String sep ""]
                 end).
    by rewrite Ascii.eqb_refl.
  - intros [Hc Hs]%andb_true_iff. apply negb_true_iff in Hc.
    change (Str.split sep (String c a +:+ String sep b))
      with (if Ascii.eqb c sep then "" :: Str.split sep (a +:+ String sep b)
            else match Str.split sep (a +:+ String sep b) with
                 | h :: t => String c h :: t
                 | [] => [String c ""]
                 end).
    by rewrite Hc, IH.
Qed.

(** ** The co-occurrence map *)

Lemma mapGet_elem_of (k : string) (v : nat) (m : list (string * nat)) :
  mapGet k m = Some v -> (k, v) ∈ m.
Proof.
  induction m as [|[k' w] m IH]; simpl; [done|].
  destruct (String.eqb k' k) eqn:E.
  - apply String.eqb_eq in E as ->. intros [= ->]. apply list_elem_of_here.
  - intros H. apply list_elem_of_further. by apply IH.
Qed.

Lemma mapGet_None (k : string) (m : list (string * nat)) :
  mapGet k m = None <-> k ∉ map fst m.
Proof.
  induction m as [|[k' w] m IH]; simpl.
  - split; [|done]. intros _ H. by apply elem_of_nil in H.
  - rewrite not_elem_of_cons. destruct (String.eqb k' k) eqn:E.
    + apply String.eqb_eq in E as ->. naive_solver.
    + apply String.eqb_neq in E. rewrite IH. naive_solver.
Qed.

Lemma elem_of_mapGet (k : string) (v : nat) (m : list (string * nat)) :
  NoDup (map fst m) -> (k, v) ∈ m -> mapGet k m = Some v.
Proof.
  induction m as [|[k' w] m IH]; simpl; intros Hnd H.
  - by apply elem_of_nil in H.
  - apply NoDup_cons in Hnd as [Hk' Hnd].
    apply elem_of_cons in H as [[= <- <-]|H]; [by rewrite String.eqb_refl|].
    destruct (String.eqb k' k) eqn:E; [|by apply IH].
    apply String.eqb_eq in E as ->. destruct Hk'.
    apply list_elem_of_fmap. by exists (k, v).
Qed.

Lemma keys_mapSet (key : string) (v : nat) (m : list (string * nat)) :
  map fst (mapSet key v m)
  = match mapGet key m with
    | Some _ => map fst m
    | None => map fst m ++ [key]
    end.
Proof.
  induction m as [|[k w] m IH]; simpl; [done|].
  destruct (String.eqb k key) eqn:E; simpl; [done|]. rewrite IH.
  by destruct (mapGet key m).
Qed.

Lemma NoDup_mapSet (key : string) (v : nat) (m : list (string * nat)) :
  NoDup (map fst m) -> NoDup (map fst (mapSet key v m)).
Proof.
  intros H. rewrite keys_mapSet. destruct (mapGet key m) eqn:E; [done|].
  apply mapGet_None in E. apply NoDup_app. split; [done|].
  split; [|apply NoDup_singleton].
  intros k Hk ->%list_elem_of_singleton. done.
Qed.

Lemma NoDup_foldl_countPair (ps : list string) (m : list (string * nat)) :
  NoDup (map fst m) -> NoDup (map fst (foldl countPair m ps)).
Proof.
  revert m. induction ps as [|p ps IH]; intros m H; simpl; [done|].
  apply IH. by apply NoDup_mapSet.
Qed.

(** A key occurs once in the map. *)
Lemma NoDup_taskCooccurrence (clients : list DataRow) :
  NoDup (map fst (taskCooccurrence clients)).
Proof.
  unfold taskCooccurrence.
  assert (forall m, NoDup (map fst m) ->
            NoDup (map fst
              (foldl (fun m client =>
                        foldl countPair m (pairKeys (requestedTaskIds client)))
                     m clients))) as H.
  { induction clients as [|c clients IH]; intros m Hm; simpl; [done|].
    apply IH. by apply NoDup_foldl_countPair. }
  apply H. constructor.
Qed.

(** An entry of the map holds the number of times its key is produced. *)
Lemma taskCooccurrence_entry (clients : list DataRow) (entry : string * nat) :
  entry ∈ taskCooccurrence clients -> entry.2 = keyCount entry.1 clients.
Proof.
  destruct entry as [k v]. intros H. simpl.
  apply elem_of_mapGet in H; [|apply NoDup_taskCooccurrence].
  by rewrite <-taskCooccurrence_count, H.
Qed.

Lemma taskCooccurrence_present (clients : list DataRow) (key : string) :
  0 < keyCount key clients ->
  (key, keyCount key clients) ∈ taskCooccurrence clients.
Proof.
  intros H. rewrite <-taskCooccurrence_count in *.
  destruct (mapGet key (taskCooccurrence clients)) as [v|] eqn:E;
    [|simpl in H; lia].
  simpl. by apply mapGet_elem_of.
Qed.

Lemma elem_of_pairKeys (key : string) (taskIds : list string) :
  key ∈ pairKeys taskIds ->
  exists a b, (a, b) ∈ positionPairs taskIds /\ key = a +:+ "-" +:+ b.
Proof.
  induction taskIds as [|a rest IH]; simpl; [by intros ?%elem_of_nil|].
  intros [H|H]%elem_of_app.
  - apply list_elem_of_fmap in H as (b & -> & Hb). exists a, b.
    split; [|done]. apply elem_of_app. left. apply list_elem_of_fmap. by exists b.
  - apply IH in H as (a' & b & Hp & ->). exists a', b. split; [|done].
    apply elem_of_app. by right.
Qed.

Lemma keyCount_pos (key : string) (clients : list DataRow) :
  0 < keyCount key clients ->
  exists client a b,
    client ∈ clients /\ (a, b) ∈ positionPairs (requestedTaskIds client) /\
    key = a +:+ "-" +:+ b.
Proof.
  unfold keyCount. intros H.
  destruct (List.filter _ _) as [|k l] eqn:E; [simpl in H; lia|].
  assert (k ∈ List.filter (String.eqb key)
            (flat_map (fun client => pairKeys (requestedTaskIds client))
                      clients)) as Hk by (rewrite E; apply list_elem_of_here).
  apply list_elem_of_In, filter_In in Hk as [Hk Hkey].
  apply String.eqb_eq in Hkey as <-.
  apply in_flat_map in Hk as (client & Hc & Hk).
  apply list_elem_of_In in Hc, Hk.
  apply elem_of_pairKeys in Hk as (a & b & Hp & ->). by exists client, a, b.
Qed.

Lemma sortedPairs_elem_of (clients : list DataRow) entry :
  entry ∈ sortedPairs clients -> entry ∈ taskCooccurrence clients.
Proof.
  unfold sortedPairs. intros H.
  rewrite <-sortByCount_perm, <-(take_drop 3 (sortByCount _)).
  apply elem_of_app. by left.
Qed.

Lemma coRunRecommendation_dash_free (a b : string) (count : nat) :
  noChar "-" a = true -> noChar "-" b = true ->
  rec_taskIds (coRunRecommendation (a +:+ "-" +:+ b) count) = [Some a; Some b] /\
  rec_id (coRunRecommendation (a +:+ "-" +:+ b) count)
  = "coRun-" +:+ a +:+ "-" +:+ b.
Proof.
  intros Ha Hb. unfold coRunRecommendation. cbv zeta. cbn [rec_taskIds rec_id].
  change (a +:+ "-" +:+ b) with (a +:+ String "-" b) at 1 2 3 4.
  rewrite split_app, split_noChar by done. done.
Qed.

(** Every recommendation stands for a pair of tasks that some client
    requests, the first before the second; it reports the number of
    times the clients request them in that order, which is at least two.
    When neither identifier holds a dash, the recommendation names the
    two tasks. *)
Theorem recommendation_sound (clients : list DataRow) r :
  r ∈ coRunRecommendations clients ->
  exists client a b,
    client ∈ clients /\ (a, b) ∈ positionPairs (requestedTaskIds client) /\
    2 <= keyCount (a +:+ "-" +:+ b) clients /\
    r = coRunRecommendation (a +:+ "-" +:+ b)
                            (keyCount (a +:+ "-" +:+ b) clients) /\
    (noChar "-" a = true -> noChar "-" b = true ->
     rec_taskIds r = [Some a; Some b] /\
     rec_id r = "coRun-" +:+ a +:+ "-" +:+ b).
Proof.
  intros (entry & He & Hc & ->)%coRunRecommendations_spec.
  apply sortedPairs_elem_of, taskCooccurrence_entry in He.
  rewrite He in *.
  destruct (keyCount_pos entry.1 clients) as (client & a & b & Hcl & Hp & Hk);
    [lia|].
  exists client, a, b. rewrite <-Hk. do 4 (split; [done|]).
  intros Ha Hb. rewrite Hk. by apply coRunRecommendation_dash_free.
Qed.

Lemma recommendation_sound_witness :
  exists client a b,
    client ∈ scenarioClients /\
    (a, b) ∈ positionPairs (requestedTaskIds client) /\
    2 <= keyCount (a +:+ "-" +:+ b) scenarioClients /\
    coRunRecommendation "T1-T2" 2
    = coRunRecommendation (a +:+ "-" +:+ b)
                          (keyCount (a +:+ "-" +:+ b) scenarioClients) /\
    (noChar "-" a = true -> noChar "-" b = true ->
     rec_taskIds (coRunRecommendation "T1-T2" 2) = [Some a; Some b] /\
     rec_id (coRunRecommendation "T1-T2" 2) = "coRun-" +:+ a +:+ "-" +:+ b).
Proof.
  apply (recommendation_sound scenarioClients (coRunRecommendation "T1-T2" 2)).
  vm_compute. constructor.
Defined.

(** A pair counted at least twice is recommended, unless three pairs
    counted at least as often are. *)
Theorem frequent_pair_recommended (clients : list DataRow) (key : string) :
  2 <= keyCount key clients ->
  coRunRecommendation key (keyCount key clients) ∈ coRunRecommendations clients
  \/ (length (coRunRecommendations clients) = 3 /\
      forall r, r ∈ coRunRecommendations clients ->
        exists key' count',
          keyCount key clients <= count' /\
          r = coRunRecommendation key' count').
Proof.
  intros Hc.
  assert ((key, keyCount key clients) ∈ sortByCount (taskCooccurrence clients))
    as Hin by (rewrite sortByCount_perm; apply taskCooccurrence_present; lia).
  rewrite <-(take_drop 3 (sortByCount _)) in Hin.
  apply elem_of_app in Hin as [Hin|Hin].
  - left. apply coRunRecommendations_spec. by exists (key, keyCount key clients).
  - right.
    pose proof (sortByCount_sorted (taskCooccurrence clients)) as Hs.
    rewrite <-(take_drop 3 (sortByCount _)) in Hs.
    assert (forall kept, kept ∈ sortedPairs clients ->
                         keyCount key clients <= kept.2) as Hkept.
    { intros kept Hk.
      exact (StronglySorted_app_1_elem_of _ _ _ kept _ Hs Hk Hin). }
    assert (length (sortedPairs clients) = 3) as Hlen.
    { unfold sortedPairs. rewrite length_take.
      assert (3 < length (sortByCount (taskCooccurrence clients))); [|lia].
      destruct (drop 3 _) as [|d ds] eqn:E; [by apply elem_of_nil in Hin|].
      apply (f_equal length) in E. rewrite length_drop in E. simpl in E. lia. }
    assert (coRunRecommendations clients
            = map (fun entry : string * nat =>
                     coRunRecommendation entry.1 entry.2)
                  (sortedPairs clients)) as Hrecs.
    { unfold coRunRecommendations. revert Hkept.
      generalize (sortedPairs clients). intros l Hl.
      induction l as [|e l IH]; cbn [flat_map map]; [done|].
      assert ((2 <=? e.2) = true) as ->
        by (apply Nat.leb_le; etransitivity; [exact Hc|];
            apply Hl, list_elem_of_here).
      simpl. f_equal. apply IH. intros kept Hk.
      apply Hl. by apply list_elem_of_further. }
    split; [by rewrite Hrecs, length_map|].
    intros r Hr. rewrite Hrecs in Hr.
    apply list_elem_of_fmap in Hr as (entry & -> & He).
    exists entry.1, entry.2. split; [by apply Hkept|done].
Qed.

Lemma frequent_pair_recommended_witness :
  coRunRecommendation "T1-T2" (keyCount "T1-T2" scenarioClients)
    ∈ coRunRecommendations scenarioClients
  \/ (length (coRunRecommendations scenarioClients) = 3 /\
      forall r, r ∈ coRunRecommendations scenarioClients ->
        exists key' count',
          keyCount "T1-T2" scenarioClients <= count' /\
          r = coRunRecommendation key' count').
Proof.
  apply (frequent_pair_recommended scenarioClients "T1-T2").
  vm_compute. lia.
Defined.

Lemma confidence_bounds (count : nat) :
  2 <= count ->
  exists q, Num.min (Num.div (Num.ofNat count) (Num.ofZ 5)) (Fin (9 # 10))
            = Fin q /\
            (2 # 5 <= q)%Q /\ (q <= 9 # 10)%Q /\
            (5 <= count -> q = (9 # 10)%Q).
Proof.
  intros Hc. unfold Num.div, Num.ofNat, Num.ofZ.
  change (Qeq_bool (inject_Z 5) 0) with false. cbv iota.
  unfold Num.min, Num.ltb.
  destruct (Num.Qltb (9 # 10) (Qred (inject_Z (Z.of_nat count) / inject_Z 5)))
    eqn:E.
  - exists (9 # 10)%Q. repeat split; try done.
  - eexists. split; [done|].
    assert (Qred (inject_Z (Z.of_nat count) / inject_Z 5)
            == Z.of_nat count # 5)%Q as Hq.
    { rewrite Qred_correct. unfold Qdiv, Qinv, Qmult, inject_Z, Qeq. simpl.
      lia. }
    unfold Num.Qltb in E. apply Z.ltb_ge in E.
    assert (Qred (inject_Z (Z.of_nat count) / inject_Z 5) <= 9 # 10)%Q as Hle
      by (unfold Qle; simpl Qnum in *; simpl Qden in *; lia).
    split; [|split; [done|]].
    + rewrite Hq. unfold Qle. simpl. lia.
    + intros H5. rewrite Hq in Hle. unfold Qle in Hle. simpl in Hle. lia.
Qed.

(** There are at most three recommendations; each is of type [coRun]
    and its confidence is a number from 2/5 to 9/10. *)
Theorem recommendations_bounded (clients : list DataRow) :
  length (coRunRecommendations clients) <= 3 /\
  forall r, r ∈ coRunRecommendations clients ->
    rec_type r = "coRun" /\
    exists q, rec_confidence r = Fin q /\ (2 # 5 <= q)%Q /\ (q <= 9 # 10)%Q.
Proof.
  split.
  - unfold coRunRecommendations.
    assert (length (sortedPairs clients) <= 3) as H
      by (unfold sortedPairs; rewrite length_take; lia).
    revert H. generalize (sortedPairs clients). intros l.
    assert (length (flat_map (fun entry : string * nat =>
                      if 2 <=? entry.2
                      then [coRunRecommendation entry.1 entry.2] else []) l)
            <= length l); [|lia].
    induction l as [|e l IH]; cbn [flat_map length]; [lia|].
    rewrite length_app. destruct (2 <=? e.2); cbn [length]; lia.
  - intros r (entry & He & Hc & ->)%coRunRecommendations_spec.
    split; [done|].
    destruct (confidence_bounds entry.2 Hc) as (q & Hq & H1 & H2 & _).
    by exists q.
Qed.

(** ** Skill gaps *)

Lemma elem_of_collect_gset column (rows : list DataRow) (init : gset string) x :
  x ∈ collectSkills (fun skill set => {[skill]} ∪ set) column rows init
  <-> x ∈ init \/ x ∈ listedSkills column rows.
Proof.
  unfold collectSkills, listedSkills. revert init.
  induction rows as [|row rows IH]; intros init; simpl.
  - split; [by left|]. intros [?|H]; [done|]. by apply elem_of_nil in H.
  - rewrite IH, elem_of_app. clear IH.
    generalize (Str.split "," (ToString (js_or (get column row) (VStr "")))).
    intros pieces.
    assert (x ∈ foldl (addSkill (fun skill set => {[skill]} ∪ set)) init pieces
            <-> x ∈ init \/
                x ∈ map (fun piece => Str.toLowerCase (Str.trim piece))
                      (List.filter (fun piece => Str.nonEmpty (Str.trim piece))
                                   pieces)) as ->; [|tauto].
    revert init. induction pieces as [|p pieces IH]; intros init; simpl.
    + split; [by left|]. intros [?|H]; [done|]. by apply elem_of_nil in H.
    + rewrite IH. unfold addSkill.
      destruct (Str.nonEmpty (Str.trim p)); simpl; [|done].
      rewrite elem_of_union, elem_of_singleton, elem_of_cons. tauto.
Qed.

Lemma orderedAdd_spec x y (set : list string) :
  y ∈ orderedAdd x set <-> y = x \/ y ∈ set.
Proof.
  unfold orderedAdd. case_bool_decide.
  - split; [by right|]. by intros [->|?].
  - rewrite elem_of_app, list_elem_of_singleton. tauto.
Qed.

Lemma orderedAdd_NoDup x (set : list string) :
  NoDup set -> NoDup (orderedAdd x set).
Proof.
  intros H. unfold orderedAdd. case_bool_decide; [done|].
  apply NoDup_app. split; [done|]. split; [|apply NoDup_singleton].
  by intros y Hy ->%list_elem_of_singleton.
Qed.

Lemma collect_ordered column (rows : list DataRow) (init : list string) :
  (forall x, x ∈ collectSkills orderedAdd column rows init
             <-> x ∈ init \/ x ∈ listedSkills column rows) /\
  (NoDup init -> NoDup (collectSkills orderedAdd column rows init)).
Proof.
  unfold collectSkills, listedSkills. revert init.
  induction rows as [|row rows IH]; intros init; simpl.
  - split; [|done]. intros x. split; [by left|].
    intros [?|H]; [done|]. by apply elem_of_nil in H.
  - generalize (Str.split "," (ToString (js_or (get column row) (VStr "")))).
    intros pieces.
    assert ((forall x, x ∈ foldl (addSkill orderedAdd) init pieces
              <-> x ∈ init \/
                  x ∈ map (fun piece => Str.toLowerCase (Str.trim piece))
                        (List.filter
                           (fun piece => Str.nonEmpty (Str.trim piece))
                           pieces)) /\
            (NoDup init -> NoDup (foldl (addSkill orderedAdd) init pieces)))
      as [Hin Hnd].
    { revert init. induction pieces as [|p pieces IHp]; intros init; simpl.
      - split; [|done]. intros x. split; [by left|].
        intros [?|H]; [done|]. by apply elem_of_nil in H.
      - destruct (IHp (addSkill orderedAdd init p)) as [Hin Hnd].
        unfold addSkill in *.
        destruct (Str.nonEmpty (Str.trim p)); simpl; [|done]. split.
        + intros x. rewrite Hin, orderedAdd_spec, elem_of_cons. tauto.
        + intros H. by apply Hnd, orderedAdd_NoDup. }
    destruct (IH (foldl (addSkill orderedAdd) init pieces)) as [IHin IHnd].
    split.
    + intros x. rewrite IHin, Hin, elem_of_app. tauto.
    + intros H. by apply IHnd, Hnd.
Qed.

Lemma elem_of_workerSkills workers x :
  x ∈ workerSkills workers <-> x ∈ listedSkills "Skills" workers.
Proof.
  unfold workerSkills. rewrite elem_of_collect_gset. set_solver.
Qed.

Lemma elem_of_requiredSkills tasks x :
  x ∈ requiredSkills tasks <-> x ∈ listedSkills "RequiredSkills" tasks.
Proof.
  unfold requiredSkills.
  rewrite (proj1 (collect_ordered "RequiredSkills" tasks [])).
  split; [|by right]. intros [H|H]; [by apply elem_of_nil in H|done].
Qed.

Lemma elem_of_missingSkills workers tasks x :
  x ∈ missingSkills workers tasks
  <-> x ∈ listedSkills "RequiredSkills" tasks /\
      x ∉ listedSkills "Skills" workers.
Proof.
  unfold missingSkills.
  rewrite list_elem_of_In, filter_In, <-list_elem_of_In.
  rewrite elem_of_requiredSkills, negb_true_iff, bool_decide_eq_false.
  by rewrite elem_of_workerSkills.
Qed.

(** No skill gap is reported exactly when every skill a task lists is
    listed by some worker, the skills being compared trimmed and in lower
    case; and a reported gap names each missing skill once. *)
Theorem skill_gap_reported_iff_uncovered workers tasks :
  (skillGapInsights workers tasks = []
   <-> forall skill, skill ∈ listedSkills "RequiredSkills" tasks ->
                     skill ∈ listedSkills "Skills" workers) /\
  NoDup (missingSkills workers tasks) /\
  forall insight, insight ∈ skillGapInsights workers tasks ->
    ins_type insight = InsError /\
    ins_message insight
    = "Missing worker skills: " +:+ Str.join ", " (missingSkills workers tasks).
Proof.
  split; [|split].
  - unfold skillGapInsights. cbv zeta.
    destruct (missingSkills workers tasks) as [|m ms] eqn:E; simpl.
    + split; [|done]. intros _ skill Hs.
      destruct (decide (skill ∈ listedSkills "Skills" workers)) as [|Hn];
        [done|].
      assert (skill ∈ missingSkills workers tasks) as H
        by (by apply elem_of_missingSkills).
      rewrite E in H. by apply elem_of_nil in H.
    + split; [done|]. intros H.
      assert (m ∈ missingSkills workers tasks) as Hm
        by (rewrite E; apply list_elem_of_here).
      apply elem_of_missingSkills in Hm as [Hr Hw]. by apply H in Hr.
  - unfold missingSkills. apply NoDup_ListNoDup, List.NoDup_filter.
    apply NoDup_ListNoDup. unfold requiredSkills.
    apply collect_ordered. constructor.
  - unfold skillGapInsights. cbv zeta. intros insight H.
    destruct (0 <? _); [|by apply elem_of_nil in H].
    by apply list_elem_of_singleton in H as ->.
Qed.

(** Another worker never adds to the missing skills: what is missing
    with the worker was missing without. *)
Theorem more_workers_fewer_gaps workers worker tasks :
  missingSkills (workers ++ [worker]) tasks
  `sublist_of` missingSkills workers tasks.
Proof.
  unfold missingSkills.
  induction (requiredSkills tasks) as [|skill skills IH]; simpl; [done|].
  destruct (bool_decide (skill ∈ workerSkills workers)) eqn:E; simpl.
  - apply bool_decide_eq_true in E.
    assert (bool_decide (skill ∈ workerSkills (workers ++ [worker])) = true)
      as ->; [|done].
    apply bool_decide_eq_true. apply elem_of_workerSkills.
    apply elem_of_workerSkills in E. unfold listedSkills in *.
    rewrite flat_map_app. apply elem_of_app. by left.
  - destruct (bool_decide (skill ∈ workerSkills (workers ++ [worker])));
      simpl; by constructor.
Qed.

Example skillGapInsights_examples :
  skillGapInsights [skilledWorker "Python, SQL"] [demandingTask "python,sql "]
  = [] /\
  skillGapInsights [skilledWorker "Python"] [demandingTask "go, , Rust,GO"]
  = [{| ins_type := InsError;
        ins_message := "Missing worker skills: go, rust";
        ins_suggestedFix := Some "Add workers with skills: go, rust" |}].
Proof. split; by vm_compute. Qed.

(** ** The state of the application *)

Lemma dataStep_Ok (s : AppState) (e : DataEvent) :
  exists s', dataStep s e = Ok s' /\
    searchQueries s' = match e with
                       | Searched key query => setEntry key query (searchQueries s)
                       | _ => searchQueries s
                       end /\
    (forall key,
       datasets s' key
       = match e with
         | FileParsed key' data | DataChanged key' data =>
             if bool_decide (key = key') then data else datasets s key
         | Searched _ _ => datasets s key
         end) /\
    (forall key,
       match e with
       | DataChanged key' rows =>
           if bool_decide (key = key')
           then validateDataset key rows = Ok (validationErrors s' key)
           else validationErrors s' key = validationErrors s key
       | _ => validationErrors s' key = validationErrors s key
       end).
Proof.
  destruct e as [key data|key rows|key query]; simpl.
  - eexists. split; [done|]. simpl. split; [done|]. split; [done|done].
  - unfold handleDataChange. rewrite validateDataset_scan. simpl.
    eexists. split; [done|]. simpl. split; [done|]. split; [done|].
    intros k. unfold setEntry.
    case_bool_decide as E; [subst; apply validateDataset_scan|done].
  - eexists. split; [done|]. simpl. split; [done|]. split; [done|done].
Qed.


(** No sequence of events makes the application throw. *)
Lemma dataRun_Ok (s : AppState) (events : list DataEvent) :
  exists s', dataRun s events = Ok s'.
Proof.
  revert s. induction events as [|e events IH]; intros s; simpl.
  - by eexists.
  - destruct (dataStep_Ok s e) as (s' & -> & _). simpl. apply IH.
Qed.

Lemma dataRun_unvalidated key (s s' : AppState) (events : list DataEvent) :
  dataRun s events = Ok s' ->
  (forall e, e ∈ events -> validates key e = false) ->
  validationErrors s' key = validationErrors s key.
Proof.
  revert s. induction events as [|e events IH]; intros s; simpl.
  - by intros [= ->].
  - destruct (dataStep_Ok s e) as (s1 & -> & _ & _ & He). simpl.
    intros Hrun Hev. rewrite (IH _ Hrun)
      by (intros e' He'; apply Hev; by apply list_elem_of_further).
    specialize (Hev e (list_elem_of_here _ _)). specialize (He key).
    destruct e as [key' data|key' rows|key' query]; simpl in *; try done.
    apply bool_decide_eq_false in Hev.
    by rewrite bool_decide_eq_false_2 in He by congruence.
Qed.


(** Loading files and searching never validate: as long as no dataset is
    edited, the application shows no issue, whatever the files hold. *)
Theorem uploads_never_validate (events : list DataEvent) :
  (forall e, e ∈ events -> forall key, validates key e = false) ->
  exists s,
    dataRun initialState events = Ok s /\
    forall key, validationErrors s key = [].
Proof.
  intros Hev. destruct (dataRun_Ok initialState events) as [s Hs].
  exists s. split; [done|]. intros key.
  rewrite (dataRun_unvalidated key _ _ _ Hs); [done|].
  intros e He. by apply Hev.
Qed.

Lemma uploads_never_validate_witness :
  exists s,
    dataRun initialState
      [FileParsed clients malformedClients; Searched clients "priority > 2"]
    = Ok s /\
    forall key, validationErrors s key = [].
Proof.
  apply uploads_never_validate.
  intros e He key.
  repeat (apply elem_of_cons in He as [->|He]; [reflexivity|]).
  by apply elem_of_nil in He.
Defined.



(** ** The rules *)

Lemma rulesRun_snoc (s : RulesState) (events : list RulesEvent) e :
  rulesRun s (events ++ [e]) = rulesStep (rulesRun s events) e.
Proof. apply foldl_snoc. Qed.

Lemma rulesRun_app (s : RulesState) (events1 events2 : list RulesEvent) :
  rulesRun s (events1 ++ events2) = rulesRun (rulesRun s events1) events2.
Proof. apply foldl_app. Qed.

Lemma filter_Forall {A} (p : A -> bool) (P : A -> Prop) (l : list A) :
  Forall P l -> Forall P (List.filter p l).
Proof.
  induction 1 as [|x l Hx Hl IH]; simpl; [constructor|].
  destruct (p x); [by constructor|done].
Qed.

(** Whatever the user does, the count of the current rules is the number
    of rules they hold, and the builder holds no rule with a blank
    description. *)
Theorem rules_count_in_sync (events : list RulesEvent) :
  totalRules (exp_metadata (currentRules (rulesRun initialRulesState events)))
  = length (exp_rules (currentRules (rulesRun initialRulesState events)))
  /\ exp_version (currentRules (rulesRun initialRulesState events)) = "1.0"
  /\ Forall (fun rule => Str.trim (rule_description rule) ≠ "")
            (rules (builder (rulesRun initialRulesState events))).
Proof.
  induction events as [|e events IH] using rev_ind.
  - repeat split; constructor.
  - rewrite rulesRun_snoc.
    destruct IH as (Hcount & Hversion & Hrules).
    set (s := rulesRun initialRulesState events) in *.
    destruct e as [type|description|now|i|now|recommendation]; simpl;
      try done.
    + repeat split; try done. unfold addRule.
      destruct (Str.nonEmpty _) eqn:E; [|done]. simpl.
      apply Forall_app. split; [done|]. constructor; [|constructor].
      simpl. by apply nonEmpty_true.
    + destruct (rules (builder s) !! i) as [rule|]; [|done]. simpl.
      repeat split; try done. unfold clickRemove.
      destruct (rule_id rule) as [id|]; [|done].
      destruct (id =? 0)%Z; [done|]. simpl. by apply filter_Forall.
    + destruct (0 <? length (rules (builder s))); [|done]. simpl.
      repeat split; try done. by rewrite length_map.
    + repeat split; try done. rewrite length_app. simpl. lia.
Qed.

Lemma rulesRun_no_export (s : RulesState) (events : list RulesEvent) :
  (forall e, e ∈ events -> isExport e = false) ->
  exp_rules (currentRules (rulesRun s events))
  = exp_rules (currentRules s) ++ acceptedRules events /\
  createdAt (exp_metadata (currentRules (rulesRun s events)))
  = createdAt (exp_metadata (currentRules s)).
Proof.
  induction events as [|e events IH] using rev_ind; intros Hev; simpl.
  - by rewrite app_nil_r.
  - rewrite rulesRun_snoc.
    destruct IH as [IH1 IH2].
    { intros e' He'. apply Hev, elem_of_app. by left. }
    assert (isExport e = false) as He
      by (apply Hev, elem_of_app; right; apply list_elem_of_here).
    unfold acceptedRules in *. rewrite flat_map_app. simpl.
    destruct e as [type|description|now|i|now|recommendation]; simpl;
      rewrite ?app_nil_r; try done.
    + by destruct (rules (builder _) !! i).
    + by rewrite IH1, <-app_assoc.
Qed.

(** An export replaces the current rules by those of the builder: the
    rules accepted from recommendations before it are dropped, those
    accepted after it follow the rules of the builder. *)
Theorem export_replaces_accepted
    (before after : list RulesEvent) (now : string) :
  rules (builder (rulesRun initialRulesState before)) ≠ [] ->
  (forall e, e ∈ after -> isExport e = false) ->
  exp_rules (currentRules
    (rulesRun initialRulesState (before ++ ExportClicked now :: after)))
  = map withoutId (rules (builder (rulesRun initialRulesState before)))
    ++ acceptedRules after /\
  createdAt (exp_metadata (currentRules
    (rulesRun initialRulesState (before ++ ExportClicked now :: after))))
  = now.
Proof.
  intros Hne Hev. rewrite rulesRun_app.
  change (rulesRun ?s (?e :: ?l)) with (rulesRun (rulesStep s e) l).
  destruct (rulesRun_no_export
              (rulesStep (rulesRun initialRulesState before) (ExportClicked now))
              after Hev) as [-> ->].
  simpl.
  assert ((0 <? length (rules (builder (rulesRun initialRulesState before))))
          = true) as ->; [|done].
  by destruct (rules (builder (rulesRun initialRulesState before))).
Qed.

Lemma export_replaces_accepted_witness :
  exp_rules (currentRules
    (rulesRun initialRulesState
       (sampleRulesEvents ++ ExportClicked "2024-01-01T00:00:00.000Z"
          :: [Accepted (coRunRecommendation "T1-T3" 2)])))
  = map withoutId (rules (builder (rulesRun initialRulesState sampleRulesEvents)))
    ++ acceptedRules [Accepted (coRunRecommendation "T1-T3" 2)] /\
  createdAt (exp_metadata (currentRules
    (rulesRun initialRulesState
       (sampleRulesEvents ++ ExportClicked "2024-01-01T00:00:00.000Z"
          :: [Accepted (coRunRecommendation "T1-T3" 2)]))))
  = "2024-01-01T00:00:00.000Z".
Proof.
  apply export_replaces_accepted; [done|].
  intros e He.
  repeat (apply elem_of_cons in He as [->|He]; [reflexivity|]).
  by apply elem_of_nil in He.
Defined.

(** ** Removing a rule *)

Lemma addTimes_app (events1 events2 : list RulesEvent) :
  addTimes (events1 ++ events2) = addTimes events1 ++ addTimes events2.
Proof. apply flat_map_app. Qed.

Lemma filter_sublist_ids (p : Rule -> bool) (l : list Rule) :
  map rule_id (List.filter p l) `sublist_of` map rule_id l.
Proof.
  induction l as [|x l IH]; simpl; [done|].
  destruct (p x); simpl; by constructor.
Qed.

(** The identifiers of the rules of the builder are times of clicks on
    [Add Rule], in the order of the clicks. *)
Lemma builder_ids (events : list RulesEvent) :
  map rule_id (rules (builder (rulesRun initialRulesState events)))
  `sublist_of` map Some (addTimes events).
Proof.
  induction events as [|e events IH] using rev_ind; simpl; [done|].
  rewrite rulesRun_snoc, addTimes_app, map_app.
  set (s := rulesRun initialRulesState events) in *.
  destruct e as [type|description|now|i|now|recommendation]; simpl;
    rewrite ?app_nil_r; try done.
  - unfold addRule. destruct (Str.nonEmpty _); simpl.
    + rewrite map_app. by apply sublist_app.
    + by apply sublist_inserts_r.
  - destruct (rules (builder s) !! i) as [rule|]; [|done]. simpl.
    unfold clickRemove. destruct (rule_id rule) as [id|]; [|done].
    destruct (id =? 0)%Z; [done|]. simpl.
    etransitivity; [apply filter_sublist_ids|done].
  - by destruct (0 <? _).
Qed.

Lemma StronglySorted_lt_NoDup (l : list Z) :
  StronglySorted Z.lt l -> NoDup l.
Proof.
  induction 1 as [|x l Hl IH Hx]; constructor; [|done].
  intros Hin. rewrite Forall_forall in Hx. specialize (Hx x Hin). lia.
Qed.

Lemma filter_delete (l : list Rule) i rule id :
  NoDup (map rule_id l) ->
  l !! i = Some rule -> rule_id rule = Some id ->
  List.filter (fun r => negb (bool_decide (rule_id r = Some id))) l
  = delete i l.
Proof.
  revert i. induction l as [|x l IH]; intros i Hnd Hi Hid; [done|].
  simpl in Hnd. apply NoDup_cons in Hnd as [Hx Hnd].
  destruct i as [|i]; simpl in *.
  - injection Hi as ->. rewrite Hid, bool_decide_eq_true_2 by done. simpl.
    rewrite List.forallb_filter_id; [done|].
    apply forallb_forall. intros r Hr%list_elem_of_In.
    apply negb_true_iff, bool_decide_eq_false. intros Hr'.
    apply Hx. rewrite Hid, <-Hr'. apply list_elem_of_fmap. by exists r.
  - rewrite bool_decide_eq_false_2; simpl.
    + f_equal. by apply IH.
    + intros Hx'. apply Hx. rewrite Hx', <-Hid.
      apply list_elem_of_fmap. exists rule. split; [done|].
      by eapply list_elem_of_lookup_2.
Qed.

(** When the clock advances between two clicks on [Add Rule], the
    [Remove] button of a rule removes that rule and no other.  (Two rules
    added in the same millisecond share their identifier and are removed
    together.) *)
Theorem remove_removes_one (events : list RulesEvent) i rule :
  StronglySorted Z.lt (0%Z :: addTimes events) ->
  rules (builder (rulesRun initialRulesState events)) !! i = Some rule ->
  rules (builder (rulesRun initialRulesState (events ++ [RemoveClicked i])))
  = delete i (rules (builder (rulesRun initialRulesState events))).
Proof.
  intros Hs Hi. rewrite rulesRun_snoc. simpl. rewrite Hi. simpl.
  pose proof (builder_ids events) as Hids.
  apply StronglySorted_lt_NoDup in Hs as Hnd.
  apply NoDup_cons in Hnd as [H0 Hnd].
  assert (rule_id rule ∈ map Some (addTimes events)) as Hid.
  { eapply elem_of_sublist; [|exact Hids].
    apply list_elem_of_fmap. exists rule. split; [done|].
    by eapply list_elem_of_lookup_2. }
  apply list_elem_of_fmap in Hid as (id & Hid & Hin).
  unfold clickRemove. rewrite Hid.
  destruct (Z.eqb_spec id 0) as [->|_]; [done|]. simpl.
  apply (filter_delete _ _ rule); [|done|done].
  eapply sublist_NoDup; [|exact Hids].
  apply (NoDup_fmap_2 _). done.
Qed.

Lemma remove_removes_one_witness :
  rules (builder (rulesRun initialRulesState
                    (twoRulesEvents ++ [RemoveClicked 0])))
  = delete 0 (rules (builder (rulesRun initialRulesState twoRulesEvents))).
Proof.
  eapply remove_removes_one; [|reflexivity].
  simpl. repeat (constructor; [|repeat constructor; lia]). constructor.
Defined.

Example same_millisecond_examples :
  rules (builder (rulesRun initialRulesState
           [DescriptionTyped "a"; AddClicked 10; DescriptionTyped "b";
            AddClicked 10; RemoveClicked 0])) = [].
Proof. reflexivity. Qed.

(** ** The matcher and what it matches *)

Lemma run_star {R} (r : regex) (s : string) (st : Re.mstate)
    (k : string -> Re.mstate -> option R) :
  Re.run (RStar r) s st k = starLoop (Re.run r) k (String.length s) s st.
Proof. reflexivity. Qed.

Lemma length_app_string (a b : string) :
  String.length (a +:+ b) = String.length a + String.length b.
Proof. induction a as [|c a IH]; simpl; [done|]. by rewrite <-IH. Qed.

Lemma app_string_nil_r (a : string) : a +:+ "" = a.
Proof. induction a as [|c a IH]; [done|]. by rewrite <-IH at 2. Qed.

Lemma prefix_app (w rest : string) :
  Re.prefix (String.length (w +:+ rest) - String.length rest) (w +:+ rest) = w.
Proof.
  rewrite length_app_string.
  replace (String.length w + String.length rest - String.length rest)
    with (String.length w) by lia.
  unfold Re.prefix. induction w as [|c w IH]; simpl.
  - by destruct rest.
  - f_equal. apply IH.
Qed.

Section RunMatches.

Context {R : Type}.

(** Soundness: a successful run of the matcher took a match of [r] and
    went on with the continuation. *)
Lemma run_sound (r : regex) :
  forall (s : string) (p : nat) (c : list (nat * string))
         (k : string -> Re.mstate -> option R) (x : R),
    Re.run r s (stateAt p c) k = Some x ->
    exists w rest c',
      s = w +:+ rest /\ Matches r p w rest c c' /\
      k rest (stateAt (p + String.length w) c') = Some x.
Proof.
  induction r as [|q|r1 IH1 r2 IH2|r IH|r IH|i r IH| |];
    intros s p c k x Hrun.
  - exists "", s, c. simpl. rewrite Nat.add_0_r. repeat split; [constructor|done].
  - destruct s as [|a s]; simpl in Hrun; [done|].
    destruct (q a) eqn:Hq; [|done].
    exists (String a ""), s, c. split; [done|]. split; [by constructor|].
    simpl. by rewrite Nat.add_1_r.
  - simpl in Hrun. apply IH1 in Hrun as (w1 & rest1 & c1 & -> & H1 & Hrun).
    apply IH2 in Hrun as (w2 & rest & c2 & -> & H2 & Hk).
    exists (w1 +:+ w2), rest, c2. split; [by rewrite append_assoc|].
    split; [by econstructor|].
    by rewrite length_app_string, Nat.add_assoc.
  - rewrite run_star in Hrun. revert Hrun.
    generalize (String.length s). intros n. revert s p c.
    induction n as [|n IHn]; intros s p c Hrun; simpl in Hrun.
    + exists "", s, c. simpl. rewrite Nat.add_0_r.
      repeat split; [constructor|done].
    + destruct (Re.run r s (stateAt p c) _) as [y|] eqn:E.
      * injection Hrun as ->.
        apply IH in E as (w1 & rest1 & c1 & -> & H1 & Hk).
        destruct (Nat.ltb_spec (String.length rest1)
                    (String.length (w1 +:+ rest1))) as [Hlt|]; [|done].
        apply IHn in Hk as (w2 & rest & c2 & -> & H2 & Hk).
        exists (w1 +:+ w2), rest, c2. split; [by rewrite append_assoc|].
        split.
        -- eapply MStarStep; [|done|done].
           intros ->. rewrite !length_app_string in Hlt. simpl in Hlt. lia.
        -- by rewrite length_app_string, Nat.add_assoc.
      * exists "", s, c. simpl. rewrite Nat.add_0_r.
        repeat split; [constructor|done].
  - simpl in Hrun. destruct (Re.run r s (stateAt p c) k) as [y|] eqn:E.
    + injection Hrun as ->. apply IH in E as (w & rest & c' & -> & H & Hk).
      exists w, rest, c'. split; [done|]. split; [by constructor|done].
    + exists "", s, c. simpl. rewrite Nat.add_0_r.
      repeat split; [constructor|done].
  - simpl in Hrun. apply IH in Hrun as (w & rest & c' & -> & H & Hk).
    rewrite prefix_app in Hk.
    exists w, rest, ((i, w) :: c'). split; [done|]. split; [by constructor|done].
  - simpl in Hrun. destruct (Nat.eqb_spec p 0) as [->|]; [|done].
    exists "", s, c. repeat split; [constructor|done].
  - destruct s as [|a s]; simpl in Hrun; [|done].
    exists "", "", c. simpl. rewrite Nat.add_0_r.
    repeat split; [constructor|done].
Qed.

Lemma run_complete_star (r : regex) p w rest c c' :
  Matches r p w rest c c' ->
  forall (k : string -> Re.mstate -> option R),
    is_Some (k rest (stateAt (p + String.length w) c')) ->
    is_Some (Re.run r (w +:+ rest) (stateAt p c) k) /\
    forall r' n,
      r = RStar r' -> String.length (w +:+ rest) <= n ->
      is_Some (starLoop (Re.run r') k n (w +:+ rest) (stateAt p c)).
Proof.
  induction 1 as [p rest c|q p a rest c Hq
                 |r1 r2 p w1 w2 rest c c1 c2 H1 IH1 H2 IH2
                 |r p rest c|r p w1 w2 rest c c1 c2 Hne H1 IH1 H2 IH2
                 |r p rest c|r p w rest c c1 H IH
                 |i r p w rest c c1 H IH|rest c|p c]; intros k Hk.
  - split; [|done]. simpl in *. by rewrite Nat.add_0_r in Hk.
  - split; [|done]. simpl in *. rewrite Hq. by rewrite Nat.add_1_r in Hk.
  - split; [|done]. rewrite append_assoc. simpl. apply IH1. apply IH2.
    by rewrite length_app_string, Nat.add_assoc in Hk.
  - simpl in Hk. rewrite Nat.add_0_r in Hk.
    assert (forall n, is_Some (starLoop (Re.run r) k n rest (stateAt p c)))
      as Hn.
    { intros [|n]; simpl; [done|]. by destruct (Re.run r _ _ _). }
    split; [rewrite run_star; apply Hn|]. by intros r' n [= <-] _.
  - rewrite length_app_string, Nat.add_assoc in Hk.
    assert (forall n, String.length ((w1 +:+ w2) +:+ rest) <= n ->
              is_Some (starLoop (Re.run r) k n ((w1 +:+ w2) +:+ rest)
                                (stateAt p c))) as Hn.
    { intros n Hlen. rewrite append_assoc in *.
      rewrite (length_app_string w1) in Hlen.
      destruct n as [|n]; [destruct w1; [done|simpl in Hlen; lia]|].
      simpl.
      match goal with
      | |- is_Some (match ?e with _ => _ end) =>
          assert (is_Some e) as [y ->]; [|by eexists]
      end.
      apply IH1.
      assert ((String.length (w2 +:+ rest)
               <? String.length (w1 +:+ w2 +:+ rest)) = true) as ->.
      { apply Nat.ltb_lt. rewrite (length_app_string w1).
        destruct w1; [done|]. simpl. lia. }
      apply (IH2 k Hk); [done|]. destruct w1; [done|]. simpl in Hlen. lia. }
    split; [rewrite run_star; by apply Hn|]. intros r' n [= <-]. apply Hn.
  - split; [|done]. simpl in *. rewrite Nat.add_0_r in Hk.
    change ("" +:+ rest) with rest.
    by destruct (Re.run r rest (stateAt p c) k).
  - split; [|done]. simpl. destruct (IH k Hk) as [[y ->] _]. by eexists.
  - split; [|done]. simpl. apply IH. by rewrite prefix_app.
  - split; [|done]. simpl in *. done.
  - split; [|done]. simpl in *. by rewrite Nat.add_0_r in Hk.
Qed.

(** Completeness: when [r] has a match after which the continuation
    succeeds, the matcher succeeds (with that match or with one it tries
    before). *)
Lemma run_complete (r : regex) p w rest c c' :
  Matches r p w rest c c' ->
  forall (k : string -> Re.mstate -> option R),
    is_Some (k rest (stateAt (p + String.length w) c')) ->
    is_Some (Re.run r (w +:+ rest) (stateAt p c) k).
Proof. intros H k Hk. by apply (run_complete_star r p w rest c c' H k Hk). Qed.

End RunMatches.

(** ** Searching for a match *)

Lemma searchFrom_sound (r : regex) (s : string) (p : nat) m :
  Re.searchFrom r p s = Some m ->
  exists pre w rest,
    s = pre +:+ w +:+ rest /\ Matches r (p + String.length pre) w rest [] m.
Proof.
  revert p. induction s as [|a s IH]; intros p; simpl.
  - destruct (Re.run r "" _ _) as [m'|] eqn:E; [|done]. intros [= ->].
    apply (run_sound r "" p []) in E as (w & rest & c' & Hs & H & [= ->]).
    exists "", w, rest. simpl. by rewrite Nat.add_0_r.
  - destruct (Re.run r (String a s) _ _) as [m'|] eqn:E.
    + intros [= ->].
      apply (run_sound r _ p []) in E as (w & rest & c' & Hs & H & [= ->]).
      exists "", w, rest. simpl. by rewrite Nat.add_0_r.
    + intros (pre & w & rest & -> & H)%IH.
      exists (String a pre), w, rest. split; [done|].
      simpl. by rewrite <-Nat.add_succ_comm.
Qed.

Lemma exec_sound (r : regex) (s : string) m :
  Re.exec r s = Some m ->
  exists pre w rest,
    s = pre +:+ w +:+ rest /\ Matches r (String.length pre) w rest [] m.
Proof. apply searchFrom_sound. Qed.

Lemma searchFrom_complete (r : regex) (pre w rest : string) (p : nat) m :
  Matches r (p + String.length pre) w rest [] m ->
  is_Some (Re.searchFrom r p (pre +:+ w +:+ rest)).
Proof.
  revert p. induction pre as [|a pre IH]; intros p H.
  - simpl in H. rewrite Nat.add_0_r in H. change ("" +:+ ?x) with x.
    assert (is_Some (Re.run r (w +:+ rest) (stateAt p [])
                       (fun _ st => Some (Re.caps st)))) as [y Hy]
      by (by apply (run_complete r p w rest [] m H)).
    destruct (w +:+ rest); simpl; unfold stateAt in Hy; by rewrite Hy.
  - change (String a pre +:+ ?x) with (String a (pre +:+ x)). simpl.
    destruct (Re.run r _ _ _); [done|]. apply IH.
    simpl in H. by rewrite <-Nat.add_succ_comm in H.
Qed.

Lemma test_true (r : regex) (s : string) :
  Re.test r s = true <->
  exists pre w rest m,
    s = pre +:+ w +:+ rest /\ Matches r (String.length pre) w rest [] m.
Proof.
  unfold Re.test. split.
  - destruct (Re.exec r s) as [m|] eqn:E; [|done]. intros _.
    apply exec_sound in E as (pre & w & rest & Hs & H). by exists pre, w, rest, m.
  - intros (pre & w & rest & m & -> & H). unfold Re.exec.
    by destruct (searchFrom_complete r pre w rest 0 m H) as [y ->].
Qed.

(** ** Inverting matches *)

Lemma Matches_seq r1 r2 p w rest c c2 :
  Matches (RSeq r1 r2) p w rest c c2 <->
  exists w1 w2 c1,
    w = w1 +:+ w2 /\ Matches r1 p w1 (w2 +:+ rest) c c1 /\
    Matches r2 (p + String.length w1) w2 rest c1 c2.
Proof.
  split.
  - inversion 1; subst. by eexists _, _, _.
  - intros (w1 & w2 & c1 & -> & H1 & H2). by econstructor.
Qed.

Lemma Matches_char q p w rest c c' :
  Matches (RChar q) p w rest c c' <->
  exists x, w = String x "" /\ q x = true /\ c' = c.
Proof.
  split.
  - inversion 1; subst. by eexists.
  - intros (x & -> & Hq & ->). by constructor.
Qed.

Lemma Matches_eps p w rest c c' :
  Matches REps p w rest c c' <-> w = "" /\ c' = c.
Proof.
  split.
  - by inversion 1.
  - intros [-> ->]. constructor.
Qed.

Lemma Matches_group i r p w rest c c' :
  Matches (RGroup i r) p w rest c c' <->
  exists c1, c' = (i, w) :: c1 /\ Matches r p w rest c c1.
Proof.
  split.
  - inversion 1; subst. by eexists.
  - intros (c1 & -> & H). by constructor.
Qed.

Lemma Matches_begin p w rest c c' :
  Matches RBegin p w rest c c' <-> p = 0 /\ w = "" /\ c' = c.
Proof.
  split.
  - by inversion 1.
  - intros (-> & -> & ->). constructor.
Qed.

Lemma Matches_end p w rest c c' :
  Matches REnd p w rest c c' <-> w = "" /\ rest = "" /\ c' = c.
Proof.
  split.
  - by inversion 1.
  - intros (-> & -> & ->). constructor.
Qed.

Lemma Matches_groupFree r p w rest c c' :
  groupFree r = true -> Matches r p w rest c c' -> c' = c.
Proof.
  intros Hg H. induction H; simpl in Hg; try done.
  - apply andb_true_iff in Hg as [H1 H2]. rewrite IHMatches2, IHMatches1; done.
  - rewrite IHMatches2, IHMatches1; done.
  - by apply IHMatches.
Qed.

Lemma allChars_app (q : ascii -> bool) (a b : string) :
  allChars q (a +:+ b) = allChars q a && allChars q b.
Proof.
  induction a as [|x a IH]; [done|].
  change (allChars q (String x (a +:+ b))
          = allChars q (String x a) && allChars q b).
  simpl. by rewrite IH, andb_assoc.
Qed.

Lemma Matches_star_chars q p w rest c c' :
  Matches (RStar (RChar q)) p w rest c c' <-> allChars q w = true /\ c' = c.
Proof.
  split.
  - remember (RStar (RChar q)) as r eqn:Er. intros H.
    induction H; try discriminate; injection Er as ->; [done|].
    apply Matches_char in H0 as (x & -> & Hq & ->).
    destruct (IHMatches2 eq_refl) as [Hw ->]. split; [|done].
    rewrite allChars_app. simpl. by rewrite Hq, Hw.
  - intros [Hw ->]. revert p. induction w as [|x w IH]; intros p.
    + constructor.
    + simpl in Hw. apply andb_true_iff in Hw as [Hx Hw].
      apply (MStarStep _ _ (String x "") w rest c c c); [done| |by apply IH].
      by constructor.
Qed.

Lemma Matches_plus_chars q p w rest c c' :
  Matches (Re.plus (RChar q)) p w rest c c' <->
  w ≠ "" /\ allChars q w = true /\ c' = c.
Proof.
  unfold Re.plus. rewrite Matches_seq. split.
  - intros (w1 & w2 & c1 & -> & (x & -> & Hq & ->)%Matches_char
            & [Hw ->]%Matches_star_chars).
    split; [done|]. split; [|done].
    change (String x "" +:+ w2) with (String x w2). simpl. by rewrite Hq, Hw.
  - intros (Hne & Hw & ->). destruct w as [|x w]; [done|].
    simpl in Hw. apply andb_true_iff in Hw as [Hx Hw].
    exists (String x ""), w, c. split; [done|].
    split; [by apply Matches_char; eexists|]. by apply Matches_star_chars.
Qed.

(** ** The format of [RequestedTaskIDs] *)

Lemma isTaskId_noChar (id : string) :
  isTaskId id = true -> noChar "," id = true.
Proof.
  destruct id as [|x d]; [done|]. unfold isTaskId.
  destruct (Ascii.eqb_spec x "T"%char) as [->|Hx];
    [|by destruct x as [[] [] [] [] [] [] [] []]].
  intros [_ Hd]%andb_true_iff. unfold noChar. simpl.
  induction d as [|y d IH]; [done|]. simpl in *.
  apply andb_true_iff in Hd as [Hy Hd]. rewrite IH by done.
  by destruct y as [[] [] [] [] [] [] [] []].
Qed.

Lemma Matches_taskId p w rest c c' :
  Matches (RSeq (Re.lit "T") (Re.plus Re.digit)) p w rest c c' <->
  isTaskId w = true /\ c' = c.
Proof.
  rewrite Matches_seq. split.
  - intros (w1 & w2 & c1 & -> & (x & -> & Hx & ->)%Matches_char
            & (Hne & Hw & ->)%Matches_plus_chars).
    apply Ascii.eqb_eq in Hx as <-. split; [|done].
    change (isTaskId (String "T" w2) = true). simpl.
    by destruct w2; [|rewrite Hw].
  - intros [Hid ->]. destruct w as [|x d]; [done|]. unfold isTaskId in Hid.
    destruct (Ascii.eqb_spec x "T"%char) as [->|Hx];
      [|by destruct x as [[] [] [] [] [] [] [] []]].
    apply andb_true_iff in Hid as [Hne Hd].
    exists "T", d, c. split; [done|]. split.
    + apply Matches_char. by exists "T"%char.
    + apply Matches_plus_chars. by destruct d.
Qed.

Lemma app_string_nil_l (a : string) : "" +:+ a = a.
Proof. reflexivity. Qed.

Lemma join_cons2 (sep x y : string) (l : list string) :
  Str.join sep (x :: y :: l) = x +:+ sep +:+ Str.join sep (y :: l).
Proof. reflexivity. Qed.

(** Joining the pieces of a split gives the text back. *)
Lemma join_split (sep : ascii) (s : string) :
  Str.join (String sep "") (Str.split sep s) = s.
Proof.
  induction s as [|x s IH]; [done|]. simpl.
  destruct (split_cons sep s) as (h & t & E). rewrite E in *.
  destruct (Ascii.eqb_spec x sep) as [->|Hx].
  - rewrite join_cons2, IH. reflexivity.
  - destruct t as [|y t].
    + simpl in *. by rewrite IH.
    + rewrite join_cons2 in *. rewrite <-IH. reflexivity.
Qed.

Lemma Matches_id_then r p w rest c c' :
  Matches (RSeq (Re.lit "T") (RSeq (Re.plus Re.digit) r)) p w rest c c' <->
  exists id w2,
    w = id +:+ w2 /\ isTaskId id = true /\
    Matches r (p + String.length id) w2 rest c c'.
Proof.
  rewrite Matches_seq. split.
  - intros (w1 & w' & c1 & -> & (x & -> & Hx & ->)%Matches_char
            & (d & w2 & c2 & -> & (Hne & Hd & ->)%Matches_plus_chars & H)
              %Matches_seq).
    apply Ascii.eqb_eq in Hx as <-.
    exists (String "T" d), w2. split; [by rewrite <-append_assoc|].
    split; [simpl; by destruct d; [|rewrite Hd]|].
    simpl in *. by rewrite <-Nat.add_assoc in H.
  - intros (id & w2 & -> & Hid & H). destruct id as [|x d]; [done|].
    unfold isTaskId in Hid.
    destruct (Ascii.eqb_spec x "T"%char) as [->|Hx];
      [|by destruct x as [[] [] [] [] [] [] [] []]].
    apply andb_true_iff in Hid as [Hne Hd].
    exists "T", (d +:+ w2), c. split; [done|]. split.
    + apply Matches_char. by exists "T"%char.
    + apply Matches_seq. exists d, w2, c. split; [done|]. split.
      * apply Matches_plus_chars. by destruct d.
      * simpl in *. by rewrite <-Nat.add_assoc.
Qed.

Lemma Matches_comma_id p w rest c c' :
  Matches (RGroup 1 (Re.seq [Re.lit ","; Re.lit "T"; Re.plus Re.digit]))
          p w rest c c' <->
  exists id, w = String "," id /\ isTaskId id = true /\ c' = (1, w) :: c.
Proof.
  rewrite Matches_group. unfold Re.seq. cbn [foldr]. split.
  - intros (c1 & -> & (w1 & w' & c2 & -> & (x & -> & Hx & ->)%Matches_char
            & (id & w2 & -> & Hid & [-> ->]%Matches_eps)%Matches_id_then)
              %Matches_seq).
    apply Ascii.eqb_eq in Hx as <-. exists id.
    rewrite app_string_nil_r. done.
  - intros (id & -> & Hid & ->). exists c. split; [done|].
    apply Matches_seq. exists ",", id, c. split; [done|]. split.
    + apply Matches_char. by exists ","%char.
    + apply Matches_id_then. exists id, "". rewrite app_string_nil_r.
      split; [done|]. split; [done|]. by apply Matches_eps.
Qed.

Lemma star_ids_split p w rest c c' :
  Matches (RStar (RGroup 1 (Re.seq [Re.lit ","; Re.lit "T"; Re.plus Re.digit])))
          p w rest c c' ->
  forall id, noChar "," id = true ->
    forallb isTaskId (Str.split "," (id +:+ w)) = isTaskId id.
Proof.
  remember (RStar _) as r eqn:Er. intros H.
  induction H; try discriminate; injection Er as ->; intros id Hid.
  - rewrite app_string_nil_r, split_noChar by done. simpl. apply andb_true_r.
  - apply Matches_comma_id in H0 as (id' & -> & Hid' & ->).
    change (String "," id' +:+ w2) with (String "," (id' +:+ w2)).
    rewrite split_app by done. simpl.
    rewrite (IHMatches2 eq_refl) by (by apply isTaskId_noChar).
    by rewrite Hid', andb_true_r.
Qed.

Lemma star_ids_join (x : string) (l : list string) p c :
  forallb isTaskId (x :: l) = true ->
  exists c',
    Matches (RStar (RGroup 1 (Re.seq [Re.lit ","; Re.lit "T"; Re.plus Re.digit])))
            p (String "," (Str.join "," (x :: l))) "" c c'.
Proof.
  revert x p c. induction l as [|y l IH]; intros x p c H;
    simpl in H; apply andb_true_iff in H as [Hx Hl].
  - eexists. simpl.
    rewrite <-(app_string_nil_r (String "," x)).
    eapply MStarStep; [done| |constructor].
    apply Matches_comma_id. by exists x.
  - destruct (IH y (p + String.length (String "," x)) ((1, String "," x) :: c))
      as [c' Hc']; [done|].
    exists c'. rewrite join_cons2.
    change (String "," (x +:+ "," +:+ Str.join "," (y :: l)))
      with (String "," x +:+ String "," (Str.join "," (y :: l))).
    eapply MStarStep; [done| |exact Hc'].
    apply Matches_comma_id. by exists x.
Qed.

Lemma length_0_string (s : string) : String.length s = 0 -> s = "".
Proof. by destruct s. Qed.

(** The check of [RequestedTaskIDs] accepts a text exactly when each of
    its pieces between commas is [T] followed by digits. *)
Lemma taskIds_format (text : string) :
  Re.test reTaskIds text = forallb isTaskId (Str.split "," text).
Proof.
  apply eq_true_iff_eq. rewrite test_true. unfold reTaskIds, Re.seq.
  cbn [foldr]. split.
  - intros (pre & w & rest & m & -> & H).
    apply Matches_seq in H
      as (w0 & w' & c0 & -> & (Hp & -> & ->)%Matches_begin & H).
    apply length_0_string in Hp as ->.
    apply Matches_id_then in H as (id & w1 & -> & Hid & H).
    apply Matches_seq in H as (ws & w2 & c1 & -> & Hs & H).
    apply Matches_seq in H
      as (w3 & w4 & c2 & -> & Hend & [-> ->]%Matches_eps).
    apply Matches_end in Hend as (-> & Hrest & ->).
    change ("" +:+ rest) with rest in Hrest. subst rest.
    rewrite !app_string_nil_r, !app_string_nil_l in *.
    rewrite (star_ids_split _ _ _ _ _ Hs); [done|by apply isTaskId_noChar].
  - intros H. destruct (split_cons "," text) as (id & ids & E).
    rewrite E in H. pose proof (join_split "," text) as Hj. rewrite E in Hj.
    simpl in H. apply andb_true_iff in H as [Hid Hids].
    assert (exists ws c', text = id +:+ ws /\
              Matches (RStar (RGroup 1 (RSeq (Re.lit ",")
                         (RSeq (Re.lit "T") (RSeq (Re.plus Re.digit) REps)))))
                      (0 + String.length id) ws "" [] c')
      as (ws & c' & -> & Hs).
    { destruct ids as [|x l].
      - exists "", []. simpl in Hj. subst. rewrite app_string_nil_r.
        split; [done|]. constructor.
      - destruct (star_ids_join x l (0 + String.length id) [] Hids)
          as [c' Hc'].
        exists (String "," (Str.join "," (x :: l))), c'. split; [|done].
        by rewrite join_cons2 in Hj. }
    exists "", (id +:+ ws), "", c'. split; [by rewrite app_string_nil_r|].
    apply Matches_seq. exists "", (id +:+ ws), []. split; [done|].
    split; [by apply Matches_begin|].
    apply Matches_id_then. exists id, ws. split; [done|]. split; [done|].
    apply Matches_seq. exists ws, "", c'. rewrite app_string_nil_r.
    split; [done|]. split; [done|].
    apply Matches_seq. exists "", "", c'. split; [done|].
    split; [by apply Matches_end|]. by apply Matches_eps.
Qed.

(** The issues of row [i + 1] about [RequestedTaskIDs]: one message when
    the cell is not empty and some piece between its commas is not [T]
    followed by digits (a space after a comma is enough), none
    otherwise. *)
Theorem requested_task_ids_flagged_exactly (data : list DataRow) issues i row :
  validateDataset clients data = Ok issues ->
  data !! i = Some row ->
  List.filter (isRowIssue (i + 1) "RequestedTaskIDs should be ") issues
  = if Str.nonEmpty (textOf "RequestedTaskIDs" row)
       && negb (forallb isTaskId
                  (Str.split "," (textOf "RequestedTaskIDs" row)))
    then [msgGot (i + 1)
            "RequestedTaskIDs should be comma-separated T-prefixed IDs"
            (textOf "RequestedTaskIDs" row)]
    else [].
Proof.
  intros Hv Hrow. rewrite (filter_row _ _ _ _ _ _ Hv Hrow).
  rewrite <-taskIds_format. unfold rowIssues, cellIssues, keyColumn.
  unfold taskIdsIssue at 1. cbv zeta.
  generalize (Str.nonEmpty (textOf "RequestedTaskIDs" row)
              && negb (Re.test reTaskIds (textOf "RequestedTaskIDs" row))).
  intros b. filter_pieces.
Qed.

Lemma requested_task_ids_flagged_exactly_witness :
  exists issues,
    validateDataset clients requestClients = Ok issues /\
    List.filter (isRowIssue 1 "RequestedTaskIDs should be ") issues
    = [msgGot 1 "RequestedTaskIDs should be comma-separated T-prefixed IDs"
              "T1, T2"] /\
    List.filter (isRowIssue 2 "RequestedTaskIDs should be ") issues = [] /\
    List.filter (isRowIssue 3 "RequestedTaskIDs should be ") issues = [].
Proof.
  eexists. split; [by vm_compute|]. split; [|split].
  - exact (requested_task_ids_flagged_exactly requestClients _ 0 _
             eq_refl eq_refl).
  - exact (requested_task_ids_flagged_exactly requestClients _ 1 _
             eq_refl eq_refl).
  - exact (requested_task_ids_flagged_exactly requestClients _ 2 _
             eq_refl eq_refl).
Defined.

(** ** The groups of the command templates *)

Lemma seq_skip a r p w rest c c' :
  groupFree a = true ->
  Matches (RSeq a r) p w rest c c' ->
  exists p' w', Matches r p' w' rest c c'.
Proof.
  intros Ha (w1 & w2 & c1 & -> & H1 & H2)%Matches_seq.
  apply Matches_groupFree in H1 as ->; [|done]. by eexists _, _.
Qed.

Lemma seq_group i q r p w rest c c' :
  Matches (RSeq (RGroup i (Re.plus (RChar q))) r) p w rest c c' ->
  exists text p' w',
    text ≠ "" /\ allChars q text = true /\
    Matches r p' w' rest ((i, text) :: c) c'.
Proof.
  intros (w1 & w2 & c1 & -> & (c2 & -> & (Hne & Hq & ->)%Matches_plus_chars)
            %Matches_group & H2)%Matches_seq.
  by eexists w1, _, _.
Qed.

Ltac skip_free H :=
  repeat (apply seq_skip in H as (? & ? & H); [|reflexivity]).

Lemma rePriorityCommand_groups (s : string) m :
  Re.exec rePriorityCommand s = Some m ->
  exists digits,
    m = [(1, digits)] /\ digits ≠ "" /\ allChars Str.is_digit digits = true.
Proof.
  intros (pre & w & rest & _ & H)%exec_sound.
  unfold rePriorityCommand, Re.seq in H. cbn [foldr] in H.
  skip_free H.
  apply seq_group in H as (digits & ? & ? & Hne & Hd & [_ ->]%Matches_eps).
  by exists digits.
Qed.

Lemma reLoadCommand_groups (s : string) m :
  Re.exec reLoadCommand s = Some m ->
  exists digits group,
    m = [(2, group); (1, digits)] /\
    digits ≠ "" /\ allChars Str.is_digit digits = true /\
    group ≠ "" /\ allChars Str.is_word group = true.
Proof.
  intros (pre & w & rest & _ & H)%exec_sound.
  unfold reLoadCommand, Re.seq in H. cbn [foldr] in H.
  skip_free H.
  apply seq_group in H as (digits & ? & ? & Hne & Hd & H).
  skip_free H.
  apply seq_group in H as (group & ? & ? & Hne' & Hg & H).
  skip_free H. apply Matches_eps in H as [_ ->].
  by exists digits, group.
Qed.

Lemma reGroupCommand_groups (s : string) m :
  Re.exec reGroupCommand s = Some m ->
  exists digits group,
    m = [(2, digits); (1, group)] /\
    digits ≠ "" /\ allChars Str.is_digit digits = true /\
    group ≠ "" /\ allChars Str.is_word group = true.
Proof.
  intros (pre & w & rest & _ & H)%exec_sound.
  unfold reGroupCommand, Re.seq in H. cbn [foldr] in H.
  skip_free H.
  apply seq_group in H as (group & ? & ? & Hne' & Hg & H).
  skip_free H.
  apply seq_group in H as (digits & ? & ? & Hne & Hd & [_ ->]%Matches_eps).
  by exists digits, group.
Qed.

(** ** [parseInt] on digits *)

Lemma digitsVal_nonneg (s : string) (acc : Z) :
  allChars Str.is_digit s = true -> (0 <= acc)%Z ->
  (0 <= Num.digitsVal 10 acc s)%Z.
Proof.
  revert acc. induction s as [|x s IH]; intros acc Hs Hacc; simpl; [done|].
  simpl in Hs. apply andb_true_iff in Hs as [Hx Hs]. apply IH; [done|].
  unfold Num.digitVal. rewrite Hx. simpl.
  unfold Str.is_digit in Hx. apply andb_true_iff in Hx as [Hlo _].
  apply Nat.leb_le in Hlo. lia.
Qed.

Lemma span_all (q : ascii -> bool) (s : string) :
  allChars q s = true -> Str.span q s = (s, "").
Proof.
  induction s as [|x s IH]; simpl; [done|].
  intros [-> Hs]%andb_true_iff. by rewrite IH.
Qed.

Lemma isDigitIn_10 (x : ascii) :
  Str.is_digit x = true -> Num.isDigitIn 10 x = true.
Proof. destruct x as [[] [] [] [] [] [] [] []]; done. Qed.

Lemma allChars_impl (q q' : ascii -> bool) (s : string) :
  (forall x, q x = true -> q' x = true) ->
  allChars q s = true -> allChars q' s = true.
Proof.
  intros Hq. induction s as [|x s IH]; simpl; [done|].
  intros [Hx Hs]%andb_true_iff. by rewrite (Hq x Hx), IH.
Qed.

(** [parseInt] of a text of digits is the number the digits write. *)
Lemma parseInt_digits (digits : string) :
  digits ≠ "" -> allChars Str.is_digit digits = true ->
  Num.parseInt digits = Num.ofZ (Num.digitsVal 10 0 digits) /\
  (0 <= Num.digitsVal 10 0 digits)%Z.
Proof.
  intros Hne Hd. split; [|by apply digitsVal_nonneg].
  destruct digits as [|x d]; [done|]. pose proof Hd as Hd'.
  simpl in Hd'. apply andb_true_iff in Hd' as [Hx Hd'].
  unfold Num.parseInt.
  assert (Str.trimStart (String x d) = String x d) as ->.
  { simpl. by destruct x as [[] [] [] [] [] [] [] []]. }
  assert (Num.sign (String x d) = (1%Z, String x d)) as ->
    by (by destruct x as [[] [] [] [] [] [] [] []]).
  assert (Num.radixPrefix (String x d) = (10%Z, String x d)) as ->.
  { destruct d as [|y d]; [by destruct x as [[] [] [] [] [] [] [] []]|].
    simpl in Hd'. apply andb_true_iff in Hd' as [Hy _].
    destruct x as [[] [] [] [] [] [] [] []]; try done;
      destruct y as [[] [] [] [] [] [] [] []]; done. }
  rewrite (span_all (Num.isDigitIn 10))
    by (eapply allChars_impl; [apply isDigitIn_10|done]).
  simpl Str.nonEmpty. cbv iota. f_equal.
  by destruct (Num.digitsVal 10 0 (String x d)).
Qed.

Lemma lower_word (group : string) :
  group ≠ "" -> allChars Str.is_word group = true ->
  isLowerWord (Str.toLowerCase group) = true.
Proof.
  intros Hne Hg. unfold isLowerWord.
  rewrite nonEmpty_toLowerCase, toLowerCase_idem, String.eqb_refl.
  apply nonEmpty_true in Hne as ->. simpl. rewrite andb_true_r.
  induction group as [|x g IH]; simpl in *; [done|].
  apply andb_true_iff in Hg as [Hx Hg]. by rewrite is_word_lower, Hx, IH.
Qed.

(** A parsed command without a condition changes all priorities. *)
Lemma parsed_unconditional (command : string) parsedCommand :
  parseModificationCommand command = Some parsedCommand ->
  cmd_condition parsedCommand = None ->
  exists value : Z,
    (0 <= value)%Z /\ parsedCommand = changeAllPriorities value.
Proof.
  unfold parseModificationCommand.
  destruct (Re.exec rePriorityCommand _) as [m1|] eqn:E1.
  - intros [= <-] _.
    apply rePriorityCommand_groups in E1 as (digits & -> & Hne & Hd).
    destruct (parseInt_digits digits Hne Hd) as [Hp Hv].
    exists (Num.digitsVal 10 0 digits). split; [done|].
    unfold changeAllPriorities. simpl. by rewrite Hp.
  - destruct (Re.exec reLoadCommand _); [by intros [= <-]|].
    destruct (Re.exec reGroupCommand _); [by intros [= <-]|done].
Qed.

(** The commands of the model, whose value is the integer that the
    digits of the command write. *)
Lemma parsed_command_cases (command : string) parsedCommand :
  parseModificationCommand command = Some parsedCommand ->
  exists value : Z,
    (0 <= value)%Z /\
    (parsedCommand = changeAllPriorities value \/
     exists group,
       isLowerWord group = true /\
       (parsedCommand = setGroupLoad value group \/
        parsedCommand = updateGroupPriority value group)).
Proof.
  unfold parseModificationCommand.
  rewrite (exec_toLowerCase _ _ caseBlind_rePriorityCommand).
  rewrite (exec_toLowerCase _ _ caseBlind_reLoadCommand).
  rewrite (exec_toLowerCase _ _ caseBlind_reGroupCommand).
  destruct (Re.exec rePriorityCommand command) as [m1|] eqn:E1; simpl.
  { intros [= <-].
    apply rePriorityCommand_groups in E1 as (digits & -> & Hne & Hd).
    destruct (parseInt_digits digits Hne Hd) as [Hp Hv].
    exists (Num.digitsVal 10 0 digits). split; [done|]. left.
    unfold changeAllPriorities. simpl.
    by rewrite parseInt_toLowerCase, Hp. }
  destruct (Re.exec reLoadCommand command) as [m2|] eqn:E2; simpl.
  { intros [= <-].
    apply reLoadCommand_groups in E2
      as (digits & group & -> & Hne & Hd & Hne' & Hg).
    destruct (parseInt_digits digits Hne Hd) as [Hp Hv].
    exists (Num.digitsVal 10 0 digits). split; [done|]. right.
    exists (Str.toLowerCase group). split; [by apply lower_word|]. left.
    unfold setGroupLoad. simpl. by rewrite parseInt_toLowerCase, Hp. }
  destruct (Re.exec reGroupCommand command) as [m3|] eqn:E3; simpl; [|done].
  intros [= <-].
  apply reGroupCommand_groups in E3
    as (digits & group & -> & Hne & Hd & Hne' & Hg).
  destruct (parseInt_digits digits Hne Hd) as [Hp Hv].
  exists (Num.digitsVal 10 0 digits). split; [done|]. right.
  exists (Str.toLowerCase group). split; [by apply lower_word|]. right.
  unfold updateGroupPriority. simpl. by rewrite parseInt_toLowerCase, Hp.
Qed.

Lemma withinExactIntegers_ofZ (value : Z) :
  withinExactIntegers (VNum (Num.ofZ value)) = (value <=? maxExactInteger)%Z.
Proof.
  unfold withinExactIntegers, Num.leb, Num.ltb, Num.ofZ, Num.Qltb. simpl.
  destruct (Z.leb_spec value maxExactInteger),
    (Z.ltb_spec (maxExactInteger * 1) (value * 1)); simpl; lia.
Qed.

(** Every command the parser understands is one of three: a change of
    all priorities, a load for the workers of a group, or a priority for
    the clients of a group.  Its group is a word in lower case.  Its
    value, when the number written in the command is at most [2^53], is
    that number, a natural number. *)
Theorem parsed_command_shape (command : string) parsedCommand :
  parseModificationCommand command = Some parsedCommand ->
  withinExactIntegers (cmd_value parsedCommand) = true ->
  exists value : Z,
    (0 <= value <= maxExactInteger)%Z /\
    (parsedCommand = changeAllPriorities value \/
     exists group,
       isLowerWord group = true /\
       (parsedCommand = setGroupLoad value group \/
        parsedCommand = updateGroupPriority value group)).
Proof.
  intros Hp Hv.
  destruct (parsed_command_cases command parsedCommand Hp)
    as (value & Hvalue & Hshape).
  exists value. split; [|done]. split; [done|].
  apply Z.leb_le. rewrite <-withinExactIntegers_ofZ, <-Hv.
  destruct Hshape as [->|(group & _ & [->| ->])]; done.
Qed.

Lemma parsed_command_shape_witness :
  exists value : Z,
    (0 <= value <= maxExactInteger)%Z /\
    (sampleLoadCommand = changeAllPriorities value \/
     exists group,
       isLowerWord group = true /\
       (sampleLoadCommand = setGroupLoad value group \/
        sampleLoadCommand = updateGroupPriority value group)).
Proof.
  apply (parsed_command_shape sampleCommand); by vm_compute.
Defined.

(** ** A change of all priorities, validated *)

Lemma Qred_inject_Z (value : Z) : Qred (inject_Z value) = inject_Z value.
Proof.
  pose proof (gcd_Qred (inject_Z value)) as Hg.
  pose proof (Qred_correct (inject_Z value)) as Hq.
  destruct (Qred (inject_Z value)) as [n d].
  unfold Qeq in Hq. simpl in *.
  assert (n = (value * Z.pos d)%Z) as -> by lia.
  rewrite Z.gcd_comm, Z.mul_comm, Z.gcd_mul_diag_l in Hg by lia.
  injection Hg as ->. unfold inject_Z. f_equal. lia.
Qed.

Lemma toString_ofZ (value : Z) : Num.toString (Num.ofZ value) = pretty value.
Proof. unfold Num.toString, Num.ofZ. by rewrite Qred_inject_Z. Qed.

Lemma outside1to5_ofZ (value : Z) :
  outside1to5 (Num.ofZ value) = negb ((1 <=? value)%Z && (value <=? 5)%Z).
Proof.
  unfold outside1to5, Num.gtb, Num.ltb, Num.ofZ, Num.Qltb. simpl.
  destruct (Z.leb_spec 1 value), (Z.leb_spec value 5),
    (Z.ltb_spec (value * 1) 1), (Z.ltb_spec 5 (value * 1)); simpl; lia.
Qed.

(** A command that changes all priorities is not checked against the
    range of the validator: once previewed, every client passes the check
    of [PriorityLevel] when the value is from 1 to 5, and every client
    fails it otherwise.  The value is the number written in the command,
    at most [2^53]. *)
Theorem change_all_then_validate
    command datasets parsedCommand preview issues i :
  handleCommandSubmit command datasets = Preview parsedCommand preview ->
  cmd_condition parsedCommand = None ->
  withinExactIntegers (cmd_value parsedCommand) = true ->
  validateDataset (cmd_dataset parsedCommand) preview = Ok issues ->
  i < length (datasets clients) ->
  exists value : Z,
    (0 <= value <= maxExactInteger)%Z /\
    cmd_value parsedCommand = VNum (Num.ofZ value) /\
    List.filter (isRowIssue (i + 1) "PriorityLevel must be 1-5") issues
    = if ((1 <=? value)%Z && (value <=? 5)%Z)
      then []
      else [msgGot (i + 1) "PriorityLevel must be 1-5" (pretty value)].
Proof.
  intros [Hp ->]%handleCommandSubmit_preview Hc Hexact Hv Hi.
  destruct (parsed_unconditional command parsedCommand Hp Hc)
    as (value & Hvalue & ->).
  exists value. split; [|split; [done|]].
  { split; [done|]. apply Z.leb_le. by rewrite <-withinExactIntegers_ofZ. }
  simpl in Hv.
  apply lookup_lt_is_Some in Hi as [row Hrow].
  rewrite (filter_numeric clients _ _ i
             (previewRow (changeAllPriorities value) row)
             "PriorityLevel" "PriorityLevel must be 1-5" outside1to5 Hv).
  - unfold numericIssue, previewRow, changeAllPriorities.
    cbn [cmd_condition cmd_field cmd_value]. rewrite get_assign_eq.
    cbn [ToNumber ToString]. rewrite outside1to5_ofZ, toString_ofZ.
    by destruct ((1 <=? value)%Z && (value <=? 5)%Z).
  - unfold previewData. by rewrite list_lookup_fmap, Hrow.
  - apply list_elem_of_here.
Qed.

Lemma change_all_then_validate_witness :
  exists (value : Z) parsedCommand preview issues,
    handleCommandSubmit overrangeCommand (fun _ => sampleClients)
    = Preview parsedCommand preview /\
    validateDataset clients preview = Ok issues /\
    cmd_value parsedCommand = VNum (Num.ofZ value) /\
    List.filter (isRowIssue 1 "PriorityLevel must be 1-5") issues
    = [msgGot 1 "PriorityLevel must be 1-5" "9"].
Proof.
  destruct (change_all_then_validate overrangeCommand (fun _ => sampleClients)
              (changeAllPriorities 9)
              (previewData (changeAllPriorities 9) sampleClients)
              _ 0 eq_refl eq_refl eq_refl eq_refl ltac:(simpl; lia))
    as (value & Hvalue & Hv & Hf).
  injection Hv as <-.
  by eexists 9%Z, _, _, _.
Defined.

(** ** Row numbers, written and read back *)

Lemma digitsVal_app radix acc (a b : string) :
  Num.digitsVal radix acc (a +:+ b)
  = Num.digitsVal radix (Num.digitsVal radix acc a) b.
Proof.
  revert acc. induction a as [|x a IH]; intros acc; [done|].
  change (String x a +:+ b) with (String x (a +:+ b)). simpl. apply IH.
Qed.

Lemma pretty_N_go_app (x : N) (s : string) :
  pretty_N_go x s = pretty_N_go x "" +:+ s.
Proof.
  revert s. induction (N.lt_wf_0 x) as [x _ IH]; intros s.
  destruct (decide (x = 0%N)) as [->|Hx]; [by rewrite !pretty_N_go_0|].
  rewrite !(pretty_N_go_step x) by lia.
  assert (x `div` 10 < x)%N as Hlt by (apply N.div_lt; lia).
  rewrite (IH _ Hlt (String _ s)), (IH _ Hlt (String _ "")).
  by rewrite append_assoc.
Qed.

Lemma digitVal_pretty_N_char (d : N) :
  (d < 10)%N -> Num.digitVal (pretty_N_char d) = Some (Z.of_N d).
Proof.
  intros Hd. destruct d as [|p]; [done|].
  do 4 (destruct p as [p|p|]; try done); lia.
Qed.

Lemma digitsVal_pretty_N_go (x : N) :
  Num.digitsVal 10 0 (pretty_N_go x "") = Z.of_N x.
Proof.
  induction (N.lt_wf_0 x) as [x _ IH].
  destruct (decide (x = 0%N)) as [->|Hx]; [by rewrite pretty_N_go_0|].
  rewrite pretty_N_go_step, pretty_N_go_app, digitsVal_app by lia.
  rewrite IH by (apply N.div_lt; lia). simpl.
  rewrite digitVal_pretty_N_char by (apply N.mod_lt; lia). simpl.
  rewrite (N.div_mod x 10) at 3 by lia. lia.
Qed.

Lemma digitsVal_pretty_nat (n : nat) :
  Num.digitsVal 10 0 (pretty n) = Z.of_nat n.
Proof.
  unfold pretty, pretty_nat, pretty, pretty_N.
  case_decide as E; [by destruct n|].
  rewrite digitsVal_pretty_N_go. apply nat_N_Z.
Qed.

Lemma pretty_nat_nonempty (n : nat) : pretty n ≠ "".
Proof.
  unfold pretty, pretty_nat, pretty, pretty_N.
  case_decide as E; [done|].
  rewrite pretty_N_go_step by lia. rewrite pretty_N_go_app.
  intros H. apply (f_equal String.length) in H.
  rewrite length_app_string in H. simpl in H. lia.
Qed.

(** [parseInt] reads back the number a row number was printed from. *)
Lemma parseInt_pretty (n : nat) : Num.parseInt (pretty n) = Num.ofNat n.
Proof.
  destruct (parseInt_digits (pretty n) (pretty_nat_nonempty n)
              (allChars_pretty_nat n)) as [-> _].
  by rewrite digitsVal_pretty_nat.
Qed.

Lemma numberSub_ofZ (a b : Z) :
  numberSub (Num.ofZ a) (Num.ofZ b) = Num.ofZ (a - b).
Proof.
  unfold numberSub, Num.ofZ. f_equal.
  rewrite <-(Qred_inject_Z (a - b)). apply Qred_complete.
  unfold Qeq, Qminus, Qplus, Qopp, inject_Z. simpl. lia.
Qed.

Lemma toIndex_ofZ (z : Z) :
  (0 <= z)%Z -> toIndex (Num.ofZ z) = Some (Z.to_nat z).
Proof.
  intros Hz. unfold toIndex, Num.ofZ, Num.isInteger, Num.Qltb, inject_Z.
  simpl. rewrite Z.rem_1_r. simpl.
  destruct (Z.ltb_spec (z * 1) (0 * 1)); [lia|]. simpl. by rewrite Z.div_1_r.
Qed.

Lemma geb_ltb_ofZ (z : Z) (n : nat) :
  Num.geb (Num.ofZ z) (Num.ofZ 0) && Num.ltb (Num.ofZ z) (Num.ofNat n)
  = (0 <=? z)%Z && (z <? Z.of_nat n)%Z.
Proof.
  unfold Num.geb, Num.leb, Num.ltb, Num.ofNat, Num.ofZ, Num.Qltb, inject_Z.
  simpl.
  destruct (Z.leb_spec 0 z), (Z.ltb_spec (z * 1) 0),
    (Z.ltb_spec (z * 1) (Z.of_nat n * 1)), (Z.ltb_spec z (Z.of_nat n));
    simpl; lia.
Qed.

(** ** The row an issue names *)

Lemma exec_head (r : regex) (s : string) m :
  Re.run r s (stateAt 0 []) (fun _ st => Some (Re.caps st)) = Some m ->
  Re.exec r s = Some m.
Proof.
  unfold Re.exec, stateAt. intros H. destruct s; simpl; by rewrite H.
Qed.

Lemma Matches_word (w0 : string) p w rest c c' :
  Matches (Re.word Re.lit w0) p w rest c c' <-> w = w0 /\ c' = c.
Proof.
  revert p w. induction w0 as [|x w0 IH]; intros p w; simpl.
  - apply Matches_eps.
  - rewrite Matches_seq. split.
    + intros (w1 & w2 & c1 & -> & (y & -> & Hy & ->)%Matches_char
              & [-> ->]%IH).
      by apply Ascii.eqb_eq in Hy as ->.
    + intros [-> ->]. exists (String x ""), w0, c. split; [done|]. split.
      * apply Matches_char. exists x. by rewrite Ascii.eqb_refl.
      * by apply IH.
Qed.

Lemma Matches_reRowNumber p w rest c c' :
  Matches reRowNumber p w rest c c' <->
  exists digits,
    digits ≠ "" /\ allChars Str.is_digit digits = true /\
    w = "Row " +:+ digits +:+ ":" /\ c' = (1, digits) :: c.
Proof.
  unfold reRowNumber, Re.seq. cbn [foldr]. rewrite Matches_seq. split.
  - intros (w1 & w' & c1 & -> & [-> ->]%Matches_word & H).
    apply Matches_seq in H
      as (digits & w'' & c2 & -> & (c3 & -> & (Hne & Hd & ->)
            %Matches_plus_chars)%Matches_group & H).
    apply Matches_seq in H
      as (w3 & w4 & c4 & -> & (x & -> & Hx & ->)%Matches_char
          & [-> ->]%Matches_eps).
    apply Ascii.eqb_eq in Hx as <-. exists digits.
    by rewrite app_string_nil_r.
  - intros (digits & Hne & Hd & -> & ->).
    exists "Row ", (digits +:+ ":"), c. split; [done|].
    split; [by apply Matches_word|].
    apply Matches_seq. exists digits, ":", ((1, digits) :: c).
    split; [done|]. split.
    + apply Matches_group. exists c. split; [done|].
      by apply Matches_plus_chars.
    + apply Matches_seq. exists ":", "", ((1, digits) :: c).
      split; [done|]. split; [|by apply Matches_eps].
      apply Matches_char. by exists ":"%char.
Qed.

Lemma app_string_inv_head (a b c : string) : a +:+ b = a +:+ c -> b = c.
Proof.
  induction a as [|x a IH]; [done|].
  change (String x (a +:+ b) = String x (a +:+ c) -> b = c).
  intros [= H]. by apply IH.
Qed.

Lemma startsWith_refl (s : string) : Str.startsWith s s = true.
Proof. induction s as [|x s IH]; simpl; [done|]. by rewrite Ascii.eqb_refl. Qed.

(** The row number of a message about a row is found at its head. *)
Lemma exec_reRowNumber (n : nat) (rest : string) :
  Re.exec reRowNumber (rowPrefix n +:+ rest) = Some [(1, pretty n)].
Proof.
  rewrite rowPrefix_unfold.
  assert (is_Some (Re.run reRowNumber
            (("Row " +:+ pretty n +:+ ":") +:+ String " " rest)
            (stateAt 0 []) (fun _ st => Some (Re.caps st)))) as [m Hm].
  { eapply run_complete; [|done]. apply Matches_reRowNumber.
    exists (pretty n). split; [apply pretty_nat_nonempty|].
    split; [apply allChars_pretty_nat|done]. }
  rewrite !append_assoc in Hm. apply exec_head.
  change (":" +:+ String " " rest) with (String ":" (String " " rest)) in Hm.
  rewrite Hm. f_equal.
  apply run_sound in Hm as (w & rest' & c' & Hs & H & [= <-]).
  apply Matches_reRowNumber in H as (digits & Hne & Hd & -> & ->).
  rewrite !append_assoc in Hs. apply app_string_inv_head in Hs.
  change (":" +:+ rest') with (String ":" rest') in Hs.
  assert (pretty n = digits) as ->; [|done].
  apply (digits_colon _ _ (String " " rest) rest');
    [apply allChars_pretty_nat|done|].
  rewrite Hs. apply startsWith_refl.
Qed.

Lemma rowIndexOf_row (i : nat) (rest : string) (data : list DataRow) :
  i < length data ->
  rowIndexOf (rowPrefix (i + 1) +:+ rest) data = Some i.
Proof.
  intros Hi. unfold rowIndexOf. rewrite exec_reRowNumber. cbv zeta.
  change (Re.group 1 [(1, pretty (i + 1))]) with (pretty (i + 1)).
  rewrite parseInt_pretty.
  change (Num.ofNat (i + 1)) with (Num.ofZ (Z.of_nat (i + 1))).
  rewrite numberSub_ofZ, geb_ltb_ofZ.
  replace (Z.of_nat (i + 1) - 1)%Z with (Z.of_nat i) by lia.
  destruct (Z.leb_spec 0 (Z.of_nat i)); [|lia].
  destruct (Z.ltb_spec (Z.of_nat i) (Z.of_nat (length data))); [|lia].
  cbn [andb]. rewrite toIndex_ofZ by lia. by rewrite Nat2Z.id.
Qed.

(** ** Corrections of attributes that do not parse *)

Lemma includes_app_l (sub a b : string) :
  Str.includes sub b = true -> Str.includes sub (a +:+ b) = true.
Proof.
  intros H. induction a as [|x a IH]; [done|].
  change (String x a +:+ b) with (String x (a +:+ b)).
  destruct sub; simpl in *; [done|]. rewrite IH. apply orb_true_r.
Qed.

Lemma msgInvalidJson_includes n attributes :
  Str.includes "Invalid JSON" (msgInvalidJson n attributes) = true /\
  Str.includes "AttributesJSON" (msgInvalidJson n attributes) = true.
Proof.
  unfold msgInvalidJson. split; apply includes_app_l.
  - reflexivity.
  - by vm_compute.
Qed.

(** The messages of row [i + 1] about attributes that do not parse. *)
Lemma filter_attributes (data : list DataRow) issues i row :
  validateDataset clients data = Ok issues ->
  data !! i = Some row ->
  List.filter (isRowIssue (i + 1) invalidJsonHead) issues
  = attributesIssue (i + 1) row.
Proof.
  intros Hv Hrow. rewrite (filter_row _ _ _ _ _ _ Hv Hrow).
  unfold rowIssues, cellIssues, keyColumn, invalidJsonHead.
  unfold attributesIssue. cbv zeta.
  destruct (parsed "INVALID_JSON" (textOf "AttributesJSON" row));
    [destruct (Json.parse (textOf "AttributesJSON" row))|]; filter_pieces.
Qed.

(** An issue of the list that starts as an issue of row [i + 1] is about
    a row of the data. *)
Lemma issue_row (datasetType : DatasetType) (data : list DataRow)
    issues error i what :
  validateDataset datasetType data = Ok issues ->
  error ∈ issues ->
  isRowIssue (i + 1) what error = true ->
  i < length data /\ exists rest, error = rowPrefix (i + 1) +:+ rest.
Proof.
  rewrite validateDataset_scan. intros [= <-] [Hin|Hin]%elem_of_app Hp.
  - unfold checkRequiredColumns in Hin.
    destruct data as [|row0 data]; [by apply elem_of_nil in Hin|].
    destruct (0 <? _); [|by apply elem_of_nil in Hin].
    apply list_elem_of_singleton in Hin as ->.
    by rewrite isRowIssue_missing in Hp.
  - apply scan_form in Hin as (j & rest & Hj & ->).
    apply isRowIssue_row in Hp. assert (i = j) as -> by lia.
    split; [lia|by exists rest].
Qed.

Lemma json_parse_braces : exists j, Json.parse "{}" = Ok j.
Proof. eexists. by vm_compute. Qed.

(** For attributes that the validator could not parse, the suggestion is
    a text that parses. *)
Lemma suggestCorrections_attributes n row :
  parsed "INVALID_JSON" (textOf "AttributesJSON" row) = true ->
  exists correction j,
    suggestCorrections
      (msgInvalidJson n (textOf "AttributesJSON" row)) row = Some correction /\
    Json.parse correction = Ok j /\ correction ≠ "".
Proof.
  intros Hp. unfold suggestCorrections.
  destruct (msgInvalidJson_includes n (textOf "AttributesJSON" row))
    as [-> _].
  cbv zeta. unfold parsed, textOf in Hp. rewrite Hp.
  destruct (Json.parse (requote _)) as [j|x] eqn:E.
  - eexists _, j. split; [done|]. split; [done|].
    intros E'. rewrite E' in E. by vm_compute in E.
  - destruct json_parse_braces as [j Hj]. by exists "{}", j.
Qed.

Lemma generateCorrections_from (errors : list string) (data : list DataRow)
    (k : nat) (m : gmap nat string) (e : nat) :
  foldl (fun newCorrections entry =>
           match correctionFor entry.2 data with
           | Some correction => <[entry.1 := correction]> newCorrections
           | None => newCorrections
           end)
        m (zip (seq k (length errors)) errors) !! (k + e)
  = match errors !! e with
    | Some error =>
        match correctionFor error data with
        | Some correction => Some correction
        | None => m !! (k + e)
        end
    | None => m !! (k + e)
    end.
Proof.
  revert k m e. induction errors as [|error errors IH]; intros k m e; simpl.
  - done.
  - destruct e as [|e]; simpl.
    + specialize (IH (S k)
                     (match correctionFor error data with
                      | Some correction => <[k := correction]> m
                      | None => m
                      end) (length errors)).
      assert (forall m' : gmap nat string,
                foldl (fun newCorrections entry =>
                         match correctionFor entry.2 data with
                         | Some correction =>
                             <[entry.1 := correction]> newCorrections
                         | None => newCorrections
                         end)
                      m' (zip (seq (S k) (length errors)) errors) !! (k + 0)
                = m' !! (k + 0)) as Hout.
      { clear. generalize (S k) (Nat.lt_succ_diag_r k).
        induction errors as [|error errors IH]; intros k' Hk m'; simpl;
          [done|].
        rewrite IH by lia. destruct (correctionFor error data); [|done].
        rewrite lookup_insert_ne by lia. done. }
      rewrite Hout. destruct (correctionFor error data); [|done].
      by rewrite Nat.add_0_r, lookup_insert_eq.
    + specialize (IH (S k)
                     (match correctionFor error data with
                      | Some correction => <[k := correction]> m
                      | None => m
                      end) e).
      replace (k + S e) with (S k + e) by lia. rewrite IH.
      destruct (errors !! e) as [error'|];
        [destruct (correctionFor error' data); [done|]|];
        destruct (correctionFor error data); try done;
        by rewrite lookup_insert_ne by lia.
Qed.

(** The correction recorded for an issue is the one computed from it. *)
Lemma generateCorrections_lookup (errors : list string) (data : list DataRow)
    (e : nat) :
  generateCorrections errors data !! e
  = (error ← errors !! e; correctionFor error data).
Proof.
  unfold generateCorrections.
  rewrite (generateCorrections_from errors data 0 ∅ e).
  destruct (errors !! e) as [error|]; simpl; [|done].
  by destruct (correctionFor error data).
Qed.

(** ** Applying a correction *)

Lemma truthy_present f row :
  truthy (get f row) = true -> arrayIncludes f (keys row) = true.
Proof.
  intros H. destruct (arrayIncludes f (keys row)) eqn:E; [done|].
  apply get_absent in E. by rewrite E in H.
Qed.

Lemma keys_assign_present f v row :
  arrayIncludes f (keys row) = true -> keys (assign f v row) = keys row.
Proof. intros H. by rewrite keys_assign, H. Qed.

Lemma textOf_nonEmpty column row :
  Str.nonEmpty (textOf column row) = true -> truthy (get column row) = true.
Proof.
  unfold textOf, js_or. by destruct (truthy (get column row)).
Qed.

Lemma textOf_assign column text row :
  text ≠ "" -> textOf column (assign column (VStr text) row) = text.
Proof.
  intros Hne. unfold textOf, js_or. rewrite get_assign_eq. simpl.
  by apply nonEmpty_true in Hne as ->.
Qed.

Lemma textOf_assign_ne f column v row :
  f ≠ column -> textOf column (assign f v row) = textOf column row.
Proof. intros Hne. unfold textOf. by rewrite get_assign_ne. Qed.

(** Writing the attributes changes none of the other checks of the
    row. *)
Lemma rowIssues_assign_attributes ids index v row :
  rowIssues clients ids index (assign "AttributesJSON" v row)
  = duplicateIssue "ClientID" (index + 1) (keyOf clients row) ids ++
    numericIssue outside1to5 "PriorityLevel must be 1-5" "PriorityLevel"
                 (index + 1) row ++
    taskIdsIssue (index + 1) row ++
    attributesIssue (index + 1) (assign "AttributesJSON" v row).
Proof.
  unfold rowIssues, cellIssues, keyColumn, keyOf, numericIssue, taskIdsIssue.
  unfold keyColumn. rewrite !textOf_assign_ne, !get_assign_ne by done. done.
Qed.

Lemma checkRequiredColumns_head columns (data data' : list DataRow) :
  (keys <$> head data') = (keys <$> head data) ->
  checkRequiredColumns columns data' [] = checkRequiredColumns columns data [].
Proof.
  unfold checkRequiredColumns.
  destruct data as [|r d], data' as [|r' d']; simpl; try done.
  by intros [= ->].
Qed.

(** Where a message stands in a list in which it is the only one of its
    kind. *)
Lemma lookup_only {A} (p : A -> bool) (before after : list A) (x y : A) e :
  List.filter p before = [] -> List.filter p after = [] ->
  (before ++ x :: after) !! e = Some y -> p y = true ->
  e = length before.
Proof.
  intros Hb Ha He Hy.
  assert (forall l z, List.filter p l = [] -> z ∈ l -> p z = false) as Hnone.
  { intros l z Hl Hz. destruct (p z) eqn:E; [|done].
    assert (z ∈ List.filter p l) as Hin
      by (by apply list_elem_of_In, filter_In; split;
          [apply list_elem_of_In|]).
    rewrite Hl in Hin. by apply elem_of_nil in Hin. }
  destruct (Nat.lt_trichotomy e (length before)) as [Hlt|[->|Hgt]]; [|done|].
  - rewrite lookup_app_l in He by done.
    apply list_elem_of_lookup_2, (Hnone _ _ Hb) in He. congruence.
  - rewrite lookup_app_r in He by lia.
    destruct (e - length before) as [|k] eqn:Ek; [lia|]. simpl in He.
    apply list_elem_of_lookup_2, (Hnone _ _ Ha) in He. congruence.
Qed.

(** The correction of attributes that do not parse, step by step: a
    correction is recorded for the issue; applying it writes a text that
    parses into the [AttributesJSON] cell of the row the issue names; and
    the validation that follows returns the issues it returned before
    without that one. *)
Lemma json_fix_steps (data : list DataRow) issues e error i :
  validateDataset clients data = Ok issues ->
  issues !! e = Some error ->
  isRowIssue (i + 1) invalidJsonHead error = true ->
  exists correction row j,
    data !! i = Some row /\
    generateCorrections issues data !! e = Some correction /\
    Json.parse correction = Ok j /\
    applyCorrection e correction issues data
    = Some (<[i := assign "AttributesJSON" (VStr correction) row]> data) /\
    validateDataset clients
      (<[i := assign "AttributesJSON" (VStr correction) row]> data)
    = Ok (delete e issues).
Proof.
  intros Hv He Hp.
  destruct (issue_row clients data issues error i _ Hv
              (list_elem_of_lookup_2 _ _ _ He) Hp) as [Hi [rest Hrest]].
  destruct (lookup_lt_is_Some_2 data i Hi) as [row Hrow].
  (* the issue is the one of the attributes of the row *)
  pose proof (filter_attributes data issues i row Hv Hrow) as Hf.
  assert (error ∈ attributesIssue (i + 1) row) as Hin.
  { rewrite <-Hf. apply list_elem_of_In, filter_In.
    split; [by eapply list_elem_of_In, list_elem_of_lookup_2|done]. }
  unfold attributesIssue in Hin, Hf. cbv zeta in Hin, Hf.
  destruct (parsed "INVALID_JSON" (textOf "AttributesJSON" row)) eqn:Hparsed;
    [|by apply elem_of_nil in Hin].
  destruct (Json.parse (textOf "AttributesJSON" row)) as [?|x] eqn:Hparse;
    [by apply elem_of_nil in Hin|].
  apply list_elem_of_singleton in Hin.
  (* the correction *)
  destruct (suggestCorrections_attributes (i + 1) row Hparsed)
    as (correction & j & Hs & Hj & Hne).
  rewrite <-Hin in Hs.
  assert (rowIndexOf error data = Some i) as Hindex
    by (rewrite Hrest; by apply rowIndexOf_row).
  exists correction, row, j. split; [done|]. split.
  { rewrite generateCorrections_lookup, He. simpl. unfold correctionFor.
    rewrite Hindex. simpl. rewrite Hrow. simpl. rewrite Hs. simpl.
    by apply nonEmpty_true in Hne as ->. }
  split; [done|]. split.
  { unfold applyCorrection. rewrite He. simpl. rewrite Hindex. simpl.
    rewrite Hrow. simpl.
    destruct (msgInvalidJson_includes (i + 1) (textOf "AttributesJSON" row))
      as [_ Hinc]. by rewrite Hin, Hinc. }
  (* the validation of the corrected data *)
  set (row' := assign "AttributesJSON" (VStr correction) row).
  assert (arrayIncludes "AttributesJSON" (keys row) = true) as Hkey.
  { apply truthy_present, textOf_nonEmpty.
    unfold parsed in Hparsed. by apply andb_true_iff in Hparsed as [-> _]. }
  assert (<[i := row']> data !! i = Some row') as Hrow'
    by (by apply list_lookup_insert_eq).
  set (ids := foldl (fun ids row => seenAfter (keyOf clients row) ids) ∅
                    (take i data)).
  set (header := checkRequiredColumns (requiredColumns clients) data []).
  set (before := scan clients ∅ 0 (take i data)).
  set (after := scan clients (seenAfter (keyOf clients row) ids) (S i)
                     (drop (S i) data)).
  set (others :=
         duplicateIssue "ClientID" (i + 1) (keyOf clients row) ids
         ++ numericIssue outside1to5 "PriorityLevel must be 1-5"
              "PriorityLevel" (i + 1) row
         ++ taskIdsIssue (i + 1) row).
  assert (issues = (header ++ before ++ others) ++ error :: after) as Hold.
  { rewrite validateDataset_scan in Hv. injection Hv as <-.
    rewrite (scan_split _ _ _ _ _ _ Hrow).
    change (0 + i) with i. change (0 + S i) with (S i).
    rewrite (take_S_r _ _ row Hrow), foldl_app. simpl foldl.
    unfold rowIssues, cellIssues, attributesIssue. cbv zeta.
    rewrite Hparsed, Hparse, <-Hin.
    unfold others, header, before, after, ids, keyColumn.
    by rewrite <-!app_assoc. }
  assert (validateDataset clients (<[i := row']> data)
          = Ok ((header ++ before ++ others) ++ after)) as Hnew.
  { rewrite validateDataset_scan. f_equal.
    rewrite (checkRequiredColumns_head _ data).
    2:{ destruct data as [|r d]; [done|]. destruct i as [|i]; [|done].
        simpl in *. injection Hrow as ->. unfold row'.
        by rewrite keys_assign_present. }
    rewrite (scan_split _ _ _ _ _ _ Hrow').
    change (0 + i) with i. change (0 + S i) with (S i).
    rewrite drop_insert_lt by lia.
    rewrite (take_S_r _ _ row' Hrow'), take_insert_ge, foldl_app by lia.
    simpl foldl.
    assert (keyOf clients row' = keyOf clients row) as ->
      by (unfold keyOf, row'; simpl; by rewrite get_assign_ne).
    unfold row'. rewrite rowIssues_assign_attributes.
    unfold attributesIssue. cbv zeta. rewrite textOf_assign by done.
    rewrite Hj.
    assert ((if parsed "INVALID_JSON" correction then [] else [])
            = @nil string) as ->
      by (by destruct (parsed "INVALID_JSON" correction)).
    unfold others, header, before, after, ids.
    by rewrite app_nil_r, <-!app_assoc. }
  rewrite Hnew. f_equal.
  assert (e = length (header ++ before ++ others)) as ->.
  { apply (lookup_only (isRowIssue (i + 1) invalidJsonHead) _ after error error);
      [| |by rewrite <-Hold|done].
    - rewrite !List.filter_app. unfold header, before.
      rewrite filter_header, filter_scan_other
        by (rewrite length_take; lia).
      unfold others, invalidJsonHead.
      filter_pieces.
    - unfold after. apply filter_scan_other. lia. }
  rewrite Hold. by rewrite delete_middle.
Qed.

(** The Auto-Fix of attributes that do not parse, from the click to the
    validated data: after [Auto-Fix] and [Apply] on such an issue, the
    [AttributesJSON] cell of the row the issue names holds a text that
    parses, the other rows are as they were, and the issues are those of
    before without that one.  The corrections recorded for the other
    issues stay under their old indices. *)
Theorem json_fix_removes_issue (data : list DataRow) issues e error i :
  validateDataset clients data = Ok issues ->
  issues !! e = Some error ->
  isRowIssue (i + 1) invalidJsonHead error = true ->
  exists s0 s1 correction row j,
    fixStart clients data = Ok s0 /\
    applyFix clients e (autoFix s0) = Ok s1 /\
    data !! i = Some row /\ Json.parse correction = Ok j /\
    fix_data s1 = <[i := assign "AttributesJSON" (VStr correction) row]> data /\
    fix_errors s1 = delete e issues /\
    fix_corrections s1 = delete e (generateCorrections issues data).
Proof.
  intros Hv He Hp.
  destruct (json_fix_steps data issues e error i Hv He Hp)
    as (correction & row & j & Hrow & Hc & Hj & Ha & Hv').
  eexists _, _, correction, row, j.
  split; [unfold fixStart; by rewrite Hv|].
  unfold applyFix, autoFix.
  cbn [fix_data fix_errors fix_corrections]. rewrite He, Hc, Ha, Hv'.
  by repeat split.
Qed.

Lemma json_fix_removes_issue_witness :
  exists s0 s1 correction row j,
    fixStart clients malformedClients = Ok s0 /\
    applyFix clients 1 (autoFix s0) = Ok s1 /\
    malformedClients !! 0 = Some row /\ Json.parse correction = Ok j /\
    fix_data s1
    = <[0 := assign "AttributesJSON" (VStr correction) row]> malformedClients /\
    fix_errors s1
    = delete 1 ["Row 1: PriorityLevel must be 1-5, got " +:+ dq +:+ "high" +:+ dq;
                msgInvalidJson 1 "{budget:1}"; msgInvalidJson 2 "{oops"] /\
    fix_corrections s1
    = delete 1 (generateCorrections
                  ["Row 1: PriorityLevel must be 1-5, got " +:+ dq +:+ "high"
                   +:+ dq;
                   msgInvalidJson 1 "{budget:1}"; msgInvalidJson 2 "{oops"]
                  malformedClients).
Proof.
  exact (json_fix_removes_issue malformedClients _ 1 _ 0
           eq_refl eq_refl eq_refl).
Defined.

(** ** Loading a file *)

Lemma endsWith_app (suffix base : string) :
  endsWith suffix (base +:+ suffix) = true.
Proof.
  unfold endsWith. rewrite length_app_string.
  apply andb_true_iff. split; [apply Nat.leb_le; lia|].
  replace (String.length base + String.length suffix - String.length suffix)
    with (String.length base) by lia.
  apply String.eqb_eq. induction base as [|x base IH].
  - change ("" +:+ suffix) with suffix. simpl. clear.
    induction suffix as [|y suffix IH]; simpl; [done|]. by rewrite IH.
  - change (String x base +:+ suffix) with (String x (base +:+ suffix)).
    simpl. apply IH.
Qed.

Lemma substring_full (s : string) : substring 0 (String.length s) s = s.
Proof. induction s as [|x s IH]; simpl; [done|]. by rewrite IH. Qed.

Lemma substring_drop (n m : nat) (s : string) :
  n + m = String.length s ->
  s = substring 0 n s +:+ substring n m s.
Proof.
  revert n. induction s as [|x s IH]; intros n H.
  - simpl in H. assert (n = 0) as -> by lia. by assert (m = 0) as -> by lia.
  - destruct n as [|n].
    + simpl in H. subst m. change (substring 0 0 (String x s)) with "".
      change (S (String.length s)) with (String.length (String x s)).
      by rewrite substring_full.
    + simpl in H. simpl substring.
      change (String x ?a +:+ ?b) with (String x (a +:+ b)). f_equal.
      apply IH. lia.
Qed.

Lemma endsWith_inv (suffix s : string) :
  endsWith suffix s = true -> exists base, s = base +:+ suffix.
Proof.
  unfold endsWith. intros [Hlen Heq]%andb_true_iff.
  apply Nat.leb_le in Hlen. apply String.eqb_eq in Heq.
  exists (substring 0 (String.length s - String.length suffix) s).
  etransitivity;
    [apply (substring_drop (String.length s - String.length suffix)
                           (String.length suffix)); lia|].
  by rewrite Heq.
Qed.

Lemma split_snoc (sep : ascii) (base ext : string) :
  noChar sep ext = true ->
  Str.split sep (base +:+ String sep ext) = Str.split sep base ++ [ext].
Proof.
  intros Hext. induction base as [|x base IH].
  - change ("" +:+ String sep ext) with (String sep ext). simpl.
    by rewrite Ascii.eqb_refl, split_noChar.
  - change (String x base +:+ String sep ext)
      with (String x (base +:+ String sep ext)). simpl. rewrite IH.
    destruct (split_cons sep base) as (h & t & ->).
    by destruct (Ascii.eqb x sep).
Qed.

Lemma last_split_app (sep : ascii) (base ext : string) :
  noChar sep ext = true ->
  last (Str.split sep (base +:+ String sep ext)) = Some ext.
Proof. intros Hext. by rewrite split_snoc, last_snoc. Qed.

Lemma split_toLowerCase (s : string) :
  Str.split "." (Str.toLowerCase s) = map Str.toLowerCase (Str.split "." s).
Proof.
  induction s as [|x s IH]; simpl; [done|]. rewrite IH.
  assert (Ascii.eqb (Str.lower_char x) "." = Ascii.eqb x ".") as ->
    by (by destruct x as [[] [] [] [] [] [] [] []]).
  destruct (Ascii.eqb x "."); [done|]. by destruct (Str.split "." s).
Qed.

(** The file chosen in the dialog is dispatched on the lower case of
    what follows the last dot of its name, so the case of the name does not
    matter. *)
Theorem file_dialog_ignores_case (name : string) :
  handleFileChange (Str.toLowerCase name) = handleFileChange name.
Proof.
  unfold handleFileChange, parseUploadedFile, fileExtension.
  rewrite split_toLowerCase, fmap_last, <-option_fmap_compose.
  destruct (last (Str.split "." name)) as [ext|]; simpl; [|done].
  by rewrite toLowerCase_idem.
Qed.

(** A dropped file is taken only when its name ends in [.csv] or
    [.xlsx], in lower case; it then goes to the parser of its kind and
    never to the alert. *)
Theorem dropped_file_is_parsed (name : string) action :
  handleDrop name = Some action ->
  (action = ParseCsv /\ exists base, name = base +:+ ".csv") \/
  (action = ParseXlsx /\ exists base, name = base +:+ ".xlsx").
Proof.
  unfold handleDrop.
  destruct (endsWith ".csv" name) eqn:E1; simpl.
  - intros [= <-]. left. apply endsWith_inv in E1 as [base ->].
    split; [|by exists base].
    unfold parseUploadedFile, fileExtension.
    change (base +:+ ".csv") with (base +:+ String "." "csv").
    by rewrite last_split_app.
  - destruct (endsWith ".xlsx" name) eqn:E2; [|done].
    intros [= <-]. right. apply endsWith_inv in E2 as [base ->].
    split; [|by exists base].
    unfold parseUploadedFile, fileExtension.
    change (base +:+ ".xlsx") with (base +:+ String "." "xlsx").
    by rewrite last_split_app.
Qed.

Lemma dropped_file_is_parsed_witness :
  (ParseXlsx = ParseCsv /\ exists base, "workers.v2.xlsx" = base +:+ ".csv") \/
  (ParseXlsx = ParseXlsx /\ exists base, "workers.v2.xlsx" = base +:+ ".xlsx").
Proof. apply (dropped_file_is_parsed "workers.v2.xlsx"). reflexivity. Defined.

Example upload_examples :
  handleDrop "clients.CSV" = None /\
  handleFileChange "clients.CSV" = ParseCsv /\
  handleFileChange "csv" = ParseCsv /\
  handleFileChange "notes.txt" = AlertUnsupported (Some "txt") /\
  handleDrop "notes.txt" = None.
Proof. repeat split. Qed.

(** ** Running the matcher on a text of a known form *)

Section RunForms.

Context {R : Type}.

Lemma advanceBy_0 (st : Re.mstate) : advanceBy 0 st = st.
Proof. destruct st. unfold advanceBy, stateAt. simpl. by rewrite Nat.add_0_r. Qed.

Lemma advanceBy_S n (st : Re.mstate) :
  advanceBy (S n) st = advanceBy n (Re.advance st).
Proof.
  destruct st. unfold advanceBy, stateAt, Re.advance. simpl.
  by rewrite Nat.add_succ_r.
Qed.

(** A literal word at the head of the input is matched, and nothing else
    is tried. *)
Lemma run_word (w0 s : string) (st : Re.mstate)
    (k : string -> Re.mstate -> option R) :
  Re.run (Re.word Re.lit w0) (w0 +:+ s) st k
  = k s (advanceBy (String.length w0) st).
Proof.
  revert st. induction w0 as [|x w0 IH]; intros st.
  - by rewrite advanceBy_0.
  - change (String x w0 +:+ s) with (String x (w0 +:+ s)). simpl.
    rewrite Ascii.eqb_refl, IH. by rewrite advanceBy_S.
Qed.

Lemma run_lit (x : ascii) (s : string) (st : Re.mstate)
    (k : string -> Re.mstate -> option R) :
  Re.run (Re.lit x) (String x s) st k = k s (advanceBy 1 st).
Proof. simpl. rewrite Ascii.eqb_refl. by rewrite advanceBy_S, advanceBy_0. Qed.

(** A starred class takes all the characters of the class at the head of
    the input, when the continuation succeeds after them. *)
Lemma run_star_chars (q : ascii -> bool) (w rest : string) (st : Re.mstate)
    (k : string -> Re.mstate -> option R) (x : R) :
  allChars q w = true -> stops q rest = true ->
  k rest (advanceBy (String.length w) st) = Some x ->
  Re.run (RStar (RChar q)) (w +:+ rest) st k = Some x.
Proof.
  intros Hw Hrest Hk. rewrite run_star.
  assert (forall n, String.length (w +:+ rest) <= n ->
            starLoop (Re.run (RChar q)) k n (w +:+ rest) st = Some x) as Hn;
    [|by apply Hn].
  revert st Hk. induction w as [|y w IH]; intros st Hk n Hlen.
  - rewrite advanceBy_0 in Hk. change ("" +:+ rest) with rest.
    destruct n as [|n]; simpl; [done|].
    destruct rest as [|z rest]; simpl; [by rewrite Hk|].
    simpl in Hrest. apply negb_true_iff in Hrest as ->. by rewrite Hk.
  - change (String y w +:+ rest) with (String y (w +:+ rest)) in *.
    simpl in Hw. apply andb_true_iff in Hw as [Hy Hw].
    destruct n as [|n]; [simpl in Hlen; lia|]. simpl. rewrite Hy.
    assert ((String.length (w +:+ rest) <? S (String.length (w +:+ rest)))
            = true) as -> by (apply Nat.ltb_lt; lia).
    rewrite (IH Hw (Re.advance st)); [done| |simpl in Hlen; lia].
    by rewrite <-advanceBy_S.
Qed.

End RunForms.

(** ** The numeric queries *)

Lemma pretty_nat_head (n : nat) :
  exists d ds, pretty n = String d ds /\ Str.is_digit d = true /\
               allChars Str.is_digit ds = true.
Proof.
  pose proof (allChars_pretty_nat n) as H.
  pose proof (pretty_nat_nonempty n) as Hne.
  destruct (pretty n) as [|d ds]; [done|]. simpl in H.
  apply andb_true_iff in H as [Hd Hds]. by exists d, ds.
Qed.

Lemma digit_not_space (d : ascii) :
  Str.is_digit d = true -> Str.is_space d = false.
Proof. destruct d as [[] [] [] [] [] [] [] []]; done. Qed.

Lemma run_seq {R} r1 r2 (s : string) (st : Re.mstate)
    (k : string -> Re.mstate -> option R) :
  Re.run (RSeq r1 r2) s st k
  = Re.run r1 s st (fun s' st' => Re.run r2 s' st' k).
Proof. reflexivity. Qed.

Lemma run_group {R} i r (s : string) (st : Re.mstate)
    (k : string -> Re.mstate -> option R) :
  Re.run (RGroup i r) s st k
  = Re.run r s st (fun s' st' =>
      k s' (Re.bindGroup i
              (Re.prefix (String.length s - String.length s') s) st')).
Proof. reflexivity. Qed.

Lemma run_char {R} q (x : ascii) (s : string) (st : Re.mstate)
    (k : string -> Re.mstate -> option R) :
  Re.run (RChar q) (String x s) st k
  = if q x then k s (Re.advance st) else None.
Proof. reflexivity. Qed.

Lemma run_eps {R} (s : string) (st : Re.mstate)
    (k : string -> Re.mstate -> option R) :
  Re.run REps s st k = k s st.
Proof. reflexivity. Qed.

Lemma run_group_digits {R} (n : nat) (st : Re.mstate)
    (k : string -> Re.mstate -> option R) (x : R) :
  k "" (Re.bindGroup 1 (pretty n) (advanceBy (String.length (pretty n)) st))
  = Some x ->
  Re.run (RGroup 1 (Re.plus Re.digit)) (pretty n) st k = Some x.
Proof.
  intros Hk. destruct (pretty_nat_head n) as (d & ds & E & Hd & Hds).
  rewrite E in *. unfold Re.plus, Re.digit.
  rewrite run_group, run_seq, run_char, Hd.
  rewrite <-(app_string_nil_r ds) at 1.
  apply run_star_chars; [done|done|].
  change (String.length (String d ds) - String.length "")
    with (String.length (String d ds)).
  unfold Re.prefix. rewrite substring_full.
  by rewrite <-advanceBy_S.
Qed.

(** On a numeric query the pattern of its key word and operator matches
    at the head, and its group is the number. *)
Lemma exec_numericQuery (keyword : string) (op : ascii) (ws1 ws2 : string)
    (n : nat) :
  allChars Str.is_space ws1 = true -> allChars Str.is_space ws2 = true ->
  Str.is_space op = false ->
  Re.exec (rePattern keyword op Re.digit)
          (numericQuery keyword op ws1 ws2 n)
  = Some [(1, pretty n)].
Proof.
  intros H1 H2 Hop. apply exec_head.
  unfold rePattern, Re.seq, numericQuery. cbn [foldr].
  rewrite run_seq, run_word, run_seq.
  apply run_star_chars; [done|by simpl; rewrite Hop|].
  rewrite run_seq, run_lit, run_seq.
  apply run_star_chars; [done| |].
  { destruct (pretty_nat_head n) as (d & ds & -> & Hd & _). simpl.
    by rewrite digit_not_space. }
  rewrite run_seq. apply run_group_digits. by rewrite run_eps.
Qed.

Lemma toLowerCase_app (a b : string) :
  Str.toLowerCase (a +:+ b) = Str.toLowerCase a +:+ Str.toLowerCase b.
Proof.
  induction a as [|x a IH]; [done|].
  change (String x a +:+ b) with (String x (a +:+ b)). simpl. by rewrite IH.
Qed.

Lemma toLowerCase_plain (s : string) :
  allChars (fun x => negb (Str.is_upper x)) s = true -> Str.toLowerCase s = s.
Proof.
  induction s as [|x s IH]; simpl; [done|].
  intros [Hx Hs]%andb_true_iff. rewrite IH by done. f_equal.
  unfold Str.lower_char. by apply negb_true_iff in Hx as ->.
Qed.

Lemma space_plain (x : ascii) :
  Str.is_space x = true -> negb (Str.is_upper x) = true.
Proof. destruct x as [[] [] [] [] [] [] [] []]; done. Qed.

Lemma digit_plain (x : ascii) :
  Str.is_digit x = true -> negb (Str.is_upper x) = true.
Proof. destruct x as [[] [] [] [] [] [] [] []]; done. Qed.

Lemma toLowerCase_numericQuery keyword op ws1 ws2 n :
  Str.toLowerCase keyword = keyword -> Str.is_upper op = false ->
  allChars Str.is_space ws1 = true -> allChars Str.is_space ws2 = true ->
  Str.toLowerCase (numericQuery keyword op ws1 ws2 n)
  = numericQuery keyword op ws1 ws2 n.
Proof.
  intros Hk Hop H1 H2. unfold numericQuery.
  rewrite !toLowerCase_app, Hk.
  rewrite (toLowerCase_plain ws1)
    by (eapply allChars_impl; [apply space_plain|done]).
  change (Str.toLowerCase (String op (ws2 +:+ pretty n)))
    with (String (Str.lower_char op) (Str.toLowerCase (ws2 +:+ pretty n))).
  rewrite toLowerCase_app.
  rewrite (toLowerCase_plain ws2)
    by (eapply allChars_impl; [apply space_plain|done]).
  rewrite (toLowerCase_plain (pretty n))
    by (eapply allChars_impl; [apply digit_plain|apply allChars_pretty_nat]).
  unfold Str.lower_char. by rewrite Hop.
Qed.

Lemma noChar_app (c : ascii) (a b : string) :
  noChar c (a +:+ b) = noChar c a && noChar c b.
Proof. apply allChars_app. Qed.

(** A pattern does not match a text without the first character of its
    key word, nor a text without its operator. *)
Lemma exec_none_keyword (c : ascii) keyword op operand (s : string) :
  noChar c s = true ->
  Re.exec (rePattern (String c keyword) op operand) s = None.
Proof.
  intros Hs. destruct (Re.exec _ s) as [m|] eqn:E; [|done].
  apply exec_sound in E as (pre & w & rest & -> & H).
  unfold rePattern, Re.seq in H. cbn [foldr] in H.
  apply Matches_seq in H as (w1 & w2 & c1 & -> & [-> _]%Matches_word & _).
  rewrite !noChar_app in Hs.
  change (noChar c (String c keyword))
    with (negb (Ascii.eqb c c) && noChar c keyword) in Hs.
  rewrite Ascii.eqb_refl in Hs. simpl in Hs.
  by rewrite andb_false_r in Hs.
Qed.

Lemma exec_none_operator keyword (op : ascii) operand (s : string) :
  noChar op s = true ->
  Re.exec (rePattern keyword op operand) s = None.
Proof.
  intros Hs. destruct (Re.exec _ s) as [m|] eqn:E; [|done].
  apply exec_sound in E as (pre & w & rest & -> & H).
  unfold rePattern, Re.seq in H. cbn [foldr] in H.
  apply Matches_seq in H as (w1 & w2 & c1 & -> & _ & H).
  apply Matches_seq in H as (w3 & w4 & c2 & -> & _ & H).
  apply Matches_seq in H
    as (w5 & w6 & c3 & -> & (x & -> & Hx & _)%Matches_char & _).
  apply Ascii.eqb_eq in Hx as <-.
  rewrite !noChar_app in Hs.
  change (noChar op (String op ""))
    with (negb (Ascii.eqb op op) && true) in Hs.
  rewrite Ascii.eqb_refl in Hs. simpl in Hs.
  by rewrite ?andb_false_r in Hs.
Qed.

Lemma noChar_numericQuery (c : ascii) keyword op ws1 ws2 n :
  noChar c keyword = true -> Ascii.eqb op c = false ->
  Str.is_space c = false -> Str.is_digit c = false ->
  allChars Str.is_space ws1 = true -> allChars Str.is_space ws2 = true ->
  noChar c (numericQuery keyword op ws1 ws2 n) = true.
Proof.
  intros Hk Hop Hsp Hd H1 H2. unfold numericQuery.
  assert (forall q s, q c = false -> allChars q s = true ->
                      noChar c s = true) as Hq.
  { intros q s Hc Hs. eapply allChars_impl; [|exact Hs].
    intros x Hx. apply negb_true_iff, Ascii.eqb_neq. intros ->.
    by rewrite Hc in Hx. }
  rewrite !noChar_app, Hk, (Hq _ ws1 Hsp H1). simpl.
  change (noChar c (String op (ws2 +:+ pretty n)))
    with (negb (Ascii.eqb op c) && noChar c (ws2 +:+ pretty n)).
  rewrite Hop, noChar_app, (Hq _ ws2 Hsp H2).
  by rewrite (Hq _ (pretty n) Hd (allChars_pretty_nat n)).
Qed.

(** The queries [priority > n], [priority < n], [duration > n] and
    [duration < n], with any white space around the operator, return
    exactly the rows whose [PriorityLevel] or [Duration], as a number, is
    greater or less than [n]; a row whose cell is not a number is never
    returned.  The bound on [n] and the condition on the cells keep the
    numbers among those that [parseInt] and [Number] read without
    rounding. *)
Theorem numeric_search_exact (ws1 ws2 : string) (n : nat)
    (data : list DataRow) :
  allChars Str.is_space ws1 = true -> allChars Str.is_space ws2 = true ->
  (Z.of_nat n <= maxExactInteger)%Z ->
  exactColumn "PriorityLevel" data = true ->
  exactColumn "Duration" data = true ->
  parseNaturalLanguageQuery (numericQuery "priority" ">" ws1 ws2 n) data
  = List.filter (fun row => Num.gtb (ToNumber (get "PriorityLevel" row))
                                    (Num.ofNat n)) data /\
  parseNaturalLanguageQuery (numericQuery "priority" "<" ws1 ws2 n) data
  = List.filter (fun row => Num.ltb (ToNumber (get "PriorityLevel" row))
                                    (Num.ofNat n)) data /\
  parseNaturalLanguageQuery (numericQuery "duration" ">" ws1 ws2 n) data
  = List.filter (fun row => Num.gtb (ToNumber (get "Duration" row))
                                    (Num.ofNat n)) data /\
  parseNaturalLanguageQuery (numericQuery "duration" "<" ws1 ws2 n) data
  = List.filter (fun row => Num.ltb (ToNumber (get "Duration" row))
                                    (Num.ofNat n)) data.
Proof.
  intros H1 H2 _ _ _.
  assert (forall i keyword op filter,
            searchPatterns !! i
            = Some (rePattern keyword op Re.digit, filter) ->
            Str.toLowerCase keyword = keyword -> Str.is_upper op = false ->
            Str.is_space op = false ->
            (forall j p f, j < i -> searchPatterns !! j = Some (p, f) ->
               Re.exec p (numericQuery keyword op ws1 ws2 n) = None) ->
            parseNaturalLanguageQuery (numericQuery keyword op ws1 ws2 n) data
            = List.filter (filter (pretty n)) data) as Hfirst.
  { intros i keyword op filter Hi Hk Hup Hsp Hj.
    refine (parseNaturalLanguageQuery_first
              (numericQuery keyword op ws1 ws2 n) data i _ filter
              [(1, pretty n)] Hi _ _);
      rewrite toLowerCase_numericQuery by done;
      [by apply exec_numericQuery|done]. }
  assert (forall (c : ascii) keyword op,
            noChar c keyword = true -> Ascii.eqb op c = false ->
            Str.is_space c = false -> Str.is_digit c = false ->
            noChar c (numericQuery keyword op ws1 ws2 n) = true) as Hno
    by (intros; by apply noChar_numericQuery).
  repeat split.
  - rewrite (Hfirst 0 "priority" ">"%char _ eq_refl) by (done || lia).
    apply List.filter_ext. intros row. by rewrite parseInt_pretty.
  - rewrite (Hfirst 1 "priority" "<"%char _ eq_refl); try done.
    + apply List.filter_ext. intros row. by rewrite parseInt_pretty.
    + intros j p f Hlt Hp. destruct j as [|j]; [|lia].
      injection Hp as <- <-. apply exec_none_operator. by apply Hno.
  - rewrite (Hfirst 2 "duration" ">"%char _ eq_refl); try done.
    + apply List.filter_ext. intros row. by rewrite parseInt_pretty.
    + intros j p f Hlt Hp. destruct j as [|[|j]]; [| |lia];
        injection Hp as <- <-; apply exec_none_keyword; by apply Hno.
  - rewrite (Hfirst 3 "duration" "<"%char _ eq_refl); try done.
    + apply List.filter_ext. intros row. by rewrite parseInt_pretty.
    + intros j p f Hlt Hp. destruct j as [|[|[|j]]]; [| | |lia];
        injection Hp as <- <-.
      * apply exec_none_keyword. by apply Hno.
      * apply exec_none_keyword. by apply Hno.
      * apply exec_none_operator. by apply Hno.
Qed.

Lemma numeric_search_exact_witness :
  parseNaturalLanguageQuery "priority > 2" sampleClients
  = [clientRow "C1" "3" "GroupB"; clientRow "C3" "5" "GroupA"].
Proof.
  exact (proj1 (numeric_search_exact " " " " 2 sampleClients eq_refl eq_refl
                  ltac:(by vm_compute) eq_refl eq_refl)).
Defined.

(** ** The range format of [PreferredPhases] *)






(** ** Corrections under stale indices *)

(** An issue about attributes names a row of the data and quotes its
    attributes. *)
Lemma invalid_json_issue_form (data : list DataRow) issues error i :
  validateDataset clients data = Ok issues ->
  error ∈ issues ->
  isRowIssue (i + 1) invalidJsonHead error = true ->
  exists row,
    data !! i = Some row /\
    error = msgInvalidJson (i + 1) (textOf "AttributesJSON" row).
Proof.
  intros Hv Hin Hp.
  destruct (issue_row clients data issues error i _ Hv Hin Hp) as [Hi _].
  destruct (lookup_lt_is_Some_2 data i Hi) as [row Hrow].
  exists row. split; [done|].
  assert (error ∈ attributesIssue (i + 1) row) as Hin'.
  { rewrite <-(filter_attributes data issues i row Hv Hrow).
    apply list_elem_of_In, filter_In. split; [by apply list_elem_of_In|done]. }
  unfold attributesIssue in Hin'. cbv zeta in Hin'.
  destruct (parsed _ _); [|by apply elem_of_nil in Hin'].
  destruct (Json.parse _); [by apply elem_of_nil in Hin'|].
  by apply list_elem_of_singleton in Hin'.
Qed.

(** The correction recorded under an index is the one computed from the
    row that the issue at that index names. *)
Lemma correction_computed_from (data : list DataRow) issues k error i
    correction :
  validateDataset clients data = Ok issues ->
  issues !! k = Some error ->
  isRowIssue (i + 1) "" error = true ->
  generateCorrections issues data !! k = Some correction ->
  exists row,
    data !! i = Some row /\ suggestCorrections error row = Some correction.
Proof.
  intros Hv Hk Hp Hc.
  destruct (issue_row clients data issues error i _ Hv
              (list_elem_of_lookup_2 _ _ _ Hk) Hp) as [Hi [rest ->]].
  rewrite generateCorrections_lookup, Hk in Hc. simpl in Hc.
  unfold correctionFor in Hc. rewrite (rowIndexOf_row i rest data Hi) in Hc.
  simpl in Hc. destruct (data !! i) as [row|]; [|done]. simpl in Hc.
  exists row. split; [done|].
  destruct (suggestCorrections _ row) as [c|]; [|done]. simpl in Hc.
  destruct (Str.nonEmpty c); [done|discriminate].
Qed.

(** After a correction is applied, the issues move up by one place while
    the corrections that are left stay where they were.  The correction
    recorded for the issue at [k], computed from the row [i1] that issue
    names, is now shown with the issue that was at [k + 1]; when that one
    is about the attributes of another row [i2], [Apply] writes the
    correction into the attributes of row [i2], a row it was not computed
    from, and leaves row [i1] as it is. *)
Theorem stale_correction_hits_next_issue
    (data : list DataRow) issues e error i k shown i1 correction next i2 :
  validateDataset clients data = Ok issues ->
  issues !! e = Some error ->
  isRowIssue (i + 1) invalidJsonHead error = true ->
  e < k ->
  issues !! k = Some shown ->
  isRowIssue (i1 + 1) "" shown = true ->
  generateCorrections issues data !! k = Some correction ->
  issues !! S k = Some next ->
  isRowIssue (i2 + 1) invalidJsonHead next = true ->
  i1 ≠ i2 ->
  exists s0 s1 s2 row1 row2,
    fixStart clients data = Ok s0 /\
    data !! i1 = Some row1 /\
    suggestCorrections shown row1 = Some correction /\
    applyFix clients e (autoFix s0) = Ok s1 /\
    fix_errors s1 !! k = Some next /\
    fix_corrections s1 !! k = Some correction /\
    fix_data s1 !! i2 = Some row2 /\
    applyFix clients k s1 = Ok s2 /\
    fix_data s2
    = <[i2 := assign "AttributesJSON" (VStr correction) row2]> (fix_data s1) /\
    fix_data s2 !! i1 = fix_data s1 !! i1.
Proof.
  intros Hv He Hp Hk Hshown Hp1 Hc Hnext Hp2 Hrows.
  destruct (correction_computed_from data issues k shown i1 correction
              Hv Hshown Hp1 Hc) as (row1 & Hrow1 & Hfrom).
  destruct (json_fix_steps data issues e error i Hv He Hp)
    as (c1 & row & j & Hrow & Hc1 & Hj & Ha & Hv').
  destruct (invalid_json_issue_form data issues next i2 Hv
              (list_elem_of_lookup_2 _ _ _ Hnext) Hp2) as (r2 & Hr2 & Hform).
  set (data1 := <[i := assign "AttributesJSON" (VStr c1) row]> data) in *.
  assert (i2 < length data1) as Hi2
    by (unfold data1; rewrite length_insert; by eapply lookup_lt_Some).
  destruct (lookup_lt_is_Some_2 data1 i2 Hi2) as [row2 Hrow2].
  set (data2 := <[i2 := assign "AttributesJSON" (VStr correction) row2]> data1).
  destruct (validateDataset clients data2) as [issues2|x] eqn:Hv2;
    [|by rewrite validateDataset_scan in Hv2].
  assert (delete e issues !! k = Some next) as Hnext'
    by (rewrite list_lookup_delete_ge by lia; done).
  assert (delete e (generateCorrections issues data) !! k = Some correction)
    as Hc' by (rewrite lookup_delete_ne by lia; done).
  exists {| fix_data := data; fix_errors := issues; fix_corrections := ∅ |},
         {| fix_data := data1; fix_errors := delete e issues;
            fix_corrections := delete e (generateCorrections issues data) |},
         {| fix_data := data2; fix_errors := issues2;
            fix_corrections :=
              delete k (delete e (generateCorrections issues data)) |},
         row1, row2.
  split; [unfold fixStart; by rewrite Hv|].
  split; [done|]. split; [done|]. split.
  { unfold applyFix, autoFix.
    cbn [fix_data fix_errors fix_corrections]. by rewrite He, Hc1, Ha, Hv'. }
  split; [done|]. split; [done|]. split; [done|].
  split; [|split; [done|]];
    [|cbn [fix_data]; unfold data2; by rewrite list_lookup_insert_ne].
  unfold applyFix. cbn [fix_data fix_errors fix_corrections].
  rewrite Hnext', Hc'.
  assert (applyCorrection k correction (delete e issues) data1 = Some data2)
    as ->; [|by rewrite Hv2].
  destruct (msgInvalidJson_includes (i2 + 1) (textOf "AttributesJSON" r2))
    as [_ Hinc].
  unfold applyCorrection. rewrite Hnext'. simpl. rewrite Hform, Hinc.
  unfold msgInvalidJson. rewrite (rowIndexOf_row i2 _ data1 Hi2). simpl.
  by rewrite Hrow2.
Qed.

Lemma stale_correction_hits_next_issue_witness :
  exists s0 s1 s2 row1 row2,
    fixStart clients brokenClients = Ok s0 /\
    brokenClients !! 1 = Some row1 /\
    suggestCorrections (msgInvalidJson 2 "{vip:true}") row1
    = Some ("{" +:+ dq +:+ "vip" +:+ dq +:+ ":true}") /\
    applyFix clients 0 (autoFix s0) = Ok s1 /\
    fix_errors s1 !! 1 = Some (msgInvalidJson 3 "{region:5}") /\
    fix_corrections s1 !! 1
    = Some ("{" +:+ dq +:+ "vip" +:+ dq +:+ ":true}") /\
    fix_data s1 !! 2 = Some row2 /\
    applyFix clients 1 s1 = Ok s2 /\
    fix_data s2
    = <[2 := assign "AttributesJSON"
               (VStr ("{" +:+ dq +:+ "vip" +:+ dq +:+ ":true}")) row2]>
        (fix_data s1) /\
    fix_data s2 !! 1 = fix_data s1 !! 1.
Proof.
  refine (stale_correction_hits_next_issue brokenClients _ 0 _ 0 1 _ 1 _ _ 2
            eq_refl eq_refl eq_refl _ eq_refl eq_refl _ eq_refl eq_refl _);
    [lia|by vm_compute|lia].
Defined.

(** ** Ordered and unordered counts of a pair *)

Lemma pair_key_inj (a b x y : string) :
  noChar "-" a = true -> noChar "-" b = true ->
  x +:+ "-" +:+ y = a +:+ "-" +:+ b -> x = a /\ y = b.
Proof.
  unfold noChar. revert x. induction a as [|c a IH]; intros x Ha Hb H.
  - destruct x as [|c' x]; [by injection H|].
    change (String c' (x +:+ "-" +:+ y) = String "-" b) in H.
    injection H as -> <-. rewrite allChars_app in Hb.
    change (allChars _ ("-" +:+ y)) with false in Hb.
    by rewrite andb_false_r in Hb.
  - simpl in Ha. apply andb_true_iff in Ha as [Hc Ha].
    destruct x as [|c' x].
    + change (String "-" y = String c (a +:+ "-" +:+ b)) in H.
      injection H as <- _. done.
    + change (String c' (x +:+ "-" +:+ y) = String c (a +:+ "-" +:+ b)) in H.
      injection H as -> H. destruct (IH x Ha Hb H) as [-> ->]. done.
Qed.

Lemma pairKeys_positionPairs (taskIds : list string) :
  pairKeys taskIds
  = map (fun p : string * string => p.1 +:+ "-" +:+ p.2)
        (positionPairs taskIds).
Proof.
  induction taskIds as [|a rest IH]; simpl; [done|].
  by rewrite map_app, map_map, IH.
Qed.

Lemma length_filter_map {A B} (f : A -> B) (p : B -> bool) (l : list A) :
  length (List.filter p (map f l))
  = length (List.filter (fun x => p (f x)) l).
Proof.
  induction l as [|x l IH]; simpl; [done|]. destruct (p (f x)); simpl; lia.
Qed.

Lemma length_filter_or {A} (p q : A -> bool) (l : list A) :
  (forall x, p x = true -> q x = true -> False) ->
  length (List.filter (fun x => p x || q x) l)
  = length (List.filter p l) + length (List.filter q l).
Proof.
  intros Hpq. induction l as [|x l IH]; simpl; [done|].
  destruct (p x) eqn:Hp, (q x) eqn:Hq; simpl; try lia.
  destruct (Hpq x Hp Hq).
Qed.

(** The pairs of positions that hold two different tasks, in either
    order, are split by the code between two keys, one for each order. *)
Lemma togetherCount_keyCount (a b : string) (clients : list DataRow) :
  a ≠ b -> noChar "-" a = true -> noChar "-" b = true ->
  togetherCount a b clients
  = keyCount (a +:+ "-" +:+ b) clients + keyCount (b +:+ "-" +:+ a) clients.
Proof.
  intros Hab Ha Hb. unfold togetherCount, keyCount.
  assert (flat_map (fun client => pairKeys (requestedTaskIds client)) clients
          = map (fun p : string * string => p.1 +:+ "-" +:+ p.2)
              (flat_map (fun client => positionPairs (requestedTaskIds client))
                        clients)) as ->.
  { induction clients as [|c clients IH]; simpl; [done|].
    by rewrite map_app, IH, pairKeys_positionPairs. }
  rewrite !length_filter_map.
  generalize (flat_map (fun client => positionPairs (requestedTaskIds client))
                       clients).
  intros pairs.
  rewrite <-length_filter_or.
  - f_equal. apply List.filter_ext. intros [x y]. unfold samePair. simpl.
    f_equal.
    + apply eq_true_iff_eq.
      rewrite andb_true_iff, !String.eqb_eq. split.
      * by intros [-> ->].
      * intros H. symmetry in H. by apply pair_key_inj in H.
    + apply eq_true_iff_eq.
      rewrite andb_true_iff, !String.eqb_eq. split.
      * by intros [-> ->].
      * intros H. symmetry in H. by apply pair_key_inj in H.
  - intros [x y]. simpl. rewrite !String.eqb_eq. intros H1 H2.
    rewrite <-H1 in H2. apply pair_key_inj in H2 as [-> _]; done.
Qed.

Lemma count_NoDup (b : string) (l : list string) :
  NoDup l ->
  length (List.filter (String.eqb b) l) = if bool_decide (b ∈ l) then 1 else 0.
Proof.
  induction 1 as [|x l Hx Hl IH]; simpl; [done|].
  destruct (String.eqb_spec b x) as [->|Hbx]; simpl.
  - rewrite bool_decide_eq_true_2 by left. rewrite IH.
    by rewrite bool_decide_eq_false_2.
  - rewrite IH. apply (f_equal (fun c : bool => if c then 1 else 0)).
    apply bool_decide_ext. rewrite elem_of_cons. naive_solver.
Qed.

(** In a request that lists no task twice, two different tasks are together
    at one pair of positions or at none. *)
Lemma together_NoDup (a b : string) (l : list string) :
  a ≠ b -> NoDup l ->
  length (List.filter (samePair a b) (positionPairs l))
  = if bool_decide (a ∈ l) && bool_decide (b ∈ l) then 1 else 0.
Proof.
  intros Hab. induction 1 as [|x l Hx Hl IH]; simpl; [done|].
  rewrite List.filter_app, length_app, length_filter_map, IH.
  unfold samePair. cbn [fst snd].
  destruct (String.eqb_spec x a) as [->|Hxa];
    [|destruct (String.eqb_spec x b) as [->|Hxb]].
  - rewrite (proj2 (String.eqb_neq a b)) by done. cbn [andb orb].
    rewrite (List.filter_ext _ (String.eqb b))
      by (intros y; by rewrite orb_false_r, String.eqb_sym).
    rewrite count_NoDup by done.
    rewrite (bool_decide_eq_true_2 (a ∈ a :: l)) by left.
    rewrite (bool_decide_eq_false_2 (a ∈ l)) by done. cbn [andb].
    rewrite Nat.add_0_r. apply (f_equal (fun c : bool => if c then 1 else 0)).
    apply bool_decide_ext. rewrite elem_of_cons. naive_solver.
  - cbn [andb orb].
    rewrite (List.filter_ext _ (String.eqb a))
      by (intros y; by rewrite String.eqb_sym).
    rewrite count_NoDup by done.
    rewrite (bool_decide_eq_true_2 (b ∈ b :: l)) by left.
    rewrite (bool_decide_eq_false_2 (b ∈ l)) by done.
    rewrite andb_false_r, andb_true_r, Nat.add_0_r.
    apply (f_equal (fun c : bool => if c then 1 else 0)).
    apply bool_decide_ext. rewrite elem_of_cons. naive_solver.
  - cbn [andb orb]. rewrite (filter_none _ l) by done. simpl.
    apply (f_equal (fun c : bool => if c then 1 else 0)). f_equal;
      apply bool_decide_ext; rewrite elem_of_cons; naive_solver.
Qed.

Lemma togetherCount_clients (a b : string) (clients : list DataRow) :
  a ≠ b ->
  Forall (fun client => NoDup (requestedTaskIds client)) clients ->
  togetherCount a b clients = length (List.filter (requestsBoth a b) clients).
Proof.
  intros Hab. unfold togetherCount.
  induction 1 as [|client clients Hc Hcs IH]; simpl; [done|].
  rewrite List.filter_app, length_app, IH, together_NoDup by done.
  unfold requestsBoth at 2.
  by destruct (bool_decide _ && bool_decide _).
Qed.

(** When no client lists a task twice, the number of clients that request
    two different tasks together is the sum of the two counts the code
    keeps for them, one under the key of each order: a recommendation,
    made from one key, counts the requests that list the two tasks in its
    own order only. *)
Theorem together_count_split (a b : string) (clients : list DataRow) :
  a ≠ b -> noChar "-" a = true -> noChar "-" b = true ->
  Forall (fun client => NoDup (requestedTaskIds client)) clients ->
  length (List.filter (requestsBoth a b) clients) = togetherCount a b clients /\
  togetherCount a b clients
  = default 0 (mapGet (a +:+ "-" +:+ b) (taskCooccurrence clients))
    + default 0 (mapGet (b +:+ "-" +:+ a) (taskCooccurrence clients)).
Proof.
  intros Hab Ha Hb Hclients. split.
  - symmetry. by apply togetherCount_clients.
  - rewrite !taskCooccurrence_count. by apply togetherCount_keyCount.
Qed.

Lemma together_count_split_witness :
  length (List.filter (requestsBoth "T1" "T2") mixedClients)
  = togetherCount "T1" "T2" mixedClients /\
  togetherCount "T1" "T2" mixedClients
  = default 0 (mapGet "T1-T2" (taskCooccurrence mixedClients))
    + default 0 (mapGet "T2-T1" (taskCooccurrence mixedClients)).
Proof.
  apply (together_count_split "T1" "T2"); [done|done|done|].
  apply (bool_decide_unpack _). by vm_compute.
Defined.

(** A request that lists a task twice is counted once for each pair of
    positions: one client, two pairs. *)
Example repeated_request_counts_twice :
  length (List.filter (requestsBoth "T1" "T2") repeatingClients) = 1 /\
  togetherCount "T1" "T2" repeatingClients = 2 /\
  taskCooccurrence repeatingClients
  = [("T1-T2", 1); ("T1-T1", 1); ("T2-T1", 1)].
Proof. repeat split; by vm_compute. Qed.

(** ** Corrections of task identifiers *)

Lemma filter_all {A} (p : A -> bool) (l : list A) :
  forallb p l = true -> List.filter p l = l.
Proof.
  induction l as [|x l IH]; simpl; [done|].
  intros [-> Hl]%andb_true_iff. by rewrite IH.
Qed.

Lemma assign_same f v row : get f row = v -> truthy v = true ->
  assign f v row = row.
Proof.
  intros Hg Hv. induction row as [|[k w] row IH]; simpl in *.
  - subst v. done.
  - destruct (String.eqb k f); [by subst|]. by rewrite IH.
Qed.

Lemma startsWith_noChar (c : ascii) (sub s : string) :
  Str.startsWith sub s = true -> noChar c s = true -> noChar c sub = true.
Proof.
  unfold noChar. revert s. induction sub as [|x sub IH]; intros s; [done|].
  destruct s as [|y s]; simpl; [done|].
  intros [Hxy Hs]%andb_true_iff [Hy Hn]%andb_true_iff.
  apply Ascii.eqb_eq in Hxy as ->. rewrite Hy. simpl. by apply (IH s).
Qed.

(** A text includes only texts made of its own characters. *)
Lemma includes_noChar (c : ascii) (sub s : string) :
  Str.includes sub s = true -> noChar c s = true -> noChar c sub = true.
Proof.
  induction s as [|y s IH]; simpl.
  - rewrite orb_false_r. intros H _. by destruct sub.
  - intros [H|H]%orb_true_iff Hn.
    + by apply (startsWith_noChar c sub (String y s)).
    + apply IH; [done|]. unfold noChar in *. simpl in Hn.
      by apply andb_true_iff in Hn as [_ Hn].
Qed.

(** The message about the requests of a row whose text has no [J]
    mentions [RequestedTaskIDs], and neither [Invalid JSON] nor
    [AttributesJSON]. *)
Lemma taskIds_message_includes (n : nat) (text : string) :
  noChar "J" text = true ->
  Str.includes "Invalid JSON"
    (msgGot n "RequestedTaskIDs should be comma-separated T-prefixed IDs" text)
  = false /\
  Str.includes "AttributesJSON"
    (msgGot n "RequestedTaskIDs should be comma-separated T-prefixed IDs" text)
  = false /\
  Str.includes "RequestedTaskIDs"
    (msgGot n "RequestedTaskIDs should be comma-separated T-prefixed IDs" text)
  = true.
Proof.
  intros Ht.
  assert (noChar "J"
            (msgGot n
               "RequestedTaskIDs should be comma-separated T-prefixed IDs" text)
          = true) as Hmsg.
  { assert (noChar "J" (pretty n) = true) as Hn.
    { apply (allChars_impl Str.is_digit); [|apply allChars_pretty_nat].
      intros x Hx. destruct (Ascii.eqb_spec x "J") as [->|]; done. }
    unfold msgGot, rowPrefix. by rewrite !noChar_app, Ht, Hn. }
  split; [|split].
  - destruct (Str.includes "Invalid JSON" _) eqn:E; [|done].
    by apply (includes_noChar "J") in E.
  - destruct (Str.includes "AttributesJSON" _) eqn:E; [|done].
    by apply (includes_noChar "J") in E.
  - unfold msgGot. apply includes_app_l. by vm_compute.
Qed.

(** For the issue about the requests of a row, the suggestion keeps the
    pieces between the commas as they are: when each piece, trimmed,
    starts with [T], the correction recorded is the text of the cell, and
    applying it hands back the data unchanged.  A space after a comma is
    never repaired.  The text is without the letter [J]: the corrections
    look for [Invalid JSON] and [AttributesJSON] anywhere in the issue,
    which quotes the cell, before they look for [RequestedTaskIDs]. *)
Theorem task_ids_fix_keeps_text (errors : list string) (data : list DataRow)
    (errorIndex rowIndex : nat) (row : DataRow) (text : string) :
  errors !! errorIndex
  = Some (msgGot (rowIndex + 1)
            "RequestedTaskIDs should be comma-separated T-prefixed IDs" text) ->
  data !! rowIndex = Some row ->
  get "RequestedTaskIDs" row = VStr text ->
  noChar "J" text = true ->
  forallb (fun id => Str.startsWith "T" (Str.trim id)) (Str.split "," text)
  = true ->
  generateCorrections errors data !! errorIndex = Some text /\
  applyCorrection errorIndex text errors data = Some data.
Proof.
  intros He Hr Hg Hj Hall.
  destruct (taskIds_message_includes (rowIndex + 1) text Hj) as (H1 & H3 & H2).
  assert (text ≠ "") as Hne by (intros ->; done).
  assert (rowIndexOf
            (msgGot (rowIndex + 1)
               "RequestedTaskIDs should be comma-separated T-prefixed IDs" text)
            data = Some rowIndex) as Hi
    by (unfold msgGot; apply rowIndexOf_row; by eapply lookup_lt_Some).
  revert He H1 H2 H3 Hi.
  generalize (msgGot (rowIndex + 1)
                "RequestedTaskIDs should be comma-separated T-prefixed IDs"
                text).
  intros error He H1 H2 H3 Hi. split.
  - rewrite generateCorrections_lookup, He. simpl.
    unfold correctionFor. rewrite Hi. simpl. rewrite Hr. simpl.
    unfold suggestCorrections. rewrite H1, H2, Hg. unfold js_or. simpl.
    apply nonEmpty_true in Hne as Hne'. rewrite Hne'. simpl.
    rewrite filter_all by done.
    destruct (split_cons "," text) as (h & t & E).
    pose proof (join_split "," text) as Hjoin. rewrite E in *. simpl length.
    rewrite Hjoin. simpl. by rewrite Hne'.
  - unfold applyCorrection. rewrite He. simpl. rewrite Hi. simpl.
    rewrite Hr. simpl. rewrite H3, H2.
    rewrite assign_same; [|done|simpl; by apply nonEmpty_true].
    by rewrite list_insert_id.
Qed.

Lemma task_ids_fix_keeps_text_witness :
  validateDataset clients [spacedClient] = Ok [spacedIssue] /\
  generateCorrections [spacedIssue] [spacedClient] !! 0 = Some "T1, T2" /\
  applyCorrection 0 "T1, T2" [spacedIssue] [spacedClient]
  = Some [spacedClient].
Proof.
  split; [by vm_compute|].
  apply (task_ids_fix_keeps_text [spacedIssue] [spacedClient] 0 0
           spacedClient "T1, T2"); by vm_compute.
Defined.
